(** * Schema-adaptive query engine of RRAData (core/duckdb_processor.py)

    A shallow embedding of the query engine: locator introspection, the
    schema cache, the search / filter predicate compilers, the ORDER BY
    chooser, the batch executor and the pagination metadata, followed by
    the properties stated about them. *)

From Stdlib Require Import ZArith QArith Ascii String List Lia Bool.
From stdpp Require Import base option strings list gmap pretty.

Local Open Scope string_scope.
Local Open Scope Z_scope.
Local Open Scope list_scope.

Set Warnings "-register-all".

(** ** Host-language string and list operations *)

Module Py.

(** [s.startswith(p)] *)
Definition startswith (s p : string) : bool := String.prefix p s.

(** [s.endswith(p)] *)
Definition endswith (s p : string) : bool :=
  String.prefix (String.rev p) (String.rev s).

(** [p in s] on strings *)
Definition contains (p s : string) : bool :=
  match String.index 0 p s with
  | Some _ => true
  | None => false
  end.

(** [s.replace(c, '')] for a one-character [c] *)
Fixpoint remove_char (c : ascii) (s : string) : string :=
  match s with
  | EmptyString => EmptyString
  | String a s' =>
      if Ascii.eqb a c then remove_char c s' else String a (remove_char c s')
  end.

(** [sep.join(parts)] *)
Definition join (sep : string) (parts : list string) : string :=
  String.concat sep parts.

(** [x in xs] on a list of strings *)
Definition mem (x : string) (xs : list string) : bool :=
  bool_decide (x ∈ xs).

(** [next((f for f in candidates if f in available), None)] *)
Definition first_in (candidates available : list string) : option string :=
  List.find (fun f => mem f available) candidates.

(** truth value of a string *)
Definition truthy (s : string) : bool :=
  match s with
  | EmptyString => false
  | String _ _ => true
  end.

(** [s.lower()] on ASCII letters. *)
Definition ascii_lower (a : ascii) : ascii :=
  let n := nat_of_ascii a in
  if (65 <=? n)%nat && (n <=? 90)%nat then ascii_of_nat (n + 32) else a.

Fixpoint lower (s : string) : string :=
  match s with
  | EmptyString => EmptyString
  | String a s' => String (ascii_lower a) (lower s')
  end.

(** [Path(p).name] for a plain path: the text after its last slash. *)
Fixpoint path_name_go (cur s : string) : string :=
  match s with
  | EmptyString => cur
  | String a s' =>
      if Ascii.eqb a "/" then path_name_go EmptyString s'
      else path_name_go (cur +:+ String a EmptyString) s'
  end.

Definition path_name (s : string) : string := path_name_go EmptyString s.

Fixpoint from_first_slash (s : string) : string :=
  match s with
  | EmptyString => EmptyString
  | String a s' => if Ascii.eqb a "/" then s else from_first_slash s'
  end.

Fixpoint before_query (s : string) : string :=
  match s with
  | EmptyString => EmptyString
  | String a s' =>
      if Ascii.eqb a "?" || Ascii.eqb a "#" then EmptyString
      else String a (before_query s')
  end.

(** [urlparse(u).path] for a plain http(s) URL: what follows the host,
    up to the query or fragment. *)
Definition url_path (u : string) : string :=
  let rest :=
    if startswith u "https://" then String.substring 8 (String.length u) u
    else if startswith u "http://" then String.substring 7 (String.length u) u
    else u in
  before_query (from_first_slash rest).

End Py.

(** The double-quote character. *)
Definition dquote : string := String (ascii_of_nat 34) EmptyString.

(** ** Locator introspection *)

Inductive error : Type :=
| FileNotFoundError (msg : string)
| OSError
| TypeError (msg : string)
| EngineError (msg : string).

(** The file system as the engine sees it: the size in bytes of every
    path that exists, keyed by the text of the [Path] object. *)
Definition filesystem := string → option Z.

Record DuckDBProcessor : Type := {
  file_path_str : string;
  is_url : bool;
  file_path : string;
  category : option string;
  subcategory : option string;
  result_type : option string;
  required_fields : list string;
  dynamic_required_fields : list string
}.

Definition locator_is_url (file_path : string) : bool :=
  Py.startswith file_path "https://" || Py.startswith file_path "http://".

Section Locator.

(** [str(Path(p))] of the host language. *)
Variable path_str : string → string.

(** [DuckDBProcessor.__init__]: a local path that does not exist is
    refused; a URL is kept as a string. *)
Definition init (fs : filesystem) (file_path : string)
    (category subcategory result_type : option string)
    (required : option (list string)) : error + DuckDBProcessor :=
  let url := locator_is_url file_path in
  let mk fp :=
    {| file_path_str := file_path; is_url := url; file_path := fp;
       category := category; subcategory := subcategory;
       result_type := result_type;
       required_fields := default [] required;
       dynamic_required_fields := [] |} in
  if negb url then
    match fs (path_str file_path) with
    | None =>
        inl (FileNotFoundError ("파일을 찾을 수 없습니다: " +:+ file_path))
    | Some _ => inr (mk (path_str file_path))
    end
  else inr (mk file_path).

(** [_get_file_size_mb]: 100.0 for a URL, the stat'ed size otherwise;
    [stat] raises when the path is gone. *)
Definition _get_file_size_mb (fs : filesystem) (self : DuckDBProcessor)
    : error + Q :=
  if is_url self then inr (100 # 1)
  else
    match fs (file_path self) with
    | Some size_bytes => inr (Qmake size_bytes 1 / Qmake (1024 * 1024) 1)%Q
    | None => inl OSError
    end.

End Locator.

(** ** Data-source inspection (api/main.py) *)



Section Inspector.

Variable str_lower : string → string.
Variable path_str : string → string.


End Inspector.

(** ** Rows and records *)

(** Values the engine hands back in a row. *)
Inductive value : Type :=
| VNone
| VInt (z : Z)
| VStr (s : string)
| VList (l : list value)
| VDict (d : list (string * value)).

(** A record is a host-language dict: keys in insertion order, no key
    twice. *)
Definition record := list (string * value).

Fixpoint dict_get (k : string) (d : record) : option value :=
  match d with
  | [] => None
  | (k', v) :: d' => if String.eqb k' k then Some v else dict_get k d'
  end.

(** [del d[k]] *)
Definition dict_del (k : string) (d : record) : record :=
  List.filter (fun kv => negb (String.eqb (fst kv) k)) d.

(** [d[k] = v]: an existing key keeps its place. *)
Fixpoint dict_set (k : string) (v : value) (d : record) : record :=
  match d with
  | [] => [(k, v)]
  | (k', v') :: d' =>
      if String.eqb k' k then (k, v) :: d' else (k', v') :: dict_set k v d'
  end.

(** [dict(zip(names, row))] *)
Fixpoint dict_zip (names : list string) (row : list value) (acc : record)
    : record :=
  match names, row with
  | n :: names', v :: row' => dict_zip names' row' (dict_set n v acc)
  | _, _ => acc
  end.

(** Truth value of a host-language value. *)
Definition value_truthy (v : value) : bool :=
  match v with
  | VNone => false
  | VInt z => negb (z =? 0)
  | VStr s => Py.truthy s
  | VList l => match l with [] => false | _ :: _ => true end
  | VDict d => match d with [] => false | _ :: _ => true end
  end.

Inductive json_structure : Type :=
| parquet
| array
| nested_safetykorea
| nested_data
| object
| unknown.

Definition is_nested (structure : json_structure) : bool :=
  match structure with
  | nested_safetykorea | nested_data => true
  | _ => false
  end.

(** A chunk callback, known by whether a call raises: the calls it has
    received before, then the chunk and the running count of this
    call. Whatever state the callback keeps is a function of the calls
    it has received. *)
Definition callback : Type := list (list record * Z) → list record → Z → bool.

(** A callback that never raises. *)
Definition quiet : callback := fun _ _ _ => false.

Section Executor.

(** [type(v)] and [str(v)] as rendered into the error record of an
    unexpected nested item. *)
Variable type_repr : value → string.
Variable value_str : value → string.

(** Whether [chunk_callback(chunk, count)] raises, given the calls the
    callback has received before; and whether the [n]-th call of
    [result.fetchmany] raises. *)
Variable sink_raises : callback.
Variable fetch_raises : nat → bool.

(** The record built from one fetched row; [None] is a row that yields
    no record. *)
Definition row_record (using_parquet : bool) (structure : json_structure)
    (description : list string) (row : list value) : option record :=
  let flat :=
    match row with
    | [] => None
    | _ :: _ => Some (dict_zip description row [])
    end in
  if using_parquet then flat
  else if is_nested structure then
    match row with
    | [] => None
    | raw_record :: _ =>
        if value_truthy raw_record then
          match raw_record with
          | VDict d => Some d
          | _ =>
              Some [("error",
                     VStr ("Unexpected record type: " +:+ type_repr raw_record));
                    ("content", VStr (value_str raw_record))]
          end
        else None
    end
  else flat.

(** Loop state of [_execute_query]; [batch_error] tells that the
    [except] branch of the batch loop was taken. *)
Record loop_state : Type := {
  results : list record;
  total_processed : Z;
  total_count_window : value;
  chunk_buffer : list record;
  sink : list (list record * Z);
  batch_error : bool
}.

Definition loop_init : loop_state :=
  {| results := []; total_processed := 0; total_count_window := VNone;
     chunk_buffer := []; sink := []; batch_error := false |}.

Definition limit_reached (effective_limit : option Z) (st : loop_state)
    : bool :=
  match effective_limit with
  | Some l => l <=? total_processed st
  | None => false
  end.

(** One accepted record: strip the window count, count the row, store
    it in the buffer (streaming) or in the results (collect). *)
Definition take_record (streaming_mode : bool) (rec : record)
    (st : loop_state) : loop_state :=
  let '(window, rec') :=
    match dict_get "total_count" rec with
    | Some v => (v, dict_del "total_count" rec)
    | None => (total_count_window st, rec)
    end in
  {| results := if streaming_mode then results st else results st ++ [rec'];
     total_processed := total_processed st + 1;
     total_count_window := window;
     chunk_buffer :=
       if streaming_mode then chunk_buffer st ++ [rec'] else chunk_buffer st;
     sink := sink st;
     batch_error := batch_error st |}.

(** [for row in batch: ...] with its [break]. *)
Fixpoint process_batch (using_parquet : bool) (structure : json_structure)
    (description : list string) (streaming_mode : bool)
    (effective_limit : option Z) (batch : list (list value))
    (st : loop_state) : loop_state :=
  match batch with
  | [] => st
  | row :: batch' =>
      match row_record using_parquet structure description row with
      | Some rec =>
          if match rec with [] => false | _ :: _ => true end then
            let st' := take_record streaming_mode rec st in
            if limit_reached effective_limit st' then st'
            else process_batch using_parquet structure description
                   streaming_mode effective_limit batch' st'
          else process_batch using_parquet structure description
                 streaming_mode effective_limit batch' st
      | None => process_batch using_parquet structure description
                  streaming_mode effective_limit batch' st
      end
  end.

(** [chunk_callback(chunk_buffer.copy(), total_processed)] followed by
    [chunk_buffer.clear()], when there is something to hand over. A
    callback that raises is left by the exception: the buffer is not
    cleared and the batch loop is over. *)
Definition flush (streaming_mode : bool) (st : loop_state) : loop_state :=
  if streaming_mode then
    match chunk_buffer st with
    | [] => st
    | _ :: _ =>
        let raised :=
          sink_raises (sink st) (chunk_buffer st) (total_processed st) in
        {| results := results st;
           total_processed := total_processed st;
           total_count_window := total_count_window st;
           chunk_buffer := if raised then chunk_buffer st else [];
           sink := sink st ++ [(chunk_buffer st, total_processed st)];
           batch_error := raised |}
    end
  else st.

(** The state the [except] branch of the batch loop leaves. *)
Definition interrupt (st : loop_state) : loop_state :=
  {| results := results st;
     total_processed := total_processed st;
     total_count_window := total_count_window st;
     chunk_buffer := chunk_buffer st;
     sink := sink st;
     batch_error := true |}.

(** [while True: batch = result.fetchmany(n) ...] inside its [try]; the
    cursor is the list of rows not yet fetched and [fetched] the number
    of [fetchmany] calls made so far. *)
Fixpoint fetch_loop (fuel : nat) (using_parquet : bool)
    (structure : json_structure) (description : list string)
    (streaming_mode : bool) (effective_limit : option Z)
    (batch_fetch_size : nat) (fetched : nat) (cursor : list (list value))
    (st : loop_state) : loop_state :=
  match fuel with
  | O => st
  | S fuel' =>
      if fetch_raises fetched then interrupt st
      else
        match take batch_fetch_size cursor with
        | [] => st
        | batch =>
            let st1 := process_batch using_parquet structure description
                         streaming_mode effective_limit batch st in
            let st2 := flush streaming_mode st1 in
            if batch_error st2 then st2
            else if limit_reached effective_limit st2 then st2
            else fetch_loop fuel' using_parquet structure description
                   streaming_mode effective_limit batch_fetch_size
                   (S fetched) (drop batch_fetch_size cursor) st2
        end
  end.

End Executor.

(** ** Pagination metadata *)

Record Pagination : Type := {
  total_count : value;
  total_pages : Z;
  current_page : Z;
  items_per_page : value;
  has_next : bool;
  has_prev : bool
}.

(** [effective_limit = None if limit is None or limit <= 0 else limit] *)
Definition effective_limit_of (limit : option Z) : option Z :=
  match limit with
  | None => None
  | Some l => if l <=? 0 then None else Some l
  end.

(** [offset = (page - 1) * effective_limit if effective_limit else 0] *)
Definition offset_of (page : Z) (effective_limit : option Z) : Z :=
  match effective_limit with
  | Some l => if l =? 0 then 0 else (page - 1) * l
  | None => 0
  end.

(** The message of the [TypeError] that [total_count + effective_limit]
    raises when the count is no number. *)
Definition count_type_error (total_count : value) : string :=
  match total_count with
  | VStr _ =>
      "can only concatenate str (not " +:+ dquote +:+ "int" +:+ dquote
      +:+ ") to str"
  | VList _ =>
      "can only concatenate list (not " +:+ dquote +:+ "int" +:+ dquote
      +:+ ") to list"
  | VDict _ => "unsupported operand type(s) for +: 'dict' and 'int'"
  | _ => "unsupported operand type(s) for +: 'NoneType' and 'int'"
  end.

(** The pagination block at the end of [_execute_query]; integer
    arithmetic on a count that is not an integer raises. *)
Definition pagination_of (total_count : value) (page : Z)
    (effective_limit : option Z) : error + Pagination :=
  let has_prev := 1 <? page in
  let unlimited :=
    inr {| total_count := total_count; total_pages := 1;
           current_page := page; items_per_page := total_count;
           has_next := false; has_prev := has_prev |} in
  match effective_limit with
  | Some l =>
      if l =? 0 then unlimited
      else
        match total_count with
        | VInt n =>
            let total_pages := if 0 <? l then (n + l - 1) / l else 1 in
            inr {| total_count := total_count; total_pages := total_pages;
                   current_page := page; items_per_page := VInt l;
                   has_next := page <? total_pages; has_prev := has_prev |}
        | _ => inl (TypeError (count_type_error total_count))
        end
  | None => unlimited
  end.

(** [total_count] as decided after the loop ([count_query] is always
    [None]): the window count when there are results and the window count
    [is not None], the processed count otherwise. *)
Definition final_total_count (results : list record)
    (total_count_window : value) (total_processed : Z) : value :=
  match results with
  | [] => VInt 0
  | _ :: _ =>
      match total_count_window with
      | VNone => VInt total_processed
      | w => w
      end
  end.

(** ** Case-sensitivity policy *)

Record CaseConfig : Type := {
  case_insensitive_fields : gmap string bool;
  case_sensitive_fields : gmap string bool;
  default_case_insensitive : bool
}.

(** The configuration used when case_sensitivity_config.json cannot be
    loaded. *)
Definition fallback_case_config : CaseConfig :=
  {| case_insensitive_fields :=
       list_to_map [("업체명", true); ("제품명", true);
                    ("company_name", true); ("product_name", true)];
     case_sensitive_fields :=
       list_to_map [("인증번호", false); ("모델명", false);
                    ("certification_no", false); ("model_name", false)];
     default_case_insensitive := false |}.

Definition _is_field_case_insensitive (case_config : CaseConfig)
    (field_name : string) : bool :=
  match case_insensitive_fields case_config !! field_name with
  | Some b => b
  | None =>
      match case_sensitive_fields case_config !! field_name with
      | Some b => negb b
      | None => default_case_insensitive case_config
      end
  end.

(** ** Search predicate *)

Inductive operator : Type := LIKE | EQ.

Definition operator_text (op : operator) : string :=
  match op with
  | LIKE => "LIKE"
  | EQ => "="
  end.

Definition cert_number_fields : list string :=
  ["cert_no"; "cert_num"; "declare_no"; "신고번호"; "승인번호"].

Definition _get_search_pattern_and_operator (keyword field : string)
    : string * operator :=
  if Py.mem field cert_number_fields then (keyword, EQ)
  else ("%" +:+ keyword +:+ "%", LIKE).

Definition exact_match_fields : list string :=
  ["business_number"; "사업자등록번호"; "ftc_business_number"].

Definition field_mappings : list (string * list string) :=
  [("company_name",
    ["업체명"; "maker_name"; "entrprsNm"; "상호/법인명"; "사업자명"]);
   ("model_name", ["모델명"; "model_name"]);
   ("product_name", ["제품명"; "product_name"; "prductNm"; "품목명"])].

Fixpoint assoc_get {A : Type} (k : string) (d : list (string * A))
    : option A :=
  match d with
  | [] => None
  | (k', v) :: d' => if String.eqb k' k then Some v else assoc_get k d'
  end.

(** The conditions [_build_where_clause] appends, one constructor per
    format string. *)
Inductive search_cond : Type :=
| StrippedEq (field : string)
| CastCmp (lowered : bool) (table_alias field : string) (op : operator).

(** [f'{table_alias}"{field}"'] *)
Definition quoted (table_alias field : string) : string :=
  table_alias +:+ dquote +:+ field +:+ dquote.

Definition render_cond (c : search_cond) : string :=
  match c with
  | StrippedEq field =>
      "REPLACE(REPLACE(CAST(" +:+ quoted "" field
        +:+ " AS VARCHAR), '-', ''), ' ', '') = ?"
  | CastCmp true table_alias field op =>
      "LOWER(CAST(" +:+ quoted table_alias field +:+ " AS VARCHAR)) "
        +:+ operator_text op +:+ " ?"
  | CastCmp false table_alias field op =>
      "CAST(" +:+ quoted table_alias field +:+ " AS VARCHAR) "
        +:+ operator_text op +:+ " ?"
  end.

Definition cond_field (c : search_cond) : string :=
  match c with
  | StrippedEq field => field
  | CastCmp _ _ field _ => field
  end.

(** [keyword.replace('-', '').replace(' ', '')] *)
Definition clean_keyword (keyword : string) : string :=
  Py.remove_char " " (Py.remove_char "-" keyword).

(** [not keyword] *)
Definition keyword_missing (keyword : option string) : bool :=
  match keyword with
  | None => true
  | Some k => negb (Py.truthy k)
  end.

(** The aliases tried for a business-number search field. *)
Definition business_aliases (search_field : string) : list string :=
  [search_field]
    ++ (if String.eqb search_field "business_number"
        then ["ftc_business_number"] else [])
    ++ (if String.eqb search_field "ftc_business_number"
        then ["business_number"] else []).

(** The physical columns searched for a field that is not a
    business-number field: the aliases present in the schema, else the
    raw field name when it is a column. *)
Definition existing_search_fields (search_field : string)
    (available_fields : list string) : list string :=
  let target_fields :=
    default [search_field] (assoc_get search_field field_mappings) in
  let existing_fields :=
    List.filter (fun f => Py.mem f available_fields) target_fields in
  match existing_fields with
  | [] => if Py.mem search_field available_fields then [search_field] else []
  | _ :: _ => existing_fields
  end.

(** The search predicate: a constant clause, or the OR of the appended
    conditions, each with the parameter bound to its placeholder. *)
Inductive where_form : Type :=
| ConstTrue
| ConstFalse
| AnyOf (conditions : list (search_cond * value)).

Definition render_where (f : where_form) : string :=
  match f with
  | ConstTrue => "1=1"
  | ConstFalse => "1=0"
  | AnyOf conditions =>
      Py.join " OR " (List.map (fun c => render_cond (fst c)) conditions)
  end.

Definition where_form_parameters (f : where_form) : list value :=
  match f with
  | ConstTrue | ConstFalse => []
  | AnyOf conditions => List.map snd conditions
  end.

Definition where_form_columns (f : where_form) : list string :=
  match f with
  | ConstTrue | ConstFalse => []
  | AnyOf conditions => List.map (fun c => cond_field (fst c)) conditions
  end.

Record where_result : Type := {
  where_form_of : where_form;
  where_dynamic_required : list string
}.

Definition where_clause (w : where_result) : string :=
  render_where (where_form_of w).

Definition where_parameters (w : where_result) : list value :=
  where_form_parameters (where_form_of w).

(** [for col in cols: if col and col not in acc: acc.append(col)] *)
Definition add_required (acc cols : list string) : list string :=
  fold_left
    (fun acc col =>
       if Py.truthy col && negb (Py.mem col acc) then acc ++ [col] else acc)
    cols acc.

Section Where.

(** [str.lower] of the host language. *)
Variable str_lower : string → string.
Variable case_config : CaseConfig.

Definition general_cond (table_alias keyword field : string)
    : search_cond * value :=
  let is_case_insensitive := _is_field_case_insensitive case_config field in
  let '(search_pattern, op) :=
    _get_search_pattern_and_operator keyword field in
  match op with
  | LIKE =>
      if is_case_insensitive
      then (CastCmp true table_alias field LIKE,
            VStr ("%" +:+ str_lower keyword +:+ "%"))
      else (CastCmp false table_alias field LIKE, VStr search_pattern)
  | EQ => (CastCmp false table_alias field EQ, VStr search_pattern)
  end.

(** [_build_where_clause]; [available_fields] is what
    [self._get_available_fields()] returned, [using_parquet] and
    [structure] what the file checks returned. *)
Definition _build_where_clause (self : DuckDBProcessor)
    (using_parquet : bool) (structure : json_structure)
    (available_fields : list string)
    (keyword : option string) (search_field : string) : where_result :=
  if keyword_missing keyword then
    {| where_form_of := ConstTrue;
       where_dynamic_required := dynamic_required_fields self |}
  else
    let kw := default "" keyword in
    if Py.mem search_field exact_match_fields then
      let cleaned_keyword := clean_keyword kw in
      let conditions :=
        List.map (fun field => (StrippedEq field, VStr cleaned_keyword))
          (List.filter (fun f => Py.mem f available_fields)
             (business_aliases search_field)) in
      {| where_form_of :=
           match conditions with
           | [] => ConstFalse
           | _ :: _ => AnyOf conditions
           end;
         where_dynamic_required := dynamic_required_fields self |}
    else
      let table_alias :=
        if using_parquet then ""
        else if is_nested structure then "item." else "" in
      let existing_fields :=
        existing_search_fields search_field available_fields in
      let conditions :=
        List.map (general_cond table_alias kw) existing_fields in
      {| where_form_of :=
           match conditions with
           | [] => ConstTrue
           | _ :: _ => AnyOf conditions
           end;
         where_dynamic_required :=
           add_required (dynamic_required_fields self) existing_fields |}.

End Where.

(** ** Filter predicate *)

Record DateRange : Type := {
  dr_start : option value;
  dr_end : option value
}.

Record NumericRange : Type := {
  nr_field : option string;
  nr_min : option value;
  nr_max : option value
}.

(** The filter dictionary: a key that is absent is [None]. *)
Record Filters : Type := {
  date_range : option DateRange;
  certification_type : option (list string);
  company_type : option (list string);
  exclude_keywords : option (list string);
  numeric_range : option NumericRange
}.

Definition filters_empty (f : Filters) : bool :=
  match date_range f, certification_type f, company_type f,
        exclude_keywords f, numeric_range f with
  | None, None, None, None, None => true
  | _, _, _, _, _ => false
  end.

Definition date_columns : list string :=
  ["인증일자"; "인증변경일자"; "서명일자"; "인증만료일자"; "완료일"; "등록일자";
   "date"; "cert_date"].

Definition cert_columns : list string :=
  ["인증번호"; "certification_no"; "license_no"; "cert_no"; "registration_no"].

Definition importer_columns : list string :=
  ["수입자"; "importer"; "import_company"; "importerName"; "수입업체"].

Definition product_columns : list string :=
  ["제품명"; "product_name"; "prductNm"; "품목명"; "기자재명칭"].

Definition company_columns : list string :=
  ["업체명"; "company_name"; "entrprsNm"; "상호/법인명"; "사업자명"; "maker_name"].

(** A clause list with the parameters bound to its placeholders. *)
Definition clauses : Type := list string * list value.

Definition no_clauses : clauses := ([], []).

Definition add_clauses (a b : clauses) : clauses :=
  (fst a ++ fst b, snd a ++ snd b).

Definition when_some {A : Type} (o : option A) (f : A → clauses) : clauses :=
  match o with
  | Some a => f a
  | None => no_clauses
  end.

(** The first name of a priority list present in the schema, when it is
    a usable (non-empty) name. *)
Definition usable_column (candidates available_fields : list string)
    : option string :=
  match Py.first_in candidates available_fields with
  | Some col => if Py.truthy col then Some col else None
  | None => None
  end.

Section Filter.

Variable str_lower : string → string.

Definition date_range_clauses (table_alias : string)
    (available_fields : list string) (dr : DateRange) : clauses :=
  match usable_column date_columns available_fields with
  | Some col =>
      add_clauses
        (when_some (dr_start dr) (fun v =>
           (["CAST(" +:+ quoted table_alias col +:+ " AS DATE) >= ?"], [v])))
        (when_some (dr_end dr) (fun v =>
           (["CAST(" +:+ quoted table_alias col +:+ " AS DATE) <= ?"], [v])))
  | None => no_clauses
  end.

Definition certification_type_clauses (table_alias : string)
    (available_fields : list string) (cert_types : list string) : clauses :=
  match cert_types with
  | [] => no_clauses
  | _ :: _ =>
      match usable_column cert_columns available_fields with
      | Some col =>
          let placeholders :=
            Py.join "," (List.map (fun _ => "?") cert_types) in
          (["UPPER(CAST(" +:+ quoted table_alias col
              +:+ " AS VARCHAR)) RLIKE ANY(ARRAY[" +:+ placeholders +:+ "])"],
           List.map (fun t => VStr (".*" +:+ t +:+ ".*")) cert_types)
      | None => no_clauses
      end
  end.

Definition company_type_clauses (table_alias : string)
    (available_fields : list string) (company_types : list string)
    : clauses :=
  match usable_column importer_columns available_fields with
  | Some col =>
      let cast := "CAST(" +:+ quoted table_alias col +:+ " AS VARCHAR)" in
      let ct_conditions :=
        (if Py.mem "manufacturer" company_types
         then ["(" +:+ cast +:+ " IS NULL OR " +:+ cast +:+ " = '')"]
         else [])
        ++ (if Py.mem "importer" company_types
            then ["(" +:+ cast +:+ " IS NOT NULL AND " +:+ cast +:+ " != '')"]
            else []) in
      match ct_conditions with
      | [] => no_clauses
      | _ :: _ => (["(" +:+ Py.join " OR " ct_conditions +:+ ")"], [])
      end
  | None => no_clauses
  end.

Definition exclude_one (table_alias : string)
    (existing_product_column existing_company_column : option string)
    (keyword : string) : clauses :=
  let like col :=
    (["LOWER(CAST(" +:+ quoted table_alias col +:+ " AS VARCHAR)) LIKE ?"],
     [VStr ("%" +:+ str_lower keyword +:+ "%")]) in
  let exclude_conditions :=
    add_clauses (when_some existing_product_column like)
                (when_some existing_company_column like) in
  match fst exclude_conditions with
  | [] => ([], snd exclude_conditions)
  | conds => (["NOT (" +:+ Py.join " OR " conds +:+ ")"],
              snd exclude_conditions)
  end.

Definition exclude_keywords_clauses (table_alias : string)
    (available_fields : list string) (keywords : list string) : clauses :=
  let existing_product_column :=
    usable_column product_columns available_fields in
  let existing_company_column :=
    usable_column company_columns available_fields in
  fold_left
    (fun acc kw =>
       add_clauses acc
         (exclude_one table_alias existing_product_column
            existing_company_column kw))
    keywords no_clauses.

Definition numeric_range_clauses (table_alias : string)
    (nr : NumericRange) : clauses :=
  let field := default "price" (nr_field nr) in
  add_clauses
    (when_some (nr_min nr) (fun v =>
       (["TRY_CAST(" +:+ quoted table_alias field +:+ " AS DOUBLE) >= ?"],
        [v])))
    (when_some (nr_max nr) (fun v =>
       (["TRY_CAST(" +:+ quoted table_alias field +:+ " AS DOUBLE) <= ?"],
        [v]))).

Definition filter_clauses (table_alias : string)
    (available_fields : list string) (f : Filters) : clauses :=
  add_clauses
    (when_some (date_range f)
       (date_range_clauses table_alias available_fields))
    (add_clauses
       (when_some (certification_type f)
          (certification_type_clauses table_alias available_fields))
       (add_clauses
          (when_some (company_type f)
             (company_type_clauses table_alias available_fields))
          (add_clauses
             (when_some (exclude_keywords f)
                (exclude_keywords_clauses table_alias available_fields))
             (when_some (numeric_range f)
                (numeric_range_clauses table_alias))))).

(** [_build_filter_conditions] *)
Definition _build_filter_conditions (filters : option Filters)
    (table_alias : string) (available_fields : list string)
    : string * list value :=
  match filters with
  | None => ("1=1", [])
  | Some f =>
      if filters_empty f then ("1=1", [])
      else
        let '(conditions, parameters) :=
          filter_clauses table_alias available_fields f in
        match conditions with
        | [] => ("1=1", [])
        | _ :: _ => (Py.join " AND " conditions, parameters)
        end
  end.

End Filter.

(** ** Projection *)

Definition sort_column_candidates : list string :=
  ["cert_date"; "crawl_date"; "crawled_at"; "설립일"].

(** De-duplication that keeps the first occurrence and drops empty
    names. *)
Fixpoint dedup_keep_order (cols seen : list string) : list string :=
  match cols with
  | [] => []
  | col :: cols' =>
      if Py.truthy col && negb (Py.mem col seen)
      then col :: dedup_keep_order cols' (seen ++ [col])
      else dedup_keep_order cols' seen
  end.

(** The columns [_get_essential_columns] wants before it intersects them
    with the schema. [search_columns] and [display_columns] are the field
    names read from field_settings.json for the processor's dataset. *)
Definition essential_candidates (self : DuckDBProcessor)
    (search_columns display_columns available_fields : list string)
    : list string :=
  let sort_columns :=
    match Py.first_in sort_column_candidates available_fields with
    | Some c => [c]
    | None => []
    end in
  let all_columns :=
    search_columns ++ display_columns ++ sort_columns ++ required_fields self in
  dedup_keep_order all_columns []
    ++ List.filter (fun col => Py.truthy col && negb (Py.mem col all_columns))
         (dynamic_required_fields self).

(** [not self.category or not self.subcategory] *)
Definition option_missing (o : option string) : bool :=
  match o with
  | None => true
  | Some s => negb (Py.truthy s)
  end.

(** [_get_essential_columns]; [available_fields] is what
    [self._get_available_fields()] returned. *)
Definition _get_essential_columns (self : DuckDBProcessor)
    (search_columns display_columns available_fields : list string)
    : string :=
  if option_missing (category self) || option_missing (subcategory self)
  then "*"
  else
    match available_fields with
    | [] => "*"
    | _ :: _ =>
        let essential_cols :=
          essential_candidates self search_columns display_columns
            available_fields in
        let existing_cols :=
          List.filter (fun col => Py.mem col available_fields) essential_cols in
        match existing_cols with
        | [] => "*"
        | _ :: _ =>
            Py.join ", " (List.map (fun col => quoted "" col) existing_cols)
        end
    end.

(** ** ORDER BY *)

Definition _build_date_order_expression (field_name table_alias : string)
    : string :=
  let column_expr := quoted table_alias field_name in
  let trimmed_expr := "TRIM(" +:+ column_expr +:+ ")" in
  "CASE "
    +:+ "WHEN " +:+ column_expr +:+ " IS NULL OR " +:+ trimmed_expr
    +:+ " = '' THEN NULL "
    +:+ "WHEN LENGTH(" +:+ trimmed_expr +:+ ") = 8 THEN TRY_STRPTIME("
    +:+ column_expr +:+ ", '%Y%m%d') "
    +:+ "WHEN LENGTH(" +:+ trimmed_expr +:+ ") = 14 THEN TRY_STRPTIME("
    +:+ column_expr +:+ ", '%Y%m%d%H%M%S') "
    +:+ "ELSE TRY_CAST(" +:+ column_expr +:+ " AS DATE) "
    +:+ "END".

Definition nested_sort_candidates : list string :=
  ["productName"; "제품명"; "업체명"; "모델명"].

Definition date_candidates : list string :=
  ["완료일"; "인증일자"; "인증변경일자"; "서명일자"; "인증만료일자";
   "완료일자"; "발급일"; "만료일"; "설립일";
   "cert_date"; "sign_date"; "cert_chg_date";
   "registration_date"; "approval_date"; "declaration_date"; "recall_date";
   "등록일"; "승인일"; "신고일"; "리콜일"; "생성일"; "수정일"]
  ++ ["신고증명서 발급일"; "시험성적서 만료일"; "유통기한"].

Definition product_candidates : list string :=
  ["품목"; "제품명"; "product_name"; "업체명"; "company_name"; "상호";
   "기자재명칭"; "모델명"; "model_name"].

Record order_choice : Type := {
  select_clause : string;
  order_by : option string;
  order_dynamic_required : list string
}.

(** The select clause and ORDER BY chosen in [_execute_query];
    [essential_cols] is what [self._get_essential_columns()] returned. *)
Definition choose_order (self : DuckDBProcessor) (using_parquet : bool)
    (structure : json_structure) (essential_cols : string)
    (available_fields : list string) : order_choice :=
  if using_parquet then
    {| select_clause := essential_cols; order_by := None;
       order_dynamic_required := dynamic_required_fields self |}
  else if is_nested structure then
    {| select_clause := "item";
       order_by :=
         Some match usable_column nested_sort_candidates available_fields with
              | Some order_field => quoted "item." order_field
              | None => "item"
              end;
       order_dynamic_required := dynamic_required_fields self |}
  else
    let date_field := usable_column date_candidates available_fields in
    let product_field := usable_column product_candidates available_fields in
    let order_parts :=
      match date_field with
      | Some d => [_build_date_order_expression d "" +:+ " DESC NULLS LAST"]
      | None => []
      end
      ++ match product_field with
         | Some p => [quoted "" p +:+ " ASC"]
         | None => []
         end in
    match order_parts with
    | _ :: _ =>
        {| select_clause := "*";
           order_by := Some (Py.join ", " order_parts);
           order_dynamic_required :=
             add_required (dynamic_required_fields self)
               (option_list date_field ++ option_list product_field) |}
    | [] =>
        let first_field :=
          match available_fields with
          | f :: _ => f
          | [] => "1"
          end in
        {| select_clause := "*";
           order_by :=
             Some (if String.eqb first_field "1" then "1"
                   else quoted "" first_field);
           order_dynamic_required := dynamic_required_fields self |}
    end.

(** ** Query text *)

Definition newline : string := String (ascii_of_nat 10) "".

(** The indentation the query template carries on every line. *)
Definition indent : string := "                        ".

Definition line (text : string) : string := newline +:+ indent +:+ text.

Definition limit_clause_of (effective_limit : option Z) : string :=
  match effective_limit with
  | None => ""
  | Some l => "LIMIT " +:+ pretty l
  end.

Definition order_clause_of (order_by : option string) : string :=
  match order_by with
  | Some o => if Py.truthy o then "ORDER BY " +:+ o else ""
  | None => ""
  end.

(** [filtered_query], with or without its WHERE line. *)
Definition assemble_query (select_clause base_query : string)
    (combined_conditions : list string) (order_by : option string)
    (effective_limit : option Z) (offset : Z) : string :=
  line ("SELECT " +:+ select_clause +:+ ", COUNT(*) OVER() as total_count")
    +:+ line ("FROM (" +:+ base_query +:+ ")")
    +:+ match combined_conditions with
        | [] => ""
        | _ :: _ => line ("WHERE " +:+ Py.join " AND " combined_conditions)
        end
    +:+ line (order_clause_of order_by)
    +:+ line (limit_clause_of effective_limit +:+ " OFFSET " +:+ pretty offset)
    +:+ line "".

(** The WHERE parts kept: a clause equal to [1=1] is dropped together
    with its parameters. *)
Definition combine_conditions (where_clause : string)
    (where_parameters : list value) (filter_clause : string)
    (filter_parameters : list value) : list string * list value :=
  let w :=
    if String.eqb where_clause "1=1" then ([], [])
    else (["(" +:+ where_clause +:+ ")"], where_parameters) in
  let f :=
    if String.eqb filter_clause "1=1" then ([], [])
    else (["(" +:+ filter_clause +:+ ")"], filter_parameters) in
  match fst w ++ fst f with
  | [] => ([], [])
  | conds => (conds, snd w ++ snd f)
  end.

(** ** search_streaming *)

Record page_result : Type := {
  page_results : list record;
  page_pagination : Pagination;
  processed_records : Z;
  sink_calls : list (list record * Z);
  query_text : string;
  query_parameters : list value
}.

Inductive search_response : Type :=
| Raised (e : error)
| ErrorResult (kind message : string)
| Page (r : page_result).

Definition error_message (e : error) : string :=
  match e with
  | FileNotFoundError msg => msg
  | OSError => "OSError"
  | TypeError msg => msg
  | EngineError msg => msg
  end.

Definition with_dynamic_required (self : DuckDBProcessor)
    (fields : list string) : DuckDBProcessor :=
  {| file_path_str := file_path_str self; is_url := is_url self;
     file_path := file_path self; category := category self;
     subcategory := subcategory self; result_type := result_type self;
     required_fields := required_fields self;
     dynamic_required_fields := fields |}.

(** What the file checks and the configuration report for the dataset
    behind a processor. *)
Record source : Type := {
  using_parquet : bool;
  structure : json_structure;
  available_fields : list string;
  search_columns : list string;
  display_columns : list string;
  base_query : error + string
}.

Section Search.

Variable str_lower : string → string.
Variable case_config : CaseConfig.
Variable type_repr : value → string.
Variable value_str : value → string.

(** [conn.execute(query, parameters)]: the column names and the rows of
    the result, or the engine's exception. *)
Variable engine_execute :
  string → list value → error + (list string * list (list value)).

(** Whether the [n]-th [fetchmany] on the result raises. *)
Variable fetch_raises : nat → bool.

(** [f'{file_size_mb:.1f}'] *)
Variable size_text : Q → string.

(** The [except] branch of [_execute_query]. *)
Definition failure (file_size_mb : Q) (e : error) : search_response :=
  let msg := error_message e in
  if Py.contains "maximum_object_size" msg
     || (Qle_bool 500 file_size_mb && negb (Qeq_bool 500 file_size_mb)
         && Py.contains "Could not read" msg)
  then
    ErrorResult "large_file_processing_failed"
      ("대용량 파일 (" +:+ size_text file_size_mb
       +:+ "MB) 처리 실패. GitHub Releases 외부 저장 또는 파일 분할 필요")
  else ErrorResult "query_execution_failed" msg.

(** The query [_execute_query] compiles before it runs it. *)
Record compiled_query : Type := {
  filtered_query : string;
  combined_parameters : list value;
  compiled_order_by : option string;
  compiled_self : DuckDBProcessor
}.

Definition compile_query (self : DuckDBProcessor) (src : source)
    (base : string) (keyword : option string) (search_field : string)
    (limit : option Z) (page : Z) (filters : option Filters)
    : compiled_query :=
  let effective_limit := effective_limit_of limit in
  let offset := offset_of page effective_limit in
  let w := _build_where_clause str_lower case_config self
             (using_parquet src) (structure src) (available_fields src)
             keyword search_field in
  let filter :=
    _build_filter_conditions str_lower filters "" (available_fields src) in
  let self1 := with_dynamic_required self (where_dynamic_required w) in
  let essential_cols :=
    _get_essential_columns self1 (search_columns src)
      (display_columns src) (available_fields src) in
  let choice :=
    choose_order self1 (using_parquet src) (structure src)
      essential_cols (available_fields src) in
  let combined :=
    combine_conditions (where_clause w) (where_parameters w)
      (fst filter) (snd filter) in
  {| filtered_query :=
       assemble_query (select_clause choice) base (fst combined)
         (order_by choice) effective_limit offset;
     combined_parameters := snd combined;
     compiled_order_by := order_by choice;
     compiled_self :=
       with_dynamic_required self1 (order_dynamic_required choice) |}.

(** The batch loop of [_execute_query] over the rows of a result,
    inside its [try]: the fetch loop followed, when no exception left
    it, by the hand-over of what is still in the buffer. *)
Definition run_rows (sink_raises : callback) (src : source)
    (streaming_mode : bool) (effective_limit : option Z) (chunk_size : nat)
    (description : list string) (rows : list (list value)) : loop_state :=
  let batch_fetch_size := if streaming_mode then chunk_size else 1000%nat in
  let row_structure := if using_parquet src then parquet else structure src in
  let st :=
    fetch_loop type_repr value_str sink_raises fetch_raises
      (S (length rows)) (using_parquet src) row_structure description
      streaming_mode effective_limit batch_fetch_size 0 rows loop_init in
  if batch_error st then st
  else flush sink_raises streaming_mode st.

(** [chunk_callback is not None] *)
Definition callback_given (chunk_callback : option callback) : bool :=
  match chunk_callback with
  | Some _ => true
  | None => false
  end.

(** [_execute_query], the body of [search_streaming]. *)
Definition search_streaming (fs : filesystem) (self : DuckDBProcessor)
    (src : source) (keyword : option string) (search_field : string)
    (limit : option Z) (page : Z) (filters : option Filters)
    (collect_results : bool) (chunk_callback : option callback)
    (chunk_size : nat) : search_response :=
  let effective_limit := effective_limit_of limit in
  let streaming_mode := negb collect_results && callback_given chunk_callback in
  match _get_file_size_mb fs self with
  | inl e => Raised e
  | inr file_size_mb =>
      match base_query src with
      | inl e => failure file_size_mb e
      | inr base =>
          let q := compile_query self src base keyword search_field
                     limit page filters in
          match engine_execute (filtered_query q) (combined_parameters q) with
          | inl e => failure file_size_mb e
          | inr (description, rows) =>
              let st := run_rows (default quiet chunk_callback) src
                          streaming_mode effective_limit chunk_size
                          description rows in
              let total_count :=
                final_total_count (results st) (total_count_window st)
                  (total_processed st) in
              match pagination_of total_count page effective_limit with
              | inl e => failure file_size_mb e
              | inr pagination =>
                  Page {| page_results :=
                            if streaming_mode then [] else results st;
                          page_pagination := pagination;
                          processed_records := total_processed st;
                          sink_calls := sink st;
                          query_text := filtered_query q;
                          query_parameters := combined_parameters q |}
              end
          end
      end
  end.

End Search.

(** ** Schema cache *)

(** The module-level caches, and the number of times the discovery block
    of [_get_available_fields] has run (each run opens a fresh connection
    to inspect the file). *)
Record schema_state : Type := {
  SCHEMA_CACHE_BY_URL : gmap string (list string);
  SCHEMA_CACHE_BY_FILENAME : gmap string (list string);
  introspections : nat
}.

Definition dynamic_targets : list string :=
  ["3_efficiency_flattened.parquet";
   "3_efficiency_flattened_success.parquet";
   "3_efficiency_flattened_failed.parquet";
   "4_high_efficiency_flattened.parquet";
   "4_high_efficiency_flattened_success.parquet";
   "4_high_efficiency_flattened_failed.parquet";
   "5_standby_power_flattened.parquet";
   "5_standby_power_flattened_success.parquet";
   "5_standby_power_flattened_failed.parquet"].

Definition dynamic_url_patterns : list string :=
  List.map (fun t => "/" +:+ t) dynamic_targets.

Definition name_truthy (file_name : option string) : bool :=
  match file_name with
  | Some n => Py.truthy n
  | None => false
  end.

Definition _should_use_dynamic_schema (cache_key : string)
    (file_name : option string) : bool :=
  match file_name with
  | Some n => Py.truthy n && Py.mem n dynamic_targets
  | None => false
  end
  || existsb (fun pattern => Py.contains pattern cache_key)
       dynamic_url_patterns.

Definition dataset_patterns : list (string * list string) :=
  [("safetykorea", ["safetykorea"; "safety_korea"]);
   ("wadiz", ["wadiz"; "makers"]);
   ("efficiency", ["efficiency"; "energy"]);
   ("high_efficiency", ["high_efficiency"; "high-efficiency"]);
   ("standby_power", ["standby_power"; "standby-power"]);
   ("approval", ["approval"; "approve"]);
   ("declare", ["declare"; "declaration"]);
   ("kwtc", ["kwtc"]);
   ("recall", ["recall"]);
   ("safetykoreachild", ["safetykoreachild"; "safety_korea_child"; "child"]);
   ("rra_cert", ["rra_cert"; "rra-cert"]);
   ("rra_self_cert", ["rra_self_cert"; "rra-self-cert"]);
   ("safetykoreahome", ["safetykoreahome"; "safety_korea_home"; "home"])].

Definition base_schema_names : list (string * string) :=
  [("wadiz", "2_wadiz_flattened.parquet");
   ("safetykorea", "1_safetykorea_flattened.parquet");
   ("efficiency", "3_efficiency_flattened.parquet");
   ("high_efficiency", "4_high_efficiency_flattened.parquet");
   ("standby_power", "5_standby_power_flattened.parquet");
   ("approval", "6_approval_flattened.parquet");
   ("declare", "7_declare_flattened.parquet");
   ("kwtc", "8_kwtc_flattened.parquet");
   ("recall", "9_recall_flattened.parquet");
   ("safetykoreachild", "10_safetykoreachild_flattened.parquet");
   ("rra_cert", "11_rra_cert_flattened.parquet");
   ("rra_self_cert", "12_rra_self_cert_flattened.parquet");
   ("safetykoreahome", "13_safetykoreahome_flattened.parquet")].

Definition default_json_fields : list string :=
  ["id"; "name"; "company"; "date"].

Definition is_tabular_name (path : string) : bool :=
  Py.endswith path ".parquet" || Py.endswith path ".duckdb".

Section Schema.

Variable str_lower : string → string.

(** [urlparse(u).path] and [Path(p).name] of the host language. *)
Variable url_path : string → string.
Variable path_name : string → string.

(** [_extract_file_name]: the bare file name of a URL or path. *)
Definition _extract_file_name (path_like : string) : option string :=
  if negb (Py.truthy path_like) then None
  else if locator_is_url path_like then
    let parsed_path := url_path path_like in
    if Py.truthy parsed_path then Some (path_name parsed_path) else None
  else Some (path_name path_like).

(** Outcome of the engine's schema query at the [n]-th run of the
    discovery block for a locator: the column names, or [None] when
    anything in the block raises. *)
Variable engine_schema : nat → string → option (list string).

(** Whether [_resolve_tabular_path] finds a tabular form of a local
    file, and what [_detect_json_structure] answers for it. *)
Variable resolves_tabular : DuckDBProcessor → bool.
Variable detected_structure : DuckDBProcessor → json_structure.

Definition cache_key_of (self : DuckDBProcessor) : string :=
  if is_url self then file_path_str self else file_path self.

(** [_cache_schema] *)
Definition _cache_schema (self : DuckDBProcessor) (columns : list string)
    (st : schema_state) : schema_state :=
  let cache_key := cache_key_of self in
  let file_name := _extract_file_name cache_key in
  if _should_use_dynamic_schema cache_key file_name then st
  else
    {| SCHEMA_CACHE_BY_URL :=
         if Py.truthy cache_key
         then <[cache_key := columns]> (SCHEMA_CACHE_BY_URL st)
         else SCHEMA_CACHE_BY_URL st;
       SCHEMA_CACHE_BY_FILENAME :=
         match file_name with
         | Some n =>
             if Py.truthy n
             then <[n := columns]> (SCHEMA_CACHE_BY_FILENAME st)
             else SCHEMA_CACHE_BY_FILENAME st
         | None => SCHEMA_CACHE_BY_FILENAME st
         end;
       introspections := introspections st |}.

Definition matched_dataset_of (file_name_lower : string) : option string :=
  option_map fst
    (List.find
       (fun entry =>
          existsb (fun pattern => Py.contains pattern file_name_lower)
            (snd entry))
       dataset_patterns).

Definition target_r2_patterns (matched_dataset file_name_lower : string)
    : list string :=
  let is_enhanced :=
    Py.contains "enhanced" file_name_lower
    || Py.contains "success" file_name_lower
    || Py.contains "failed" file_name_lower in
  let is_success := Py.contains "success" file_name_lower in
  (if is_enhanced then
     [if is_success
      then matched_dataset +:+ "_flattened_success.parquet"
      else matched_dataset +:+ "_flattened_failed.parquet"]
   else [])
  ++ option_list (assoc_get matched_dataset base_schema_names).

(** [_try_duckdb_blob_schema_mapping] *)
Definition _try_duckdb_blob_schema_mapping (cache_key : string)
    (file_name : option string) (st : schema_state)
    : option (list string) * schema_state :=
  match file_name with
  | None => (None, st)
  | Some name =>
      if negb (Py.truthy cache_key) || negb (Py.truthy name) then (None, st)
      else
        let is_duckdb_blob :=
          Py.endswith cache_key ".duckdb"
          && (Py.contains "blob.vercel-storage.com" cache_key
              || Py.contains "blob" (str_lower cache_key)) in
        if negb is_duckdb_blob then (None, st)
        else
          let file_name_lower := str_lower name in
          match matched_dataset_of file_name_lower with
          | None => (None, st)
          | Some matched_dataset =>
              match
                List.find
                  (fun target =>
                     bool_decide
                       (is_Some (SCHEMA_CACHE_BY_FILENAME st !! target)))
                  (target_r2_patterns matched_dataset file_name_lower)
              with
              | None => (None, st)
              | Some target =>
                  let schema :=
                    default [] (SCHEMA_CACHE_BY_FILENAME st !! target) in
                  (Some schema,
                   {| SCHEMA_CACHE_BY_URL :=
                        <[cache_key := schema]> (SCHEMA_CACHE_BY_URL st);
                      SCHEMA_CACHE_BY_FILENAME :=
                        match SCHEMA_CACHE_BY_FILENAME st !! name with
                        | Some _ => SCHEMA_CACHE_BY_FILENAME st
                        | None =>
                            <[name := schema]> (SCHEMA_CACHE_BY_FILENAME st)
                        end;
                      introspections := introspections st |})
              end
          end
  end.

(** The cache lookups of [_get_available_fields] for a locator that is
    not a dynamic-schema target. *)
Definition cached_schema (cache_key : string) (file_name : option string)
    (st : schema_state) : option (list string) * schema_state :=
  match SCHEMA_CACHE_BY_URL st !! cache_key with
  | Some cols => (Some cols, st)
  | None =>
      match
        (if name_truthy file_name
         then file_name ≫= λ n, SCHEMA_CACHE_BY_FILENAME st !! n
         else None)
      with
      | Some cols => (Some cols, st)
      | None => _try_duckdb_blob_schema_mapping cache_key file_name st
      end
  end.

Definition count_introspection (st : schema_state) : schema_state :=
  {| SCHEMA_CACHE_BY_URL := SCHEMA_CACHE_BY_URL st;
     SCHEMA_CACHE_BY_FILENAME := SCHEMA_CACHE_BY_FILENAME st;
     introspections := S (introspections st) |}.

(** Whether the discovery block of a processor calls
    [_get_available_fields] again: for a local file without a tabular
    form it builds its query with [_build_base_query], which for flat
    JSON asks [_get_essential_columns] for the projection, which for a
    processor with a category and a subcategory asks for the available
    fields. *)
Definition discovery_reenters (self : DuckDBProcessor) : bool :=
  negb (is_url self) && negb (resolves_tabular self)
  && negb (is_nested (detected_structure self))
  && negb (option_missing (category self) || option_missing (subcategory self)).

(** The discovery block: a fresh connection, the nested call when there
    is one ([reenter], what it does to the caches), the schema query,
    the cache write; an exception anywhere yields the empty list. *)
Definition discover_schema (reenter : schema_state → schema_state)
    (self : DuckDBProcessor) (st : schema_state)
    : list string * schema_state :=
  let n := introspections st in
  let st1 := count_introspection st in
  if is_url self && negb (is_tabular_name (file_path_str self)) then
    (default_json_fields, _cache_schema self default_json_fields st1)
  else
    let st2 := if discovery_reenters self then reenter st1 else st1 in
    match engine_schema n (cache_key_of self) with
    | Some columns => (columns, _cache_schema self columns st2)
    | None => ([], st2)
    end.

(** The body of [_get_available_fields]. *)
Definition lookup_or_discover (reenter : schema_state → schema_state)
    (self : DuckDBProcessor) (st : schema_state)
    : list string * schema_state :=
  let cache_key := cache_key_of self in
  let file_name := _extract_file_name cache_key in
  let is_dynamic_schema_target :=
    _should_use_dynamic_schema cache_key file_name in
  if is_dynamic_schema_target then discover_schema reenter self st
  else
    match cached_schema cache_key file_name st with
    | (Some cached_fields, st') => (cached_fields, st')
    | (None, st') => discover_schema reenter self st'
    end.

(** [_get_available_fields]. [frames] is the number of nested calls the
    interpreter's recursion limit leaves room for: past it the nested
    call ends in a [RecursionError], which [_get_essential_columns]
    swallows, and the caches are as they were. *)
Fixpoint _get_available_fields (frames : nat) (self : DuckDBProcessor)
    (st : schema_state) : list string * schema_state :=
  lookup_or_discover
    (match frames with
     | O => fun st' => st'
     | S frames' => fun st' => snd (_get_available_fields frames' self st')
     end)
    self st.

End Schema.

(** ** Meaning of a search predicate on a row *)

Section Matching.

(** The engine's [LOWER] and [LIKE]. *)
Variable sql_lower : string → string.
Variable sql_like : string → string → bool.

(** A row as the predicate sees it: the text [CAST(col AS VARCHAR)]
    yields for each column, [None] for SQL NULL. *)
Definition row := string → option string.

(** [REPLACE(REPLACE(v, '-', ''), ' ', '')] *)
Definition sql_strip (v : string) : string :=
  Py.remove_char " " (Py.remove_char "-" v).

Definition param_text (p : value) : option string :=
  match p with
  | VStr s => Some s
  | _ => None
  end.

(** Whether a condition holds on a row once its parameter is bound; a
    comparison with NULL does not hold. *)
Definition cond_holds (r : row) (c : search_cond) (p : value) : bool :=
  match param_text p, r (cond_field c) with
  | Some pattern, Some v =>
      match c with
      | StrippedEq _ => String.eqb (sql_strip v) pattern
      | CastCmp lowered _ _ op =>
          let subject := if lowered then sql_lower v else v in
          match op with
          | EQ => String.eqb subject pattern
          | LIKE => sql_like subject pattern
          end
      end
  | _, _ => false
  end.

Definition where_holds (r : row) (f : where_form) : bool :=
  match f with
  | ConstTrue => true
  | ConstFalse => false
  | AnyOf conditions =>
      existsb (fun c => cond_holds r (fst c) (snd c)) conditions
  end.



End Matching.

(** ** Vocabulary of the statements *)

(** [c] is the first name of [candidates] that the schema has. *)
Definition first_available (candidates available : list string) (c : string)
    : Prop :=
  ∃ before after,
    candidates = before ++ c :: after
    ∧ c ∈ available
    ∧ ∀ x, x ∈ before → x ∉ available.

Definition none_available (candidates available : list string) : Prop :=
  ∀ x, x ∈ candidates → x ∉ available.

(** [k] is the ceiling of [n / d]. *)
Definition is_ceiling (n d k : Z) : Prop :=
  d * (k - 1) < n ∧ n <= d * k.

Definition missing_everywhere : filesystem := fun _ => None.

Definition local_processor (path : string) : DuckDBProcessor :=
  {| file_path_str := path; is_url := false; file_path := path;
     category := None; subcategory := None; result_type := None;
     required_fields := []; dynamic_required_fields := [] |}.

(** The columns a compiled search predicate ranges over. *)
Definition search_columns_of (str_lower : string → string)
    (case_config : CaseConfig) (self : DuckDBProcessor)
    (using_parquet : bool) (structure : json_structure)
    (available : list string) (keyword search_field : string)
    : list string :=
  where_form_columns
    (where_form_of
       (_build_where_clause str_lower case_config self using_parquet
          structure available (Some keyword) search_field)).

Definition remote_processor (url : string) : DuckDBProcessor :=
  {| file_path_str := url; is_url := true; file_path := url;
     category := None; subcategory := None; result_type := None;
     required_fields := []; dynamic_required_fields := [] |}.

Definition one_table_source : source :=
  {| using_parquet := true; structure := parquet;
     available_fields := ["company_name"; "cert_date"];
     search_columns := []; display_columns := [];
     base_query :=
       inr "SELECT * FROM read_parquet('https://host/data.parquet')" |}.

(** An engine whose every query returns the two rows of a small table,
    each carrying the windowed count. *)
Definition two_row_engine (query : string) (parameters : list value)
    : error + (list string * list (list value)) :=
  inr (["company_name"; "cert_date"; "total_count"],
       [[VStr "Acme"; VStr "20240101"; VInt 2];
        [VStr "Acme Labs"; VStr "20230101"; VInt 2]]).

(** A result whose every [fetchmany] goes through. *)
Definition fetch_ok : nat → bool := fun _ => false.

(** The size of a remote locator, to one decimal. *)
Definition remote_size_text : Q → string := fun _ => "100.0".

Definition export_run (collect_results : bool) : search_response :=
  search_streaming Py.lower fallback_case_config
    (fun _ => EmptyString) (fun _ => EmptyString) two_row_engine
    fetch_ok remote_size_text
    missing_everywhere (remote_processor "https://host/data.parquet")
    one_table_source (Some "Acme") "company_name" None 1 None
    collect_results (Some quiet) 1000.

(** The search of the two-row table, as the export runs it. *)
Definition export_search (chunk_callback : callback) : search_response :=
  search_streaming Py.lower fallback_case_config
    (fun _ => EmptyString) (fun _ => EmptyString) two_row_engine
    fetch_ok remote_size_text
    missing_everywhere (remote_processor "https://host/data.parquet")
    one_table_source (Some "Acme") "company_name" None 1 None
    false (Some chunk_callback) 1000.

(** A sheet that takes every row, and one that refuses the rows that
    name Acme Labs. *)
Definition sheet_accepts : list (list value) → list value → bool :=
  fun _ _ => false.

Definition sheet_refuses_labs : list (list value) → list value → bool :=
  fun _ row =>
    match row with
    | VStr "Acme Labs" :: _ => true
    | _ => false
    end.

Definition empty_schema_state : schema_state :=
  {| SCHEMA_CACHE_BY_URL := ∅; SCHEMA_CACHE_BY_FILENAME := ∅;
     introspections := 0 |}.

(** The discovery block run on [st] yields the columns [cols]: the fixed
    list for a URL that is not tabular, the engine's answer otherwise. *)
Definition introspection_yields
    (engine_schema : nat → string → option (list string))
    (self : DuckDBProcessor) (st : schema_state) (cols : list string)
    : Prop :=
  if is_url self && negb (is_tabular_name (file_path_str self))
  then cols = default_json_fields
  else engine_schema (introspections st) (cache_key_of self) = Some cols.

Definition option_rel {A : Type} (R : A → A → Prop) (a b : option A) : Prop :=
  match a, b with
  | Some x, Some y => R x y
  | None, None => True
  | _, _ => False
  end.

Definition same_presence {A : Type} (a b : option A) : Prop :=
  option_rel (fun _ _ => True) a b.

Definition same_length {A : Type} (a b : list A) : Prop :=
  length a = length b.

Definition date_range_alike (a b : DateRange) : Prop :=
  same_presence (dr_start a) (dr_start b)
  ∧ same_presence (dr_end a) (dr_end b).

Definition numeric_range_alike (a b : NumericRange) : Prop :=
  default "price" (nr_field a) = default "price" (nr_field b)
  ∧ same_presence (nr_min a) (nr_min b)
  ∧ same_presence (nr_max a) (nr_max b).

Definition company_type_alike (a b : list string) : Prop :=
  Py.mem "manufacturer" a = Py.mem "manufacturer" b
  ∧ Py.mem "importer" a = Py.mem "importer" b.

(** Two filter dictionaries of the same shape: the same keys, lists of
    the same length, the same company-type flags and the same numeric
    column; every bound value may differ. *)
Definition same_shape (f g : Filters) : Prop :=
  option_rel date_range_alike (date_range f) (date_range g)
  ∧ option_rel same_length (certification_type f) (certification_type g)
  ∧ option_rel company_type_alike (company_type f) (company_type g)
  ∧ option_rel same_length (exclude_keywords f) (exclude_keywords g)
  ∧ option_rel numeric_range_alike (numeric_range f) (numeric_range g).

(** Clause lists with the same text and as many parameters. *)
Definition clauses_alike (a b : clauses) : Prop :=
  fst a = fst b ∧ length (snd a) = length (snd b).

Definition only_company_type (choice : string) : option Filters :=
  Some {| date_range := None; certification_type := None;
          company_type := Some [choice]; exclude_keywords := None;
          numeric_range := None |}.

Definition dated_filters (start : string) (unwanted : string)
    : option Filters :=
  Some {| date_range :=
            Some {| dr_start := Some (VStr start); dr_end := None |};
          certification_type := None; company_type := None;
          exclude_keywords := Some [unwanted]; numeric_range := None |}.

Definition dated_source : source :=
  {| using_parquet := true; structure := parquet;
     available_fields := ["업체명"; "제품명"; "cert_date"];
     search_columns := []; display_columns := [];
     base_query :=
       inr "SELECT * FROM read_parquet('https://host/data.parquet')" |}.

(** *** The values a compilation is expected to bind

    What the parameter list of a compiled query should hold, read off
    the keyword and the filter dictionary: one pattern per searched
    column, then the filter values in the order of their predicates. *)

(** The pattern a keyword is searched as in one column: the keyword as
    typed for a certification-number column, the keyword between
    wildcards otherwise, lowered for a case-insensitive column. *)
Definition keyword_pattern (str_lower : string → string)
    (case_config : CaseConfig) (keyword column : string) : string :=
  if Py.mem column cert_number_fields then keyword
  else if _is_field_case_insensitive case_config column
       then "%" +:+ str_lower keyword +:+ "%"
       else "%" +:+ keyword +:+ "%".

Definition keyword_bindings (str_lower : string → string)
    (case_config : CaseConfig) (available : list string)
    (keyword search_field : string) : list value :=
  if Py.mem search_field exact_match_fields then
    List.map (fun _ => VStr (clean_keyword keyword))
      (List.filter (fun f => Py.mem f available)
         (business_aliases search_field))
  else
    List.map (fun column => VStr (keyword_pattern str_lower case_config
                                    keyword column))
      (existing_search_fields search_field available).

(** The values of the choice when the schema has a column of the
    priority list, nothing otherwise. *)
Definition when_column (candidates available : list string)
    (values : list value) : list value :=
  match usable_column candidates available with
  | Some _ => values
  | None => []
  end.

Definition filter_bindings (str_lower : string → string)
    (available : list string) (filters : option Filters) : list value :=
  match filters with
  | None => []
  | Some f =>
      from_option
        (fun dr =>
           when_column date_columns available
             (option_list (dr_start dr) ++ option_list (dr_end dr)))
        [] (date_range f)
      ++ from_option
           (fun types =>
              when_column cert_columns available
                (List.map (fun t => VStr (".*" +:+ t +:+ ".*")) types))
           [] (certification_type f)
      ++ from_option
           (fun keywords =>
              concat
                (List.map
                   (fun kw =>
                      List.map
                        (fun _ => VStr ("%" +:+ str_lower kw +:+ "%"))
                        (option_list (usable_column product_columns available)
                         ++ option_list
                              (usable_column company_columns available)))
                   keywords))
           [] (exclude_keywords f)
      ++ from_option
           (fun nr => option_list (nr_min nr) ++ option_list (nr_max nr))
           [] (numeric_range f)
  end.

(** A record without its windowed count. *)
Definition strip_count (rec : record) : record :=
  match dict_get "total_count" rec with
  | Some _ => dict_del "total_count" rec
  | None => rec
  end.

(** The records a run without limit keeps, in row order. *)
Definition accepted_records (type_repr value_str : value → string)
    (using_parquet : bool) (structure : json_structure)
    (description : list string) (rows : list (list value)) : list record :=
  omap
    (fun row =>
       match row_record type_repr value_str using_parquet structure
               description row with
       | Some (kv :: rec) => Some (strip_count (kv :: rec))
       | _ => None
       end)
    rows.

(** The records of the chunks the sink was called with so far. *)
Definition handed (st : loop_state) : list record :=
  concat (List.map fst (sink st)).


(** ** Vocabulary of the further statements *)

(** The number of records handed over by a list of sink calls. *)
Definition total_handed (calls : list (list record * Z)) : Z :=
  fold_right (fun call acc => Z.of_nat (length (fst call)) + acc) 0 calls.

(** Every sink call carries the running count: the count before it plus
    the size of its chunk. *)
Fixpoint running_counts (start : Z) (calls : list (list record * Z)) : Prop :=
  match calls with
  | [] => True
  | (chunk, count) :: rest =>
      count = start + Z.of_nat (length chunk) ∧ running_counts count rest
  end.

(** A chunk as the sink may receive it: not empty, at most [size]
    records. *)
Definition chunk_within (size : nat) (call : list record * Z) : Prop :=
  fst call ≠ [] ∧ (length (fst call) <= size)%nat.

(** In collect mode the processed count is the number of results. *)
Definition collect_inv (st : loop_state) : Prop :=
  total_processed st = Z.of_nat (length (results st))
  ∧ chunk_buffer st = [] ∧ sink st = [].

(** What the loop keeps true in streaming mode: the calls made so far
    carry running counts, every chunk is within the chunk size, and the
    processed count is what was handed over plus what waits in the
    buffer; after a call that raised, the buffer still holds the chunk
    of that call and nothing else. *)
Definition streaming_inv (size : nat) (st : loop_state) : Prop :=
  running_counts 0 (sink st)
  ∧ Forall (chunk_within size) (sink st)
  ∧ total_processed st
    = total_handed (sink st)
      + Z.of_nat (length (if batch_error st then [] else chunk_buffer st)).

(** [LIMIT l OFFSET o] applied by the engine to the ordered rows that
    match a query. *)
Definition sql_window {A : Type} (rows : list A) (effective_limit : option Z)
    (offset : Z) : list A :=
  let rest := drop (Z.to_nat offset) rows in
  match effective_limit with
  | Some l => take (Z.to_nat l) rest
  | None => rest
  end.

(** The rows the compiled query of one page selects. *)
Definition page_window {A : Type} (rows : list A) (limit : option Z)
    (page : Z) : list A :=
  sql_window rows (effective_limit_of limit)
    (offset_of page (effective_limit_of limit)).

(** The [has_next] flag reported for a page of a query with [count]
    matches. *)
Definition has_next_at (count : Z) (limit : option Z) (page : Z) : bool :=
  match pagination_of (VInt count) page (effective_limit_of limit) with
  | inr p => has_next p
  | inl _ => false
  end.

Definition total_pages_of (count : Z) (limit : option Z) : Z :=
  match pagination_of (VInt count) 1 (effective_limit_of limit) with
  | inr p => total_pages p
  | inl _ => 0
  end.

(** The number of occurrences of a character in a text. *)
Fixpoint count_char (c : ascii) (s : string) : nat :=
  match s with
  | EmptyString => 0
  | String a s' => (if Ascii.eqb a c then 1 else 0) + count_char c s'
  end.

(** The number of [?] placeholders of a piece of SQL. *)
Definition placeholders (sql : string) : nat := count_char "?" sql.

(** A column name that holds no [?]. *)
Definition plain_name (name : string) : Prop := placeholders name = 0%nat.

(** The column named by a numeric-range filter, when there is one, holds
    no [?]. *)
Definition numeric_column_plain (filters : option Filters) : Prop :=
  match filters with
  | Some f =>
      match numeric_range f with
      | Some nr => plain_name (default "price" (nr_field nr))
      | None => True
      end
  | None => True
  end.

(** A clause list with as many placeholders as parameters. *)
Definition clauses_bound (c : clauses) : Prop :=
  list_sum (List.map placeholders (fst c)) = length (snd c).

(** A clause list that binds nothing when it holds no clause. *)
Definition clauses_paired (c : clauses) : Prop := fst c = [] → snd c = [].

(** The columns [_get_essential_columns] keeps: the wanted columns that
    the schema has ([existing_cols] in the source). *)
Definition existing_cols (self : DuckDBProcessor)
    (search_columns display_columns available_fields : list string)
    : list string :=
  List.filter (fun col => Py.mem col available_fields)
    (essential_candidates self search_columns display_columns
       available_fields).

(** ** Table expressions *)

(** The single-quote character. *)
Definition squote : ascii := ascii_of_nat 39.

(** [_escape_path]: [path.replace("'", "''")] *)
Fixpoint _escape_path (path : string) : string :=
  match path with
  | EmptyString => EmptyString
  | String a rest =>
      if Ascii.eqb a squote
      then String squote (String squote (_escape_path rest))
      else String a (_escape_path rest)
  end.

(** The table expression [_get_table_expression] builds for a path that
    is no embedded-database file. *)
Definition parquet_table_expression (path : string) : string :=
  "read_parquet('" +:+ _escape_path path +:+ "')".

(** The statement [_ensure_duckdb_view] attaches a database file with. *)
Definition attach_statement (path alias : string) : string :=
  "ATTACH '" +:+ _escape_path path +:+ "' AS " +:+ alias +:+ " (READ_ONLY)".

(** How the engine reads a quoted literal, from just after the opening
    quote: the text of the literal, a doubled quote standing for one
    quote, and what follows the closing quote; [None] when the literal
    is never closed. *)
Fixpoint read_literal (sql : string) : option (string * string) :=
  match sql with
  | EmptyString => None
  | String a rest =>
      if Ascii.eqb a squote then
        match rest with
        | String b rest' =>
            if Ascii.eqb b squote
            then option_map (fun r => (String squote (fst r), snd r))
                   (read_literal rest')
            else Some (EmptyString, rest)
        | EmptyString => Some (EmptyString, EmptyString)
        end
      else option_map (fun r => (String a (fst r), snd r)) (read_literal rest)
  end.

(** A text that does not begin with a quote. *)
Definition no_leading_quote (s : string) : Prop :=
  match s with
  | EmptyString => True
  | String a _ => Ascii.eqb a squote = false
  end.

(** ** Connection pool *)

(** The module-level connection cache and lock table. A connection and a
    lock are known by the order in which they were created. *)
Record pool_state : Type := {
  CONNECTION_CACHE : gmap string nat;
  CONNECTION_LOCKS : gmap string nat;
  created : nat
}.

Inductive pool_error : Type :=
| ConnectFailed
| KeyError.

(** [_get_or_create_connection]; [can_connect n] tells whether creating
    the connection numbered [n] succeeds. *)
Definition _get_or_create_connection (can_connect : nat → bool)
    (connection_key : string) (st : pool_state)
    : pool_error + (nat * nat * pool_state) :=
  let with_lock conn st' :=
    match CONNECTION_LOCKS st' !! connection_key with
    | Some conn_lock => inr (conn, conn_lock, st')
    | None => inl KeyError
    end in
  match CONNECTION_CACHE st !! connection_key with
  | Some conn => with_lock conn st
  | None =>
      if can_connect (created st) then
        with_lock (created st)
          {| CONNECTION_CACHE :=
               <[connection_key := created st]> (CONNECTION_CACHE st);
             CONNECTION_LOCKS :=
               <[connection_key := created st]> (CONNECTION_LOCKS st);
             created := S (created st) |}
      else inl ConnectFailed
  end.

(** Every cached connection has its lock, was created before now, and
    serves one key only. *)
Definition pool_wf (st : pool_state) : Prop :=
  (∀ key, is_Some (CONNECTION_CACHE st !! key)
          ↔ is_Some (CONNECTION_LOCKS st !! key))
  ∧ (∀ key conn, CONNECTION_CACHE st !! key = Some conn →
                 (conn < created st)%nat)
  ∧ (∀ key key' conn, CONNECTION_CACHE st !! key = Some conn →
                      CONNECTION_CACHE st !! key' = Some conn → key = key').

(** ** Local copies of remote database files *)

Record download_state : Type := {
  DUCKDB_REMOTE_CACHE : gmap string string;
  files : gset string;
  downloads : nat
}.

Definition DUCKDB_CACHE_ROOT : string := "/tmp/datapage_duckdb_cache".

Section LocalCopy.

Variable url_path : string → string.
Variable path_name : string → string.

(** [hashlib.md5(...).hexdigest()] and [Path.with_suffix('.download')]. *)
Variable md5_hex : string → string.
Variable download_suffix : string → string.

(** The exception the [n]-th download, of a given URL, ends with, if
    any: opening the URL, writing the temporary file and renaming it. *)
Variable fetch : nat → string → option string.

Definition local_copy_path (source_url : string) : string :=
  let name := path_name (url_path source_url) in
  let filename :=
    if Py.truthy name then name
    else "duckdb_" +:+ md5_hex source_url +:+ ".duckdb" in
  DUCKDB_CACHE_ROOT +:+ "/" +:+ filename.

(** [_ensure_local_duckdb_copy]: the cached copy when it is still on
    disk, else a download to a temporary file that is renamed on success
    and removed on failure (the removal is taken to go through). The
    error is the [RuntimeError] raised, with its message. *)
Definition _ensure_local_duckdb_copy (source_url : string)
    (st : download_state) : (error + string) * download_state :=
  let cached_on_disk :=
    match DUCKDB_REMOTE_CACHE st !! source_url with
    | Some cached =>
        if bool_decide (cached ∈ files st) then Some cached else None
    | None => None
    end in
  match cached_on_disk with
  | Some cached => (inr cached, st)
  | None =>
      let cache_path := local_copy_path source_url in
      let temp_path := download_suffix cache_path in
      match fetch (downloads st) source_url with
      | None =>
          (inr cache_path,
           {| DUCKDB_REMOTE_CACHE :=
                <[source_url := cache_path]> (DUCKDB_REMOTE_CACHE st);
              files := (files st ∖ {[temp_path]}) ∪ {[cache_path]};
              downloads := S (downloads st) |})
      | Some download_error =>
          (inl (EngineError ("DuckDB 파일 다운로드 실패: " +:+ source_url
                             +:+ " (" +:+ download_error +:+ ")")),
           {| DUCKDB_REMOTE_CACHE := DUCKDB_REMOTE_CACHE st;
              files := files st ∖ {[temp_path]};
              downloads := S (downloads st) |})
      end
  end.

(** [_resolve_tabular_path] for a URL: the local copy of a database
    file (which the processor also keeps in [_local_duckdb_path]), the
    URL itself for a Parquet file, nothing otherwise; a failed download
    is logged and yields nothing. *)
Definition resolve_tabular_url (file_path_str : string)
    (st : download_state) : option string * download_state :=
  if Py.endswith file_path_str ".duckdb" then
    match _ensure_local_duckdb_copy file_path_str st with
    | (inr local_path, st') => (Some local_path, st')
    | (inl _, st') => (None, st')
    end
  else if Py.endswith file_path_str ".parquet" then (Some file_path_str, st)
  else (None, st).

End LocalCopy.

(** ** Spreadsheet export (api/main.py) *)

Record export_state : Type := {
  header_written : bool;
  selected_columns : list string;
  total_records : Z;
  worksheet : list (list value)
}.

Definition export_init : export_state :=
  {| header_written := false; selected_columns := []; total_records := 0;
     worksheet := [] |}.

Inductive export_outcome : Type :=
| Propagated (e : error)
| HTTPException (status_code : Z) (detail : string)
| Workbook (rows : list (list value)) (x_total_count : value).

Section ExcelExport.

(** [json.dumps(value, ensure_ascii=False)], with its fallback to
    [str(value)], and [str(v)]. *)
Variable json_dumps : record → string.
Variable value_str : value → string.

Variable download_fields : list string.
Variable korean_field_mapping : list (string * string).

(** Whether [worksheet.append(row)] raises, given the rows the sheet
    holds. *)
Variable append_raises : list (list value) → list value → bool.

(** [_normalize_excel_value(record.get(col))] *)
Definition _normalize_excel_value (v : option value) : value :=
  match v with
  | None => VStr EmptyString
  | Some VNone => VStr EmptyString
  | Some (VList l) => VStr (Py.join ", " (List.map value_str l))
  | Some (VDict d) => VStr (json_dumps d)
  | Some v => v
  end.

Definition excel_row (columns : list string) (rec : record) : list value :=
  List.map (fun col => _normalize_excel_value (dict_get col rec)) columns.

Definition header_labels (columns : list string) : list value :=
  List.map
    (fun col =>
       VStr (match assoc_get col korean_field_mapping with
             | Some label => label
             | None => col
             end))
    columns.

(** The columns chosen at the first chunk that is not empty. *)
Definition columns_for (first : record) : list string :=
  match download_fields with
  | [] => List.map fst first
  | _ :: _ => download_fields
  end.

(** [for record in chunk: worksheet.append(row)]: the rows go to the
    sheet until one is refused; the flag tells that one was. *)
Fixpoint append_rows (columns : list string) (chunk : list record)
    (sheet : list (list value)) : list (list value) * bool :=
  match chunk with
  | [] => (sheet, false)
  | rec :: chunk' =>
      let row := excel_row columns rec in
      if append_raises sheet row then (sheet, true)
      else append_rows columns chunk' (sheet ++ [row])
  end.

(** The [handle_chunk] closure of [_stream_excel_from_query]: the state
    it leaves, and whether it raised. *)
Definition handle_chunk (chunk : list record) (total_processed : Z)
    (st : export_state) : export_state * bool :=
  match chunk with
  | [] => (st, false)
  | first :: _ =>
      let '(st1, header_refused) :=
        if header_written st then (st, false)
        else
          let columns := columns_for first in
          let labels := header_labels columns in
          if append_raises (worksheet st) labels then
            ({| header_written := false;
                selected_columns := columns;
                total_records := total_records st;
                worksheet := worksheet st |}, true)
          else
            ({| header_written := true;
                selected_columns := columns;
                total_records := total_records st;
                worksheet := worksheet st ++ [labels] |}, false) in
      if header_refused then (st1, true)
      else
        let '(sheet, row_refused) :=
          append_rows (selected_columns st1) chunk (worksheet st1) in
        ({| header_written := header_written st1;
            selected_columns := selected_columns st1;
            total_records :=
              if row_refused then total_records st1 else total_processed;
            worksheet := sheet |}, row_refused)
  end.

(** The state of the closure after the calls it has received. *)
Definition run_callbacks (calls : list (list record * Z))
    (st : export_state) : export_state :=
  fold_left (fun st call => fst (handle_chunk (fst call) (snd call) st))
    calls st.

(** [handle_chunk] as the search sees it. *)
Definition export_callback : callback :=
  fun calls chunk total_processed =>
    snd (handle_chunk chunk total_processed (run_callbacks calls export_init)).

(** [_stream_excel_from_query] from the search on, which is handed the
    closure: an error result is an HTTP 500, a run that wrote no header
    an HTTP 404, anything else the sheet with the reported total as
    [X-Total-Count]. *)
Definition _stream_excel_from_query
    (duckdb_search_large_file : callback → search_response)
    : export_outcome :=
  match duckdb_search_large_file export_callback with
  | Raised e => Propagated e
  | ErrorResult _ message => HTTPException 500 ("검색 실패: " +:+ message)
  | Page r =>
      let st := run_callbacks (sink_calls r) export_init in
      if header_written st
      then Workbook (worksheet st) (total_count (page_pagination r))
      else HTTPException 404 "검색 결과가 없습니다."
  end.

End ExcelExport.

(** ** Base query *)

(** [s.replace(old, new)] for a non-empty [old]: the occurrences are
    replaced from the left, without overlap. *)
Fixpoint str_replace_go (fuel : nat) (old new s : string) : string :=
  match fuel with
  | O => s
  | S fuel' =>
      if Py.startswith s old then
        new +:+ str_replace_go fuel' old new
                  (String.substring (String.length old) (String.length s) s)
      else
        match s with
        | EmptyString => EmptyString
        | String a s' => String a (str_replace_go fuel' old new s')
        end
  end.

Definition str_replace (old new s : string) : string :=
  str_replace_go (S (String.length s)) old new s.

Section BaseQuery.

Variable str_lower : string → string.

(** The view [_get_table_expression] sets up for a database file, after
    its download when it is remote; both steps may raise. *)
Variable duckdb_view : string → error + string.

(** What [_get_essential_columns] and [_detect_json_structure] answer. *)
Variable essential_cols : string.
Variable detected : json_structure.

Definition _get_table_expression (path : string) : error + string :=
  if Py.endswith (str_lower path) ".duckdb" then duckdb_view path
  else inr (parquet_table_expression path).

Definition tabular_query (path : string) : error + string :=
  match _get_table_expression path with
  | inl e => inl e
  | inr table_expr =>
      inr ("SELECT " +:+ essential_cols +:+ " FROM " +:+ table_expr)
  end.

(** The JSON fallback; the wildcard projection gives the same text as
    any other projection. *)
Definition json_query (abs_file_path : string) (file_size_mb : Q) : string :=
  let read_options :=
    if Qle_bool file_size_mb (10 # 1) then EmptyString
    else ", maximum_object_size=2147483648" in
  let from_clause :=
    " FROM read_json_auto('" +:+ abs_file_path +:+ "'" +:+ read_options
    +:+ ")" in
  match detected with
  | nested_safetykorea =>
      "SELECT UNNEST(" +:+ quoted EmptyString "LED램프_details" +:+ ") as item"
      +:+ from_clause
  | nested_data =>
      "SELECT UNNEST(" +:+ quoted EmptyString "data" +:+ ") as item" +:+ from_clause
  | _ => "SELECT " +:+ essential_cols +:+ from_clause
  end.

(** [_build_base_query]; [resolved] is the text of the resolved local
    path and [tabular_path] what [_resolve_tabular_path] answers. *)
Definition _build_base_query (self : DuckDBProcessor) (resolved : string)
    (tabular_path : option string) (file_size_mb : Q) : error + string :=
  if is_url self then
    let abs_file_path :=
      if Py.endswith (file_path_str self) ".json"
      then str_replace ".json" ".parquet" (file_path_str self)
      else file_path_str self in
    if Py.endswith abs_file_path ".parquet"
       || Py.endswith abs_file_path ".duckdb"
    then tabular_query abs_file_path
    else inr (json_query abs_file_path file_size_mb)
  else
    match tabular_path with
    | Some path =>
        if Py.truthy path then tabular_query path
        else inr (json_query resolved file_size_mb)
    | None => inr (json_query resolved file_size_mb)
    end.

End BaseQuery.

(** A text that holds no quote. *)
Fixpoint quote_free (s : string) : bool :=
  match s with
  | EmptyString => true
  | String a rest => negb (Ascii.eqb a squote) && quote_free rest
  end.

(** * Properties *)

(** ** Membership and priority lists *)

Lemma mem_true x xs : Py.mem x xs = true ↔ x ∈ xs.
Proof. unfold Py.mem. apply bool_decide_eq_true. Qed.

Lemma mem_false x xs : Py.mem x xs = false ↔ x ∉ xs.
Proof. unfold Py.mem. apply bool_decide_eq_false. Qed.

Lemma first_in_Some candidates available c :
  first_available candidates available c →
  Py.first_in candidates available = Some c.
Proof.
  intros (before & after & -> & Hc & Hbefore).
  unfold Py.first_in.
  induction before as [|b before IH]; simpl.
  - apply mem_true in Hc. by rewrite Hc.
  - assert (Hb : Py.mem b available = false).
    { apply mem_false, Hbefore. left. }
    rewrite Hb. apply IH. intros x Hx. apply Hbefore. by right.
Qed.

Lemma first_in_None candidates available :
  none_available candidates available →
  Py.first_in candidates available = None.
Proof.
  unfold none_available, Py.first_in.
  induction candidates as [|c cs IH]; intros Hnone; simpl; [done|].
  assert (Hc : Py.mem c available = false).
  { apply mem_false, Hnone. left. }
  rewrite Hc. apply IH. intros x Hx. apply Hnone. by right.
Qed.

Lemma first_in_elem candidates available c :
  Py.first_in candidates available = Some c →
  c ∈ candidates ∧ c ∈ available.
Proof.
  unfold Py.first_in. intros H.
  apply find_some in H as [Hin Hmem].
  split; [by apply list_elem_of_In | by apply mem_true].
Qed.

Lemma usable_column_first candidates available c :
  Py.truthy c = true →
  first_available candidates available c →
  usable_column candidates available = Some c.
Proof.
  intros Hc Hfirst. unfold usable_column.
  by rewrite (first_in_Some _ _ _ Hfirst), Hc.
Qed.

Lemma usable_column_none candidates available :
  none_available candidates available →
  usable_column candidates available = None.
Proof.
  intros Hnone. unfold usable_column. by rewrite first_in_None.
Qed.

Lemma usable_column_elem candidates available c :
  usable_column candidates available = Some c →
  c ∈ candidates ∧ c ∈ available ∧ Py.truthy c = true.
Proof.
  unfold usable_column.
  destruct (Py.first_in candidates available) as [c'|] eqn:Hfirst; [|done].
  destruct (Py.truthy c') eqn:Ht; [|done].
  intros [= <-]. apply first_in_elem in Hfirst as [? ?]. done.
Qed.

(** ** Pagination metadata (C5) *)

(** The formula [has_next = page < total_pages] fails below page 1 when
    no limit is set: the only page has no next page, although the page
    number 0, which nothing refuses, is below the page count 1. *)
Lemma page_zero_unlimited_has_no_next :
  ∃ p,
    pagination_of (VInt 5) 0 (effective_limit_of None) = inr p
    ∧ total_pages p = 1
    ∧ has_next p = false
    ∧ (0 <? total_pages p) = true.
Proof. eexists. split; [reflexivity|]. repeat split. Qed.

(** C5, amended. For every page number, the pagination block reports
    [total_pages = ceil(total_count / limit)] and
    [has_next = (page < total_pages)] when a positive limit is set;
    without a positive limit it reports one page and no next page,
    whatever the page number; [has_prev = (page > 1)] always. *)
Theorem pagination_metadata_exact (count page : Z) (limit : option Z) :
  ∃ p,
    pagination_of (VInt count) page (effective_limit_of limit) = inr p
    ∧ total_count p = VInt count
    ∧ current_page p = page
    ∧ has_prev p = (1 <? page)
    ∧ match effective_limit_of limit with
      | Some l =>
          0 < l ∧ limit = Some l
          ∧ is_ceiling count l (total_pages p)
          ∧ has_next p = (page <? total_pages p)
          ∧ items_per_page p = VInt l
      | None =>
          match limit with Some l => l <= 0 | None => True end
          ∧ total_pages p = 1
          ∧ has_next p = false
          ∧ items_per_page p = VInt count
      end.
Proof.
  unfold pagination_of, effective_limit_of.
  destruct limit as [l|].
  - destruct (Z.leb_spec l 0) as [Hl|Hl].
    + eexists. split; [reflexivity|]. cbn. repeat split. done.
    + destruct (Z.eqb_spec l 0); [lia|].
      destruct (Z.ltb_spec 0 l); [|lia].
      eexists. split; [reflexivity|]. cbn. repeat split; try done.
      * pose proof (Z.mul_div_le (count + l - 1) l).
        pose proof (Z.mul_succ_div_gt (count + l - 1) l). lia.
      * pose proof (Z.mul_div_le (count + l - 1) l).
        pose proof (Z.mul_succ_div_gt (count + l - 1) l). lia.
  - eexists. split; [reflexivity|]. cbn. repeat split.
Qed.

(** The worked example: five matches, two per page. *)
Example pagination_five_by_two :
  (pagination_of (VInt 5) 1 (effective_limit_of (Some 2))
     = inr {| total_count := VInt 5; total_pages := 3; current_page := 1;
              items_per_page := VInt 2; has_next := true; has_prev := false |})
  ∧ (pagination_of (VInt 5) 3 (effective_limit_of (Some 2))
     = inr {| total_count := VInt 5; total_pages := 3; current_page := 3;
              items_per_page := VInt 2; has_next := false; has_prev := true |}).
Proof. split; reflexivity. Qed.

(** ** Locator size (C3) *)

(** The processor built for a locator and asked for its size: a remote
    locator is accepted and sized at the fixed 100 MB; a local locator
    whose file exists is accepted and sized at its stat'ed bytes over
    1024 * 1024; a local locator whose file is missing is refused with
    [FileNotFoundError]. *)
Lemma locator_size_outcomes (path_str : string → string)
    (fs : filesystem) (path : string)
    (category subcategory result_type : option string)
    (required : option (list string)) :
  match init path_str fs path category subcategory result_type required with
  | inr self =>
      if locator_is_url path
      then _get_file_size_mb fs self = inr (100 # 1)%Q
      else ∃ size_bytes,
             fs (path_str path) = Some size_bytes
             ∧ _get_file_size_mb fs self
               = inr (Qmake size_bytes 1 / Qmake (1024 * 1024) 1)%Q
  | inl e =>
      locator_is_url path = false
      ∧ fs (path_str path) = None
      ∧ ∃ msg, e = FileNotFoundError msg
  end.
Proof.
  unfold init, _get_file_size_mb.
  destruct (locator_is_url path) eqn:Hurl; simpl; [done|].
  destruct (fs (path_str path)) as [size_bytes|] eqn:Hfs; simpl.
  - rewrite Hfs. eauto.
  - eauto.
Qed.


(** A remote locator is always sized, whatever the file system holds. *)
Lemma remote_size_fixed (fs : filesystem) (self : DuckDBProcessor) :
  is_url self = true → _get_file_size_mb fs self = inr (100 # 1)%Q.
Proof. intros H. unfold _get_file_size_mb. by rewrite H. Qed.

(** ** Search predicate (C4, C7, C10) *)

Lemma filter_mem_nil (available candidates : list string) :
  (∀ a, a ∈ candidates → a ∉ available) →
  List.filter (fun f => Py.mem f available) candidates = [].
Proof.
  induction candidates as [|c cs IH]; intros Hnone; simpl; [done|].
  assert (Hc : Py.mem c available = false).
  { apply mem_false, Hnone. left. }
  rewrite Hc. apply IH. intros a Ha. apply Hnone. by right.
Qed.

Lemma filter_mem_elem (available candidates : list string) (c : string) :
  c ∈ List.filter (fun f => Py.mem f available) candidates
  ↔ c ∈ candidates ∧ c ∈ available.
Proof.
  rewrite !list_elem_of_In, filter_In, <- !list_elem_of_In.
  by rewrite mem_true.
Qed.

Lemma filter_mem_nonempty (available candidates : list string) (a : string) :
  a ∈ candidates → a ∈ available →
  List.filter (fun f => Py.mem f available) candidates ≠ [].
Proof.
  intros Hc Ha Hnil.
  assert (H : a ∈ List.filter (fun f => Py.mem f available) candidates)
    by by apply filter_mem_elem.
  rewrite Hnil in H. by apply elem_of_nil in H.
Qed.

Lemma general_cond_field str_lower case_config table_alias keyword field :
  cond_field (fst (general_cond str_lower case_config table_alias keyword field))
  = field.
Proof.
  unfold general_cond, _get_search_pattern_and_operator.
  destruct (Py.mem field cert_number_fields); simpl; [done|].
  by destruct (_is_field_case_insensitive case_config field).
Qed.

Lemma general_cond_columns str_lower case_config table_alias keyword fields :
  List.map (fun c => cond_field (fst c))
    (List.map (general_cond str_lower case_config table_alias keyword) fields)
  = fields.
Proof.
  induction fields as [|f fs IH]; simpl; [done|].
  by rewrite general_cond_field, IH.
Qed.

Lemma existing_search_fields_available search_field available c :
  c ∈ existing_search_fields search_field available → c ∈ available.
Proof.
  unfold existing_search_fields.
  destruct (List.filter _ _) as [|x xs] eqn:Hfilter.
  - destruct (Py.mem search_field available) eqn:Hmem.
    + intros ->%list_elem_of_singleton. by apply mem_true.
    + by intros ?%elem_of_nil.
  - rewrite <- Hfilter. intros H. by apply filter_mem_elem in H as [_ ?].
Qed.

(** Decompose membership in a list given by its elements. *)
Ltac each_member H :=
  repeat (apply elem_of_cons in H as [->|H]); [..|by apply elem_of_nil in H].

Lemma supported_field_not_exact search_field aliases :
  assoc_get search_field field_mappings = Some aliases →
  Py.mem search_field exact_match_fields = false.
Proof.
  unfold field_mappings. cbn [assoc_get].
  destruct (String.eqb_spec "company_name" search_field) as [<-|_]; [done|].
  destruct (String.eqb_spec "model_name" search_field) as [<-|_]; [done|].
  destruct (String.eqb_spec "product_name" search_field) as [<-|_]; [done|].
  done.
Qed.


(** C10. An unresolvable search predicate degrades: with no keyword, or
    with a field that is not a business-number field and whose aliases
    and raw name are all absent from the schema, the clause is the
    constant [1=1] with no parameter and every row passes it; a
    business-number field with no matching column compiles to [1=0],
    which no row passes. *)
Theorem unresolvable_search_clause
    (str_lower sql_lower : string → string)
    (sql_like : string → string → bool) (case_config : CaseConfig)
    (self : DuckDBProcessor) (using_parquet : bool)
    (structure : json_structure) (available : list string)
    (keyword : option string) (search_field : string) :
  let w := _build_where_clause str_lower case_config self using_parquet
             structure available keyword search_field in
  (keyword_missing keyword = true →
     where_clause w = "1=1" ∧ where_parameters w = []
     ∧ ∀ r, where_holds sql_lower sql_like r (where_form_of w) = true)
  ∧ (keyword_missing keyword = false →
     search_field ∉ exact_match_fields →
     (∀ a, a ∈ default [search_field] (assoc_get search_field field_mappings)
           → a ∉ available) →
     search_field ∉ available →
     where_clause w = "1=1" ∧ where_parameters w = []
     ∧ ∀ r, where_holds sql_lower sql_like r (where_form_of w) = true)
  ∧ (keyword_missing keyword = false →
     search_field ∈ exact_match_fields →
     (∀ a, a ∈ business_aliases search_field → a ∉ available) →
     where_clause w = "1=0" ∧ where_parameters w = []
     ∧ ∀ r, where_holds sql_lower sql_like r (where_form_of w) = false).
Proof.
  intros w. subst w. unfold _build_where_clause, where_clause, where_parameters.
  split; [|split].
  - intros ->. done.
  - intros -> Hexact%mem_false Haliases Hraw%mem_false. rewrite Hexact.
    unfold existing_search_fields.
    rewrite (filter_mem_nil _ _ Haliases), Hraw. done.
  - intros -> Hexact%mem_true Haliases. rewrite Hexact.
    rewrite (filter_mem_nil _ _ Haliases). done.
Qed.

Lemma unresolvable_search_clause_witness :
  let build := _build_where_clause Py.lower fallback_case_config
                 (local_processor "data.parquet") true parquet ["cert_date"] in
  where_clause (build None "company_name") = "1=1"
  ∧ where_clause (build (Some "acme") "company_name") = "1=1"
  ∧ where_clause (build (Some "123-45") "business_number") = "1=0".
Proof.
  pose proof (unresolvable_search_clause Py.lower Py.lower (fun _ _ => false)
                fallback_case_config (local_processor "data.parquet") true
                parquet ["cert_date"]) as H.
  split; [|split].
  - destruct (H None "company_name") as (H1 & _ & _).
    apply H1. reflexivity.
  - destruct (H (Some "acme") "company_name") as (_ & H2 & _).
    apply H2; [reflexivity | by apply mem_false | | by apply mem_false].
    intros a Ha. apply mem_false. simpl in Ha. each_member Ha; reflexivity.
  - destruct (H (Some "123-45") "business_number") as (_ & _ & H3).
    apply H3; [reflexivity | by apply mem_true |].
    intros a Ha. apply mem_false. simpl in Ha. each_member Ha; reflexivity.
Defined.

Lemma build_where_business str_lower case_config self using_parquet
    structure available keyword search_field :
  Py.truthy keyword = true →
  Py.mem search_field exact_match_fields = true →
  where_form_of
    (_build_where_clause str_lower case_config self using_parquet structure
       available (Some keyword) search_field)
  = match
      List.map (fun field => (StrippedEq field, VStr (clean_keyword keyword)))
        (List.filter (fun f => Py.mem f available)
           (business_aliases search_field))
    with
    | [] => ConstFalse
    | c :: cs => AnyOf (c :: cs)
    end.
Proof.
  intros Hkw Hexact. unfold _build_where_clause, keyword_missing.
  rewrite Hkw, Hexact. cbn [negb from_option id where_form_of].
  by destruct (List.map _ _).
Qed.

Lemma build_where_general str_lower case_config self using_parquet
    structure available keyword search_field :
  Py.truthy keyword = true →
  Py.mem search_field exact_match_fields = false →
  where_form_of
    (_build_where_clause str_lower case_config self using_parquet structure
       available (Some keyword) search_field)
  = match
      List.map
        (general_cond str_lower case_config
           (if using_parquet then EmptyString
            else if is_nested structure then "item." else EmptyString)
           keyword)
        (existing_search_fields search_field available)
    with
    | [] => ConstTrue
    | c :: cs => AnyOf (c :: cs)
    end.
Proof.
  intros Hkw Hexact. unfold _build_where_clause, keyword_missing.
  rewrite Hkw, Hexact. cbn [negb from_option id where_form_of].
  by destruct (List.map _ _).
Qed.

Lemma search_columns_general str_lower case_config self using_parquet
    structure available keyword search_field :
  Py.truthy keyword = true →
  Py.mem search_field exact_match_fields = false →
  search_columns_of str_lower case_config self using_parquet structure
    available keyword search_field
  = existing_search_fields search_field available.
Proof.
  intros Hkw Hexact. unfold search_columns_of.
  rewrite build_where_general by done.
  destruct (existing_search_fields search_field available) as [|f fs] eqn:He;
    [done|].
  rewrite <- He.
  destruct (List.map _ (existing_search_fields _ _)) as [|c cs] eqn:Hmap.
  - rewrite He in Hmap. discriminate.
  - rewrite <- Hmap. simpl. apply general_cond_columns.
Qed.

(** The raw name of a logical field is searched although it is no alias
    of that field. *)
Lemma raw_field_name_is_searched :
  search_columns_of Py.lower fallback_case_config
    (local_processor "data.parquet") true parquet ["company_name"]
    "acme" "company_name" = ["company_name"]
  ∧ assoc_get "company_name" field_mappings
    = Some ["업체명"; "maker_name"; "entrprsNm"; "상호/법인명"; "사업자명"]
  ∧ "company_name"
    ∉ ["업체명"; "maker_name"; "entrprsNm"; "상호/법인명"; "사업자명"].
Proof.
  split; [reflexivity | split; [reflexivity|]].
  apply mem_false. reflexivity.
Qed.

(** C7, amended. For a supported logical field with a keyword, every
    column the predicate ranges over is a column of the schema; when some
    alias of the field is in the schema the columns are exactly the
    aliases present, in alias order; when none is, the predicate ranges
    over the raw field name if that is a column, and over nothing
    otherwise. *)
Theorem search_columns_resolution (str_lower : string → string)
    (case_config : CaseConfig) (self : DuckDBProcessor)
    (using_parquet : bool) (structure : json_structure)
    (available : list string) (keyword search_field : string)
    (aliases : list string) :
  Py.truthy keyword = true →
  assoc_get search_field field_mappings = Some aliases →
  let columns :=
    search_columns_of str_lower case_config self using_parquet structure
      available keyword search_field in
  (∀ c, c ∈ columns → c ∈ available)
  ∧ ((∃ a, a ∈ aliases ∧ a ∈ available) →
       columns = List.filter (fun a => Py.mem a available) aliases
       ∧ ∀ c, c ∈ columns ↔ c ∈ aliases ∧ c ∈ available)
  ∧ ((∀ a, a ∈ aliases → a ∉ available) →
       columns = if Py.mem search_field available then [search_field] else []).
Proof.
  intros Hkw Haliases columns. subst columns.
  rewrite search_columns_general;
    [|done|by eapply supported_field_not_exact].
  split; [|split].
  - intros c. apply existing_search_fields_available.
  - intros (a & Ha & Hav).
    assert (Heq : existing_search_fields search_field available
                  = List.filter (fun a => Py.mem a available) aliases).
    { unfold existing_search_fields. rewrite Haliases. simpl.
      pose proof (filter_mem_nonempty available aliases a Ha Hav) as Hne.
      by destruct (List.filter _ aliases). }
    rewrite Heq. split; [done|]. intros c. apply filter_mem_elem.
  - intros Hnone. unfold existing_search_fields. rewrite Haliases. simpl.
    by rewrite (filter_mem_nil _ _ Hnone).
Qed.

Lemma search_columns_resolution_witness :
  Py.truthy "acme" = true
  ∧ assoc_get "product_name" field_mappings
    = Some ["제품명"; "product_name"; "prductNm"; "품목명"]
  ∧ search_columns_of Py.lower fallback_case_config
      (local_processor "data.parquet") true parquet
      ["cert_date"; "품목명"; "제품명"; "maker_name"] "acme" "product_name"
    = ["제품명"; "품목명"].
Proof.
  split; [reflexivity | split; [reflexivity|]].
  destruct (search_columns_resolution Py.lower fallback_case_config
              (local_processor "data.parquet") true parquet
              ["cert_date"; "품목명"; "제품명"; "maker_name"] "acme"
              "product_name" ["제품명"; "product_name"; "prductNm"; "품목명"]
              eq_refl eq_refl) as (_ & Hsome & _).
  destruct Hsome as [-> _]; [|reflexivity].
  exists "제품명". split; apply mem_true; reflexivity.
Defined.






(** ** ORDER BY (C2) *)

Lemma candidates_truthy (candidates : list string) (c : string) :
  forallb Py.truthy candidates = true → c ∈ candidates → Py.truthy c = true.
Proof.
  intros Hall Hc. rewrite forallb_forall in Hall.
  apply Hall. by apply list_elem_of_In.
Qed.

Lemma first_available_elem candidates available c :
  first_available candidates available c → c ∈ candidates.
Proof.
  intros (before & after & -> & _). apply elem_of_app. right. left.
Qed.

(** No ORDER BY is compiled for a tabular source, although the schema
    has a date column and a name column. *)
Lemma tabular_source_has_no_order :
  order_by
    (choose_order (local_processor "data.parquet") true parquet "*"
       ["cert_date"; "product_name"]) = None
  ∧ first_available date_candidates ["cert_date"; "product_name"] "cert_date".
Proof.
  split; [reflexivity|].
  exists ["완료일"; "인증일자"; "인증변경일자"; "서명일자"; "인증만료일자";
          "완료일자"; "발급일"; "만료일"; "설립일"],
         ["sign_date"; "cert_chg_date"; "registration_date"; "approval_date";
          "declaration_date"; "recall_date"; "등록일"; "승인일"; "신고일";
          "리콜일"; "생성일"; "수정일"; "신고증명서 발급일";
          "시험성적서 만료일"; "유통기한"].
  split; [reflexivity|]. split; [apply mem_true; reflexivity|].
  intros x Hx. apply mem_false. each_member Hx; reflexivity.
Qed.

(** C2, amended. The ORDER BY depends on the source kind. A tabular
    source gets none: the ORDER BY line of its query is empty. The flat
    JSON fallback orders by the first date candidate in the schema,
    parsed by the CASE expression, descending with NULLS LAST, then by
    the first name candidate ascending; with only one of the two it
    orders by that one; with neither it orders by the first column of
    the schema, or by the constant 1 when the schema is empty. A nested
    JSON source orders by the first nested sort candidate inside [item],
    or by [item] itself. *)
Theorem order_by_choice (self : DuckDBProcessor) (using_parquet : bool)
    (structure : json_structure) (essential_cols : string)
    (available : list string) :
  let chosen :=
    order_by (choose_order self using_parquet structure essential_cols
                available) in
  (using_parquet = true →
     chosen = None ∧ order_clause_of chosen = EmptyString)
  ∧ (using_parquet = false → is_nested structure = false →
     (∀ d p, first_available date_candidates available d →
             first_available product_candidates available p →
             chosen = Some ((_build_date_order_expression d EmptyString
                               +:+ " DESC NULLS LAST")
                              +:+ ", " +:+ (quoted EmptyString p +:+ " ASC")))
     ∧ (∀ d, first_available date_candidates available d →
             none_available product_candidates available →
             chosen = Some (_build_date_order_expression d EmptyString
                              +:+ " DESC NULLS LAST"))
     ∧ (∀ p, none_available date_candidates available →
             first_available product_candidates available p →
             chosen = Some (quoted EmptyString p +:+ " ASC"))
     ∧ (none_available date_candidates available →
        none_available product_candidates available →
        chosen = Some match available with
                      | first_field :: _ =>
                          if String.eqb first_field "1" then "1"
                          else quoted EmptyString first_field
                      | [] => "1"
                      end))
  ∧ (using_parquet = false → is_nested structure = true →
     (∀ c, first_available nested_sort_candidates available c →
           chosen = Some (quoted "item." c))
     ∧ (none_available nested_sort_candidates available →
        chosen = Some "item")).
Proof.
  intros chosen. subst chosen. unfold choose_order.
  split; [by intros ->|]. split.
  - intros -> ->.
    assert (Hdate : ∀ d, first_available date_candidates available d →
              usable_column date_candidates available = Some d).
    { intros d Hd. apply usable_column_first; [|done].
      eapply candidates_truthy; [|by eapply first_available_elem]. done. }
    assert (Hproduct : ∀ p, first_available product_candidates available p →
              usable_column product_candidates available = Some p).
    { intros p Hp. apply usable_column_first; [|done].
      eapply candidates_truthy; [|by eapply first_available_elem]. done. }
    repeat split.
    + intros d p Hd Hp. by rewrite (Hdate d Hd), (Hproduct p Hp).
    + intros d Hd Hp. by rewrite (Hdate d Hd), (usable_column_none _ _ Hp).
    + intros p Hd Hp. by rewrite (usable_column_none _ _ Hd), (Hproduct p Hp).
    + intros Hd Hp.
      rewrite (usable_column_none _ _ Hd), (usable_column_none _ _ Hp).
      simpl. by destruct available.
  - intros -> ->. split.
    + intros c Hc. rewrite (usable_column_first _ _ c); [done| |done].
      eapply candidates_truthy; [|by eapply first_available_elem]. done.
    + intros Hnone. by rewrite (usable_column_none _ _ Hnone).
Qed.

Lemma order_by_choice_witness :
  order_by
    (choose_order (local_processor "data.json") false array "*"
       ["id"; "업체명"; "cert_date"])
  = Some ((_build_date_order_expression "cert_date" EmptyString
             +:+ " DESC NULLS LAST")
            +:+ ", " +:+ (quoted EmptyString "업체명" +:+ " ASC")).
Proof.
  destruct (order_by_choice (local_processor "data.json") false array "*"
              ["id"; "업체명"; "cert_date"]) as (_ & Hflat & _).
  destruct (Hflat eq_refl eq_refl) as (Hboth & _).
  apply Hboth.
  - exists ["완료일"; "인증일자"; "인증변경일자"; "서명일자"; "인증만료일자";
            "완료일자"; "발급일"; "만료일"; "설립일"],
           ["sign_date"; "cert_chg_date"; "registration_date";
            "approval_date"; "declaration_date"; "recall_date"; "등록일";
            "승인일"; "신고일"; "리콜일"; "생성일"; "수정일";
            "신고증명서 발급일"; "시험성적서 만료일"; "유통기한"].
    split; [reflexivity|]. split; [apply mem_true; reflexivity|].
    intros x Hx. apply mem_false. each_member Hx; reflexivity.
  - exists ["품목"; "제품명"; "product_name"],
           ["company_name"; "상호"; "기자재명칭"; "모델명"; "model_name"].
    split; [reflexivity|]. split; [apply mem_true; reflexivity|].
    intros x Hx. apply mem_false. each_member Hx; reflexivity.
Defined.

(** The date expression tries the 8-digit and the 14-digit formats and
    falls back to a cast. *)
Example date_order_expression_parts :
  let e := _build_date_order_expression "cert_date" EmptyString in
  Py.startswith e "CASE WHEN " = true
  ∧ Py.contains ") = 8 THEN TRY_STRPTIME(" e = true
  ∧ Py.contains ", '%Y%m%d') " e = true
  ∧ Py.contains ") = 14 THEN TRY_STRPTIME(" e = true
  ∧ Py.contains ", '%Y%m%d%H%M%S') " e = true
  ∧ Py.contains "ELSE TRY_CAST(" e = true
  ∧ Py.endswith e " AS DATE) END" = true.
Proof. vm_compute. repeat split. Qed.

(** ** Projection and schema failures (C8) *)

Lemma join_quoted_nonempty (cols : list string) :
  cols ≠ [] →
  Py.join ", " (List.map (fun col => quoted EmptyString col) cols)
  ≠ EmptyString.
Proof.
  destruct cols as [|c [|c' cs]]; [done| |]; intros _; simpl; discriminate.
Qed.

Lemma dedup_keep_order_elem cols seen x :
  x ∈ dedup_keep_order cols seen →
  x ∈ cols ∧ (x ∉ seen) ∧ Py.truthy x = true.
Proof.
  revert seen. induction cols as [|col cols IH]; intros seen;
    cbn [dedup_keep_order]; [by intros ?%elem_of_nil|].
  destruct (Py.truthy col) eqn:Htruthy; cbn [andb].
  - destruct (Py.mem col seen) eqn:Hseen; cbn [negb].
    + intros Hx. apply IH in Hx as (? & ? & ?). split; [by right|done].
    + intros [->|Hx]%elem_of_cons.
      * split; [left|]. split; [by apply mem_false|done].
      * apply IH in Hx as (? & Hnot & ?). split; [by right|].
        split; [|done]. intros Hin. apply Hnot, elem_of_app. by left.
  - intros Hx. apply IH in Hx as (? & ? & ?). split; [by right|done].
Qed.

Lemma dedup_keep_order_NoDup cols seen : NoDup (dedup_keep_order cols seen).
Proof.
  revert seen. induction cols as [|col cols IH]; intros seen;
    cbn [dedup_keep_order]; [constructor|].
  destruct (Py.truthy col && negb (Py.mem col seen)); [|apply IH].
  constructor; [|apply IH].
  intros Hin. apply dedup_keep_order_elem in Hin as (_ & Hnot & _).
  apply Hnot, elem_of_app. right. left.
Qed.

Lemma list_filter_elem {A : Type} (f : A → bool) (l : list A) (x : A) :
  x ∈ List.filter f l ↔ x ∈ l ∧ f x = true.
Proof. by rewrite !list_elem_of_In, filter_In. Qed.

Lemma list_filter_NoDup {A : Type} (f : A → bool) (l : list A) :
  NoDup l → NoDup (List.filter f l).
Proof.
  induction 1 as [|x l Hx _ IH]; cbn [List.filter]; [constructor|].
  destruct (f x); [|done]. constructor; [|done].
  intros Hin. by apply list_filter_elem in Hin as [? _].
Qed.

Lemma essential_candidates_NoDup self search display available :
  NoDup (dynamic_required_fields self) →
  NoDup (essential_candidates self search display available).
Proof.
  intros Hdyn. unfold essential_candidates.
  apply NoDup_app. split; [apply dedup_keep_order_NoDup|]. split.
  - intros x Hx Hextra.
    apply dedup_keep_order_elem in Hx as (Hall & _ & _).
    apply list_filter_elem in Hextra as (_ & Hnot).
    apply andb_true_iff in Hnot as [_ Hnot%negb_true_iff%mem_false]. done.
  - by apply list_filter_NoDup.
Qed.

Lemma essential_candidates_truthy self search display available x :
  x ∈ essential_candidates self search display available →
  Py.truthy x = true.
Proof.
  unfold essential_candidates. intros [Hx|Hx]%elem_of_app.
  - by apply dedup_keep_order_elem in Hx as (_ & _ & ?).
  - apply list_filter_elem in Hx as (_ & Hx).
    by apply andb_true_iff in Hx as [? _].
Qed.

Lemma filter_dedup_none (keep : string → bool) (cols seen : list string) :
  (∀ x, x ∈ cols → keep x = false) →
  List.filter keep (dedup_keep_order cols seen) = [].
Proof.
  revert seen. induction cols as [|col cols IH]; intros seen Hnone; [done|].
  cbn [dedup_keep_order].
  destruct (Py.truthy col && negb (Py.mem col seen)).
  - cbn [List.filter]. rewrite (Hnone col) by left.
    apply IH. intros x Hx. apply Hnone. by right.
  - apply IH. intros x Hx. apply Hnone. by right.
Qed.

Lemma filter_dedup_single (keep : string → bool) (before after seen : list string)
    (c : string) :
  (∀ x, x ∈ before ++ after → keep x = false) →
  keep c = true → Py.truthy c = true → c ∉ seen →
  List.filter keep (dedup_keep_order (before ++ c :: after) seen) = [c].
Proof.
  revert seen. induction before as [|x before IH]; intros seen Hnone Hc Ht Hseen.
  - cbn [app dedup_keep_order]. apply mem_false in Hseen.
    rewrite Ht, Hseen. cbn [andb negb List.filter]. rewrite Hc.
    by rewrite filter_dedup_none.
  - cbn [app dedup_keep_order].
    assert (Hx : keep x = false) by (apply Hnone; left).
    assert (Hrest : ∀ y, y ∈ before ++ after → keep y = false).
    { intros y Hy. apply Hnone. by right. }
    destruct (Py.truthy x && negb (Py.mem x seen)).
    + cbn [List.filter]. rewrite Hx. apply IH; try done.
      intros [Hin| ->%list_elem_of_singleton]%elem_of_app; [done|congruence].
    + by apply IH.
Qed.

(** The projection keeps the auto-detected sort column although no
    configured or required field is in the schema. *)
Lemma sort_column_alone_is_projected :
  let self :=
    {| file_path_str := "data.parquet"; is_url := false;
       file_path := "data.parquet"; category := Some "dataA";
       subcategory := Some "safetykorea"; result_type := None;
       required_fields := ["download_only"];
       dynamic_required_fields := [] |} in
  _get_essential_columns self ["제품명"] ["업체명"] ["cert_date"; "x"]
  = quoted EmptyString "cert_date"
  ∧ _get_essential_columns self ["제품명"] ["업체명"] ["cert_date"; "x"] ≠ "*"
  ∧ ∀ c, c ∈ ["제품명"; "업체명"; "download_only"] → c ∉ ["cert_date"; "x"].
Proof.
  split; [reflexivity|]. split; [discriminate|].
  intros c Hc. apply mem_false. each_member Hc; reflexivity.
Qed.

Lemma discover_schema_raises url_path path_name engine_schema
    resolves_tabular detected_structure reenter self st :
  engine_schema (introspections st) (cache_key_of self) = None →
  is_url self && negb (is_tabular_name (file_path_str self)) = false →
  fst (discover_schema url_path path_name engine_schema resolves_tabular
         detected_structure reenter self st)
  = [].
Proof.
  intros Hengine Htab. unfold discover_schema.
  by rewrite Htab, Hengine.
Qed.

Lemma blob_mapping_none_keeps_state str_lower cache_key file_name st :
  fst (_try_duckdb_blob_schema_mapping str_lower cache_key file_name st) = None
  → snd (_try_duckdb_blob_schema_mapping str_lower cache_key file_name st) = st.
Proof.
  unfold _try_duckdb_blob_schema_mapping.
  destruct file_name as [name|]; [|done].
  destruct (negb (Py.truthy cache_key) || negb (Py.truthy name)); [done|].
  destruct (negb _); [done|].
  destruct (matched_dataset_of _) as [matched|]; [|done].
  by destruct (List.find _ _).
Qed.

Lemma cached_schema_none_keeps_state str_lower cache_key file_name st :
  fst (cached_schema str_lower cache_key file_name st) = None →
  snd (cached_schema str_lower cache_key file_name st) = st.
Proof.
  unfold cached_schema.
  destruct (SCHEMA_CACHE_BY_URL st !! cache_key); [done|].
  destruct (if name_truthy file_name then _ else _); [done|].
  apply blob_mapping_none_keeps_state.
Qed.

(** [_get_available_fields] is its body run on the nested call. *)
Lemma get_available_fields_body str_lower url_path path_name engine_schema
    resolves_tabular detected_structure frames self st :
  _get_available_fields str_lower url_path path_name engine_schema
    resolves_tabular detected_structure frames self st
  = lookup_or_discover str_lower url_path path_name engine_schema
      resolves_tabular detected_structure
      (match frames with
       | O => fun st' => st'
       | S frames' =>
           fun st' =>
             snd (_get_available_fields str_lower url_path path_name
                    engine_schema resolves_tabular detected_structure
                    frames' self st')
       end)
      self st.
Proof. by destruct frames. Qed.

(** C8, amended. When the schema query raises, for a dynamic-schema
    locator as on a cache miss, the available-field list is empty and
    nothing is propagated (a remote locator that is not tabular never
    asks the engine). The projection is the wildcard when the processor
    has no category or no subcategory, when the available-field list is
    empty, and when no column among the configured search and display
    fields, the auto-detected sort column, the required fields and the
    dynamically required fields is in the schema; it is never empty
    text. For a processor with a category and a subcategory, when the
    schema has a sort column and none of the search, display, required
    and dynamically required fields, the projection is that sort column
    alone. *)
Theorem schema_unresolvable_degrades (str_lower : string → string)
    (url_path path_name : string → string)
    (engine_schema : nat → string → option (list string))
    (resolves_tabular : DuckDBProcessor → bool)
    (detected_structure : DuckDBProcessor → json_structure)
    (frames : nat) (self : DuckDBProcessor) (st : schema_state)
    (search display available : list string) :
  ((∀ n, engine_schema n (cache_key_of self) = None) →
   is_url self && negb (is_tabular_name (file_path_str self)) = false →
   _should_use_dynamic_schema (cache_key_of self)
     (_extract_file_name url_path path_name (cache_key_of self)) = true
   ∨ fst (cached_schema str_lower (cache_key_of self)
            (_extract_file_name url_path path_name (cache_key_of self)) st) = None →
   fst (_get_available_fields str_lower url_path path_name engine_schema
          resolves_tabular detected_structure frames self st) = [])
  ∧ _get_essential_columns self search display [] = "*"
  ∧ (option_missing (category self) || option_missing (subcategory self)
     = true →
     _get_essential_columns self search display available = "*")
  ∧ ((∀ c, c ∈ essential_candidates self search display available →
           c ∉ available) →
     _get_essential_columns self search display available = "*")
  ∧ _get_essential_columns self search display available ≠ EmptyString
  ∧ (∀ c,
       option_missing (category self) || option_missing (subcategory self)
       = false →
       first_available sort_column_candidates available c →
       (∀ col, col ∈ search ++ display ++ required_fields self
                     ++ dynamic_required_fields self →
               col ∉ available) →
       _get_essential_columns self search display available
       = quoted EmptyString c).
Proof.
  split; [|split; [|split; [|split; [|split]]]].
  - intros Hraise Htab Hmiss. rewrite get_available_fields_body.
    unfold lookup_or_discover.
    destruct (_should_use_dynamic_schema _ _) eqn:Hdyn.
    + by apply discover_schema_raises.
    + destruct Hmiss as [|Hmiss]; [done|].
      pose proof (cached_schema_none_keeps_state _ _ _ _ Hmiss) as Hst.
      destruct (cached_schema _ _ _ _) as [cached st']. simpl in *. subst.
      by apply discover_schema_raises.
  - unfold _get_essential_columns. by destruct (_ || _).
  - intros Hmissing. unfold _get_essential_columns. by rewrite Hmissing.
  - intros Hnone. unfold _get_essential_columns.
    destruct (_ || _); [done|]. destruct available as [|a av]; [done|].
    by rewrite (filter_mem_nil _ _ Hnone).
  - unfold _get_essential_columns.
    destruct (_ || _); [done|]. destruct available as [|a av]; [done|].
    destruct (List.filter _ _) as [|c cs] eqn:Hf; [done|].
    by apply join_quoted_nonempty.
  - intros c Hconfigured Hsort Hnone. unfold _get_essential_columns.
    rewrite Hconfigured.
    assert (Hc : c ∈ available) by by destruct Hsort as (? & ? & _ & ? & _).
    destruct available as [|a av] eqn:Hav; [by apply elem_of_nil in Hc|].
    rewrite <- Hav in *. clear Hav a av.
    unfold essential_candidates.
    rewrite (first_in_Some _ _ _ Hsort), List.filter_app.
    assert (Hdynamic :
      List.filter (fun col => Py.mem col available)
        (List.filter
           (fun col =>
              Py.truthy col
              && negb (Py.mem col
                         (search ++ display ++ [c] ++ required_fields self)))
           (dynamic_required_fields self)) = []).
    { apply filter_mem_nil. intros x Hx.
      apply list_filter_elem in Hx as [Hx _]. apply Hnone.
      rewrite !elem_of_app. auto. }
    rewrite Hdynamic, app_nil_r.
    replace (search ++ display ++ [c] ++ required_fields self)
      with ((search ++ display) ++ c :: required_fields self)
      by by rewrite <- app_assoc.
    rewrite (filter_dedup_single _ _ _ _ c); [done| | | |].
    + intros x Hx. apply mem_false, Hnone.
      rewrite !elem_of_app in *. tauto.
    + by apply mem_true.
    + eapply candidates_truthy; [|by eapply first_available_elem]. done.
    + apply not_elem_of_nil.
Qed.

Lemma schema_unresolvable_degrades_witness :
  let self :=
    {| file_path_str := "https://host/bucket/6_approval_flattened.parquet";
       is_url := true;
       file_path := "https://host/bucket/6_approval_flattened.parquet";
       category := Some "dataA"; subcategory := Some "approval";
       result_type := None; required_fields := [];
       dynamic_required_fields := [] |} in
  let st := {| SCHEMA_CACHE_BY_URL := ∅; SCHEMA_CACHE_BY_FILENAME := ∅;
               introspections := 0 |} in
  fst (_get_available_fields Py.lower Py.url_path Py.path_name
         (fun _ _ => None) (fun _ => true) (fun _ => parquet) 0 self st) = []
  ∧ _get_essential_columns self ["제품명"] ["업체명"] ["x"; "y"] = "*"
  ∧ _get_essential_columns self ["제품명"] ["업체명"] ["cert_date"; "x"]
    = quoted EmptyString "cert_date".
Proof.
  intros self st.
  destruct (schema_unresolvable_degrades Py.lower Py.url_path Py.path_name
              (fun _ _ => None) (fun _ => true) (fun _ => parquet) 0 self st
              ["제품명"] ["업체명"] ["x"; "y"])
    as (Hfields & _ & _ & Hproj & _).
  split; [|split].
  - apply Hfields; [done | reflexivity | right; reflexivity].
  - apply Hproj. intros c Hc. apply mem_false.
    vm_compute in Hc. each_member Hc; reflexivity.
  - destruct (schema_unresolvable_degrades Py.lower Py.url_path Py.path_name
                (fun _ _ => None) (fun _ => true) (fun _ => parquet) 0 self st
                ["제품명"] ["업체명"] ["cert_date"; "x"])
      as (_ & _ & _ & _ & _ & Hsort).
    apply Hsort; [reflexivity| |].
    + exists [], ["crawl_date"; "crawled_at"; "설립일"].
      split; [reflexivity|]. split; [apply mem_true; reflexivity|].
      intros x Hx. by apply elem_of_nil in Hx.
    + intros col Hcol. apply mem_false. cbn in Hcol.
      each_member Hcol; reflexivity.
Defined.

(** ** Streaming and collecting (C1) *)

Section Streaming.

Variable type_repr : value → string.
Variable value_str : value → string.
Variable sink_raises : callback.
Variable fetch_raises : nat → bool.

Lemma take_record_streaming_results rec st :
  results (take_record true rec st) = results st.
Proof. unfold take_record. by destruct (dict_get _ _). Qed.

Lemma process_batch_streaming_results using_parquet structure description
    effective_limit batch st :
  results (process_batch type_repr value_str using_parquet structure
             description true effective_limit batch st)
  = results st.
Proof.
  revert st. induction batch as [|row batch IH]; intros st; simpl; [done|].
  destruct (row_record _ _ _ _ _ _) as [[|kv rec]|]; [apply IH| |apply IH].
  destruct (limit_reached _ _).
  - apply take_record_streaming_results.
  - rewrite IH. apply take_record_streaming_results.
Qed.

Lemma flush_results streaming_mode st :
  results (flush sink_raises streaming_mode st) = results st.
Proof.
  unfold flush. destruct streaming_mode; [|done]. by destruct (chunk_buffer st).
Qed.

Lemma fetch_loop_streaming_results fuel using_parquet structure description
    effective_limit batch_fetch_size fetched cursor st :
  results (fetch_loop type_repr value_str sink_raises fetch_raises fuel
             using_parquet structure description true effective_limit
             batch_fetch_size fetched cursor st)
  = results st.
Proof.
  revert fetched cursor st.
  induction fuel as [|fuel IH]; intros fetched cursor st; cbn [fetch_loop];
    [done|].
  destruct (fetch_raises fetched); [done|].
  destruct (take batch_fetch_size cursor) as [|row batch]; [done|].
  destruct (batch_error _);
    [by rewrite flush_results, process_batch_streaming_results|].
  destruct (limit_reached _ _).
  - by rewrite flush_results, process_batch_streaming_results.
  - by rewrite IH, flush_results, process_batch_streaming_results.
Qed.

(** The fuel [_execute_query] is run with, one more than the number of
    rows, is enough: more fuel changes nothing. *)
Lemma fetch_loop_fuel_enough fuel fuel' using_parquet structure description
    streaming_mode effective_limit batch_fetch_size fetched cursor st :
  (length cursor < fuel)%nat → (length cursor < fuel')%nat →
  fetch_loop type_repr value_str sink_raises fetch_raises fuel using_parquet
    structure description streaming_mode effective_limit batch_fetch_size
    fetched cursor st
  = fetch_loop type_repr value_str sink_raises fetch_raises fuel'
      using_parquet structure description streaming_mode effective_limit
      batch_fetch_size fetched cursor st.
Proof.
  revert fuel' fetched cursor st.
  induction fuel as [|fuel IH]; intros [|fuel'] fetched cursor st Hfuel Hfuel';
    [lia..|].
  cbn [fetch_loop].
  destruct (fetch_raises fetched); [done|].
  destruct (take batch_fetch_size cursor) as [|row batch] eqn:Htake; [done|].
  destruct (batch_error _); [done|].
  destruct (limit_reached _ _); [done|].
  assert (Hshort : (length (drop batch_fetch_size cursor) < length cursor)%nat).
  { rewrite length_drop.
    destruct cursor as [|r c]; [by destruct batch_fetch_size|].
    destruct batch_fetch_size; [done|]. cbn [length]. lia. }
  apply IH; lia.
Qed.

(** In streaming mode nothing is ever stored in [results], so the total
    count decided after the loop is 0 whatever was streamed. *)
Lemma streaming_total_count_zero (src : source) (effective_limit : option Z)
    (chunk_size : nat) (description : list string)
    (rows : list (list value)) :
  let st := run_rows type_repr value_str fetch_raises sink_raises src true
              effective_limit chunk_size description rows in
  final_total_count (results st) (total_count_window st) (total_processed st)
  = VInt 0.
Proof.
  intros st. subst st. unfold run_rows.
  destruct (batch_error _); [|rewrite flush_results];
    by rewrite fetch_loop_streaming_results.
Qed.

End Streaming.

(** Whatever the locator, keyword, field, filters and callback, a
    streaming run that returns a page reports a total count of 0. *)
Theorem streaming_reports_zero_total (str_lower : string → string)
    (case_config : CaseConfig) (type_repr value_str : value → string)
    (engine_execute :
       string → list value → error + (list string * list (list value)))
    (fetch_raises : nat → bool) (size_text : Q → string)
    (fs : filesystem) (self : DuckDBProcessor) (src : source)
    (keyword : option string) (search_field : string) (limit : option Z)
    (page : Z) (filters : option Filters) (sink_raises : callback)
    (chunk_size : nat) (r : page_result) :
  search_streaming str_lower case_config type_repr value_str engine_execute
    fetch_raises size_text fs self src keyword search_field limit page
    filters false (Some sink_raises) chunk_size
  = Page r →
  total_count (page_pagination r) = VInt 0.
Proof.
  unfold search_streaming. cbn [negb andb callback_given default].
  destruct (_get_file_size_mb fs self) as [e|size]; [done|].
  destruct (base_query src) as [e|base];
    [unfold failure; by destruct (_ || _)|].
  destruct (engine_execute _ _) as [e|[description rows]];
    [unfold failure; by destruct (_ || _)|].
  rewrite streaming_total_count_zero.
  unfold pagination_of.
  destruct (effective_limit_of limit) as [l|].
  - destruct (l =? 0); intros [= <-]; done.
  - intros [= <-]. done.
Qed.

(** C1 at a dataset with two matching rows: collecting them reports a
    total of 2; streaming them hands both rows to the sink in one chunk,
    with a processed count of 2, and reports a total of 0. *)
Theorem streaming_and_collect_totals_differ :
  ∃ collected streamed,
    export_run true = Page collected
    ∧ export_run false = Page streamed
    ∧ query_text collected = query_text streamed
    ∧ total_count (page_pagination collected) = VInt 2
    ∧ length (page_results collected) = 2%nat
    ∧ sink_calls streamed
      = [([[("company_name", VStr "Acme"); ("cert_date", VStr "20240101")];
           [("company_name", VStr "Acme Labs");
            ("cert_date", VStr "20230101")]], 2)]
    ∧ processed_records streamed = 2
    ∧ total_count (page_pagination streamed) = VInt 0.
Proof.
  eexists _, _. split; [vm_compute; reflexivity|].
  split; [vm_compute; reflexivity|].
  vm_compute. repeat split.
Qed.

(** ** Schema cache (C6) *)

Section SchemaCache.

Variable str_lower : string → string.
Variable url_path : string → string.
Variable path_name : string → string.
Variable engine_schema : nat → string → option (list string).
Variable resolves_tabular : DuckDBProcessor → bool.
Variable detected_structure : DuckDBProcessor → json_structure.
Variable self : DuckDBProcessor.

Let key := cache_key_of self.
Let get (frames : nat) :=
  _get_available_fields str_lower url_path path_name engine_schema
    resolves_tabular detected_structure frames self.
Let nested (frames : nat) : schema_state → schema_state :=
  match frames with
  | O => fun st' => st'
  | S frames' => fun st' => snd (get frames' st')
  end.
Let discover (frames : nat) :=
  discover_schema url_path path_name engine_schema resolves_tabular
    detected_structure (nested frames) self.
Let reenters := discovery_reenters resolves_tabular detected_structure self.


Lemma get_miss frames st :
  _should_use_dynamic_schema key (_extract_file_name url_path path_name key) = false →
  fst (cached_schema str_lower key (_extract_file_name url_path path_name key) st) = None →
  get frames st = discover frames st.
Proof.
  intros Hdyn Hmiss. unfold get. rewrite get_available_fields_body.
  unfold lookup_or_discover. fold key. rewrite Hdyn.
  pose proof (cached_schema_none_keeps_state _ _ _ _ Hmiss) as Hst.
  destruct (cached_schema _ _ _ _) as [cached st']. simpl in *. by subst.
Qed.


(** Counting a discovery run leaves the cache lookups as they were. *)
Lemma cached_miss_count file_name st :
  fst (cached_schema str_lower key file_name st) = None →
  fst (cached_schema str_lower key file_name (count_introspection st)) = None.
Proof.
  unfold cached_schema, _try_duckdb_blob_schema_mapping.
  cbn [count_introspection SCHEMA_CACHE_BY_URL SCHEMA_CACHE_BY_FILENAME].
  destruct (SCHEMA_CACHE_BY_URL st !! key); [done|].
  destruct (if name_truthy file_name then _ else _); [done|].
  destruct file_name as [name|]; [|done].
  destruct (negb (Py.truthy key) || negb (Py.truthy name)); [done|].
  destruct (negb _); [done|].
  destruct (matched_dataset_of _) as [matched|]; [|done].
  by destruct (List.find _ _).
Qed.


Lemma cache_schema_stored st cols :
  _should_use_dynamic_schema key (_extract_file_name url_path path_name key) = false →
  Py.truthy key = true →
  SCHEMA_CACHE_BY_URL (_cache_schema url_path path_name self cols st) !! key = Some cols
  ∧ introspections (_cache_schema url_path path_name self cols st) = introspections st.
Proof.
  intros Hdyn Hkey. unfold _cache_schema. fold key. rewrite Hdyn, Hkey.
  simpl. split; [apply lookup_insert_eq | done].
Qed.

Lemma remote_never_reenters :
  is_url self = true → reenters = false.
Proof. intros Hurl. unfold reenters, discovery_reenters. by rewrite Hurl. Qed.

Lemma cache_schema_other st cols key' :
  key' ≠ key →
  SCHEMA_CACHE_BY_URL (_cache_schema url_path path_name self cols st) !! key'
  = SCHEMA_CACHE_BY_URL st !! key'.
Proof.
  intros Hne. unfold _cache_schema. fold key.
  destruct (_should_use_dynamic_schema _ _); [done|].
  cbn [SCHEMA_CACHE_BY_URL]. destruct (Py.truthy key); [|done].
  by rewrite lookup_insert_ne.
Qed.

Lemma cache_schema_named st cols name :
  _should_use_dynamic_schema key (_extract_file_name url_path path_name key) = false →
  _extract_file_name url_path path_name key = Some name →
  Py.truthy name = true →
  SCHEMA_CACHE_BY_FILENAME (_cache_schema url_path path_name self cols st)
    !! name = Some cols.
Proof.
  intros Hdyn Hname Htruthy. unfold _cache_schema. fold key.
  rewrite Hdyn, Hname, Htruthy.
  cbn [SCHEMA_CACHE_BY_FILENAME]. apply lookup_insert_eq.
Qed.

(** The state after the nested call of a discovery that missed, given
    what every shallower call does. *)
Lemma nested_after_miss frames st :
  fst (cached_schema str_lower key
         (_extract_file_name url_path path_name key) st) = None →
  (∀ frames' st', frames = S frames' →
     fst (cached_schema str_lower key
            (_extract_file_name url_path path_name key) st') = None →
     introspections (snd (get frames' st'))
     = (introspections st' + (if reenters then S frames' else 1))%nat
     ∧ ∀ key', key' ≠ key →
         SCHEMA_CACHE_BY_URL (snd (get frames' st')) !! key'
         = SCHEMA_CACHE_BY_URL st' !! key') →
  let st2 :=
    if reenters then nested frames (count_introspection st)
    else count_introspection st in
  introspections st2
  = (introspections st + (if reenters then S frames else 1))%nat
  ∧ ∀ key', key' ≠ key →
      SCHEMA_CACHE_BY_URL st2 !! key' = SCHEMA_CACHE_BY_URL st !! key'.
Proof.
  intros Hmiss. destruct reenters; intros IH; cbn zeta;
    [|split; [cbn; lia|done]].
  destruct frames as [|frames']; [split; [cbn; lia|done]|].
  cbn [nested].
  destruct (IH frames' _ eq_refl (cached_miss_count _ _ Hmiss))
    as [Hcount Hother].
  split; [rewrite Hcount; cbn; lia|].
  intros key' Hne. by rewrite Hother.
Qed.



(** A cached-schema locator on a cache miss: every level of the
    discovery misses on its way down and counts one run; the outermost
    level, when its query succeeds, writes the by-locator entry last. *)
Lemma missed_discovery frames st :
  _should_use_dynamic_schema key (_extract_file_name url_path path_name key) = false →
  Py.truthy key = true →
  fst (cached_schema str_lower key (_extract_file_name url_path path_name key) st) = None →
  (introspections (snd (get frames st))
   = (introspections st + (if reenters then S frames else 1))%nat
   ∧ ∀ key', key' ≠ key →
       SCHEMA_CACHE_BY_URL (snd (get frames st)) !! key'
       = SCHEMA_CACHE_BY_URL st !! key')
  ∧ ∀ cols, introspection_yields engine_schema self st cols →
            fst (get frames st) = cols
            ∧ SCHEMA_CACHE_BY_URL (snd (get frames st)) !! key = Some cols
            ∧ ∀ name,
                _extract_file_name url_path path_name key = Some name →
                Py.truthy name = true →
                SCHEMA_CACHE_BY_FILENAME (snd (get frames st)) !! name
                = Some cols.
Proof.
  intros Hdyn Hkey. revert st.
  induction frames as [|depth IH]; intros st Hmiss;
    rewrite get_miss by done;
    unfold discover, discover_schema, introspection_yields; fold reenters.
  all: destruct (is_url self && negb _) eqn:Hurl;
    [ apply andb_prop in Hurl as [Hurl _];
      rewrite (remote_never_reenters Hurl);
      destruct (cache_schema_stored (count_introspection st)
                  default_json_fields Hdyn Hkey) as [Hstored Hcount];
      cbn [fst snd]; rewrite Hcount;
      split;
      [ split; [cbn; lia|];
        intros key' Hne; by rewrite cache_schema_other
      | intros cols ->; split; [done|]; split; [done|];
        intros name Hname Htruthy; by apply cache_schema_named ]
    | ].
  all: match goal with
       | |- context [nested ?n _] =>
           pose proof (nested_after_miss n st Hmiss) as Hnested
       end.
  - destruct Hnested as [Hcount2 Hother2]; [by intros ? ? [=]|].
    destruct (engine_schema (introspections st) (cache_key_of self))
      as [columns|] eqn:Hengine.
    + match goal with
      | |- context [_cache_schema _ _ _ _ ?st2] =>
          destruct (cache_schema_stored st2 columns Hdyn Hkey)
            as [Hstored Hcount]
      end.
      cbn [fst snd]. rewrite Hcount.
      split;
        [ split; [done|];
          intros key' Hne; rewrite cache_schema_other by done;
          by apply Hother2
        | intros cols [= <-]; split; [done|]; split; [done|];
          intros name Hname Htruthy; by apply cache_schema_named ].
    + cbn [fst snd]. split; [by split|]. by intros cols [=].
  - destruct Hnested as [Hcount2 Hother2].
    { intros frames' st' [= <-] Hmiss'. by destruct (IH st' Hmiss'). }
    destruct (engine_schema (introspections st) (cache_key_of self))
      as [columns|] eqn:Hengine.
    + match goal with
      | |- context [_cache_schema _ _ _ _ ?st2] =>
          destruct (cache_schema_stored st2 columns Hdyn Hkey)
            as [Hstored Hcount]
      end.
      cbn [fst snd]. rewrite Hcount.
      split;
        [ split; [done|];
          intros key' Hne; rewrite cache_schema_other by done;
          by apply Hother2
        | intros cols [= <-]; split; [done|]; split; [done|];
          intros name Hname Htruthy; by apply cache_schema_named ].
    + cbn [fst snd]. split; [by split|]. by intros cols [=].
Qed.


End SchemaCache.


(** A local JSON array of a processor with a category and a subcategory:
    the discovery calls the function again before anything is cached, so
    with room for two nested calls one call runs the discovery block
    three times. *)
Lemma nested_discovery_runs_per_call :
  let self :=
    {| file_path_str := "data.json"; is_url := false;
       file_path := "data.json"; category := Some "dataA";
       subcategory := Some "safetykorea"; result_type := None;
       required_fields := []; dynamic_required_fields := [] |} in
  let get :=
    _get_available_fields Py.lower Py.url_path Py.path_name
      (fun _ _ => Some ["업체명"]) (fun _ => false) (fun _ => array) 2 self in
  _should_use_dynamic_schema (cache_key_of self)
    (_extract_file_name Py.url_path Py.path_name (cache_key_of self)) = false
  ∧ fst (get empty_schema_state) = ["업체명"]
  ∧ introspections (snd (get empty_schema_state)) = 3%nat
  ∧ introspections (snd (get (snd (get empty_schema_state)))) = 3%nat.
Proof. vm_compute. repeat split. Qed.


(** ** Parameter binding (C9) *)

Lemma clauses_alike_refl a : clauses_alike a a.
Proof. by split. Qed.

Lemma add_clauses_alike a a' b b' :
  clauses_alike a a' → clauses_alike b b' →
  clauses_alike (add_clauses a b) (add_clauses a' b').
Proof.
  intros [Ha1 Ha2] [Hb1 Hb2]. unfold clauses_alike, add_clauses. simpl.
  rewrite Ha1, Hb1, !length_app, Ha2, Hb2. done.
Qed.

Lemma when_some_alike {A : Type} (a b : option A) (f : A → clauses) :
  same_presence a b →
  (∀ x y, clauses_alike (f x) (f y)) →
  clauses_alike (when_some a f) (when_some b f).
Proof.
  destruct a, b; simpl; try done; intros _ _; apply clauses_alike_refl.
Qed.

Section Binding.

Variable str_lower : string → string.
Variable case_config : CaseConfig.

Lemma date_range_alike_clauses table_alias available a b :
  date_range_alike a b →
  clauses_alike (date_range_clauses table_alias available a)
    (date_range_clauses table_alias available b).
Proof.
  intros [Hstart Hend]. unfold date_range_clauses.
  destruct (usable_column date_columns available);
    [|apply clauses_alike_refl].
  apply add_clauses_alike; by apply when_some_alike.
Qed.

Lemma map_const_length {A B : Type} (c : B) (a b : list A) :
  length a = length b →
  List.map (fun _ => c) a = List.map (fun _ => c) b.
Proof.
  revert b. induction a as [|x a IH]; intros [|y b] Hlen; simpl in *;
    try done.
  f_equal. apply IH. lia.
Qed.

Lemma certification_type_alike_clauses table_alias available a b :
  same_length a b →
  clauses_alike (certification_type_clauses table_alias available a)
    (certification_type_clauses table_alias available b).
Proof.
  unfold same_length, certification_type_clauses. intros Hlen.
  destruct a as [|x a], b as [|y b]; simpl in Hlen; try done.
  destruct (usable_column cert_columns available);
    [|apply clauses_alike_refl].
  split; simpl.
  - do 4 f_equal. rewrite (map_const_length "?" a b) by lia. done.
  - rewrite !length_map. lia.
Qed.

Lemma company_type_alike_clauses table_alias available a b :
  company_type_alike a b →
  clauses_alike (company_type_clauses table_alias available a)
    (company_type_clauses table_alias available b).
Proof.
  intros [Hm Hi]. unfold company_type_clauses. rewrite Hm, Hi.
  apply clauses_alike_refl.
Qed.

Lemma exclude_one_alike table_alias product company kw kw' :
  clauses_alike (exclude_one str_lower table_alias product company kw)
    (exclude_one str_lower table_alias product company kw').
Proof.
  unfold exclude_one. by destruct product, company.
Qed.

Lemma exclude_fold_alike table_alias product company a b acc acc' :
  same_length a b → clauses_alike acc acc' →
  clauses_alike
    (fold_left
       (fun acc kw =>
          add_clauses acc (exclude_one str_lower table_alias product company kw))
       a acc)
    (fold_left
       (fun acc kw =>
          add_clauses acc (exclude_one str_lower table_alias product company kw))
       b acc').
Proof.
  unfold same_length. revert b acc acc'.
  induction a as [|x a IH]; intros [|y b] acc acc' Hlen Hacc; simpl in *;
    try done.
  apply IH; [lia|]. apply add_clauses_alike; [done|apply exclude_one_alike].
Qed.

Lemma exclude_keywords_alike_clauses table_alias available a b :
  same_length a b →
  clauses_alike (exclude_keywords_clauses str_lower table_alias available a)
    (exclude_keywords_clauses str_lower table_alias available b).
Proof.
  intros Hlen. unfold exclude_keywords_clauses.
  apply exclude_fold_alike; [done|apply clauses_alike_refl].
Qed.

Lemma numeric_range_alike_clauses table_alias a b :
  numeric_range_alike a b →
  clauses_alike (numeric_range_clauses table_alias a)
    (numeric_range_clauses table_alias b).
Proof.
  intros (Hfield & Hmin & Hmax). unfold numeric_range_clauses.
  rewrite Hfield. apply add_clauses_alike; by apply when_some_alike.
Qed.

Lemma when_some_rel {A : Type} (R : A → A → Prop) (a b : option A)
    (f : A → clauses) :
  option_rel R a b →
  (∀ x y, R x y → clauses_alike (f x) (f y)) →
  clauses_alike (when_some a f) (when_some b f).
Proof.
  destruct a, b; simpl; try done; auto; intros _ _; apply clauses_alike_refl.
Qed.

Lemma filter_clauses_alike table_alias available f g :
  same_shape f g →
  clauses_alike (filter_clauses str_lower table_alias available f)
    (filter_clauses str_lower table_alias available g).
Proof.
  intros (Hdate & Hcert & Hcompany & Hexclude & Hnumeric).
  unfold filter_clauses.
  repeat apply add_clauses_alike.
  - eapply when_some_rel; [done|]. apply date_range_alike_clauses.
  - eapply when_some_rel; [done|]. apply certification_type_alike_clauses.
  - eapply when_some_rel; [done|]. apply company_type_alike_clauses.
  - eapply when_some_rel; [done|]. apply exclude_keywords_alike_clauses.
  - eapply when_some_rel; [done|]. apply numeric_range_alike_clauses.
Qed.

Lemma filters_empty_alike f g :
  same_shape f g → filters_empty f = filters_empty g.
Proof.
  intros (Hdate & Hcert & Hcompany & Hexclude & Hnumeric).
  unfold filters_empty.
  destruct (date_range f), (date_range g); try done;
  destruct (certification_type f), (certification_type g); try done;
  destruct (company_type f), (company_type g); try done;
  destruct (exclude_keywords f), (exclude_keywords g); try done;
  destruct (numeric_range f), (numeric_range g); done.
Qed.

(** The filter predicate of two dictionaries of the same shape: the same
    text, as many parameters. *)
Lemma filter_conditions_alike table_alias available f g :
  option_rel same_shape f g →
  fst (_build_filter_conditions str_lower f table_alias available)
  = fst (_build_filter_conditions str_lower g table_alias available)
  ∧ length (snd (_build_filter_conditions str_lower f table_alias available))
    = length (snd (_build_filter_conditions str_lower g table_alias available)).
Proof.
  destruct f as [f|], g as [g|]; try done.
  cbn [option_rel]. intros Hshape. unfold _build_filter_conditions.
  rewrite (filters_empty_alike f g Hshape).
  destruct (filters_empty g); [done|].
  destruct (filter_clauses_alike table_alias available f g Hshape)
    as [Htext Hlen].
  destruct (filter_clauses _ _ _ f) as [cf pf].
  destruct (filter_clauses _ _ _ g) as [cg pg].
  cbn [fst snd] in *. subst cg. destruct cf; by split.
Qed.

Lemma general_cond_text table_alias kw kw' field :
  render_cond (fst (general_cond str_lower case_config table_alias kw field))
  = render_cond (fst (general_cond str_lower case_config table_alias kw' field)).
Proof.
  unfold general_cond, _get_search_pattern_and_operator.
  destruct (Py.mem field cert_number_fields); [done|].
  by destruct (_is_field_case_insensitive case_config field).
Qed.

Lemma where_form_alike self using_parquet structure available kw kw'
    search_field :
  Py.truthy kw = true → Py.truthy kw' = true →
  let w := _build_where_clause str_lower case_config self using_parquet
             structure available (Some kw) search_field in
  let w' := _build_where_clause str_lower case_config self using_parquet
              structure available (Some kw') search_field in
  where_clause w = where_clause w'
  ∧ length (where_parameters w) = length (where_parameters w')
  ∧ where_dynamic_required w = where_dynamic_required w'.
Proof.
  intros Hkw Hkw' w w'. subst w w'. unfold where_clause, where_parameters.
  split; [|split].
  - destruct (Py.mem search_field exact_match_fields) eqn:Hexact.
    + rewrite !build_where_business by done.
      destruct (List.filter _ _) as [|f fs]; [done|].
      cbn [List.map render_where]. rewrite !map_map. done.
    + rewrite !build_where_general by done.
      destruct (existing_search_fields _ _) as [|f fs]; [done|].
      cbn [List.map render_where]. rewrite !map_map. cbn [fst].
      f_equal. f_equal; [apply general_cond_text|].
      apply map_ext. intros. apply general_cond_text.
  - destruct (Py.mem search_field exact_match_fields) eqn:Hexact.
    + rewrite !build_where_business by done.
      destruct (List.filter _ _) as [|f fs]; [done|].
      cbn [List.map where_form_parameters length].
      by rewrite !length_map.
    + rewrite !build_where_general by done.
      destruct (existing_search_fields _ _) as [|f fs]; [done|].
      cbn [List.map where_form_parameters length].
      by rewrite !length_map.
  - unfold _build_where_clause, keyword_missing. rewrite Hkw, Hkw'.
    by destruct (Py.mem search_field exact_match_fields).
Qed.

End Binding.

Lemma combine_conditions_alike where_text filter_text
    (wp wp' fp fp' : list value) :
  length wp = length wp' → length fp = length fp' →
  fst (combine_conditions where_text wp filter_text fp)
  = fst (combine_conditions where_text wp' filter_text fp')
  ∧ length (snd (combine_conditions where_text wp filter_text fp))
    = length (snd (combine_conditions where_text wp' filter_text fp')).
Proof.
  intros Hw Hf. unfold combine_conditions.
  destruct (String.eqb where_text "1=1"), (String.eqb filter_text "1=1");
    simpl; rewrite ?length_app; split; try done; lia.
Qed.

Lemma combine_conditions_order where_text filter_text
    (wp fp : list value) :
  snd (combine_conditions where_text wp filter_text fp)
  = (if String.eqb where_text "1=1" then [] else wp)
    ++ (if String.eqb filter_text "1=1" then [] else fp).
Proof.
  unfold combine_conditions.
  by destruct (String.eqb where_text "1=1"), (String.eqb filter_text "1=1").
Qed.

(** Two filter sets that differ only in the company-type value compile
    to different SQL text, and neither binds a parameter. *)
Lemma company_type_changes_sql_text :
  fst (_build_filter_conditions Py.lower (only_company_type "manufacturer")
         EmptyString ["수입자"])
  ≠ fst (_build_filter_conditions Py.lower (only_company_type "importer")
           EmptyString ["수입자"])
  ∧ snd (_build_filter_conditions Py.lower (only_company_type "manufacturer")
           EmptyString ["수입자"]) = []
  ∧ snd (_build_filter_conditions Py.lower (only_company_type "importer")
           EmptyString ["수입자"]) = [].
Proof. vm_compute. split; [discriminate | by split]. Qed.

(** The column name of a numeric-range filter is taken from the filter
    dictionary and written into the SQL text as it comes. *)
Example numeric_range_field_in_text :
  _build_filter_conditions Py.lower
    (Some {| date_range := None; certification_type := None;
             company_type := None; exclude_keywords := None;
             numeric_range :=
               Some {| nr_field := Some "x) OR (1=1"; nr_min := Some (VInt 0);
                       nr_max := None |} |})
    EmptyString []
  = ("TRY_CAST(" +:+ dquote +:+ "x) OR (1=1" +:+ dquote
       +:+ " AS DOUBLE) >= ?",
     [VInt 0]).
Proof. reflexivity. Qed.

(** ** The rows streamed are the rows collected *)

Section Rows.

Variable type_repr : value → string.
Variable value_str : value → string.
Variable sink_raises : callback.
Variable fetch_raises : nat → bool.
Variable using_parquet : bool.
Variable structure : json_structure.
Variable description : list string.

Local Abbreviation kept_records :=
  (accepted_records type_repr value_str using_parquet structure description).

Lemma take_record_kept streaming_mode rec st :
  take_record streaming_mode rec st
  = {| results :=
         if streaming_mode then results st
         else results st ++ [strip_count rec];
       total_processed := total_processed st + 1;
       total_count_window :=
         match dict_get "total_count" rec with
         | Some v => v
         | None => total_count_window st
         end;
       chunk_buffer :=
         if streaming_mode then chunk_buffer st ++ [strip_count rec]
         else chunk_buffer st;
       sink := sink st;
       batch_error := batch_error st |}.
Proof. unfold take_record, strip_count. by destruct (dict_get _ _). Qed.

Lemma accepted_records_cons row rows :
  kept_records (row :: rows)
  = match row_record type_repr value_str using_parquet structure
            description row with
    | Some (kv :: rec) => strip_count (kv :: rec) :: kept_records rows
    | _ => kept_records rows
    end.
Proof.
  unfold accepted_records. cbn [omap list_omap].
  by destruct (row_record _ _ _ _ _ row) as [[|kv rec]|].
Qed.

Lemma accepted_records_split n rows :
  kept_records rows
  = kept_records (take n rows) ++ kept_records (drop n rows).
Proof.
  unfold accepted_records. by rewrite <- omap_app, take_drop.
Qed.

Lemma process_batch_unlimited streaming_mode batch st :
  let st' := process_batch type_repr value_str using_parquet structure
               description streaming_mode None batch st in
  results st'
  = (if streaming_mode then results st
     else results st ++ kept_records batch)
  ∧ chunk_buffer st'
    = (if streaming_mode then chunk_buffer st ++ kept_records batch
       else chunk_buffer st)
  ∧ sink st' = sink st
  ∧ batch_error st' = batch_error st
  ∧ total_processed st'
    = total_processed st + Z.of_nat (length (kept_records batch)).
Proof.
  revert st. induction batch as [|row batch IH]; intros st.
  - cbn. destruct streaming_mode; rewrite ?app_nil_r; repeat split; lia.
  - cbn [process_batch]. rewrite accepted_records_cons.
    destruct (row_record _ _ _ _ _ row) as [[|kv rec]|]; [apply IH| |apply IH].
    cbn [limit_reached].
    destruct (IH (take_record streaming_mode (kv :: rec) st))
      as (Hres & Hbuf & Hsink & Herr & Hcount).
    rewrite take_record_kept in *. cbn [results chunk_buffer sink
      total_processed batch_error] in *.
    rewrite Hres, Hbuf, Hsink, Herr, Hcount. cbn [length].
    destruct streaming_mode; rewrite <- ?app_assoc; repeat split; lia.
Qed.

(** One hand-over: the buffer goes to the sink, whether the call raises
    or not. *)
Lemma flush_handed st :
  handed (flush sink_raises true st) = handed st ++ chunk_buffer st
  ∧ total_processed (flush sink_raises true st) = total_processed st
  ∧ (batch_error st = false →
     batch_error (flush sink_raises true st) = false →
     chunk_buffer (flush sink_raises true st) = []).
Proof.
  unfold flush, handed. destruct (chunk_buffer st) as [|rec buffer] eqn:Hb.
  - rewrite Hb, app_nil_r. done.
  - cbn [sink chunk_buffer total_processed batch_error].
    rewrite map_app, concat_app. cbn. rewrite !app_nil_r.
    split; [done|]. split; [done|]. by intros _ ->.
Qed.

Lemma flush_quiet st :
  (∀ calls chunk count, sink_raises calls chunk count = false) →
  batch_error st = false →
  batch_error (flush sink_raises true st) = false.
Proof.
  intros Hquiet Herr. unfold flush.
  destruct (chunk_buffer st) as [|rec buffer]; [done|].
  cbn [batch_error]. apply Hquiet.
Qed.

(** Whatever the sink and the fetches do, the records handed over are
    the first records of the result, in order; when nothing raised, they
    are all of them. *)
Lemma fetch_loop_streaming_unlimited fuel batch_fetch_size fetched cursor st :
  (0 < batch_fetch_size)%nat → (length cursor < fuel)%nat →
  chunk_buffer st = [] → batch_error st = false →
  let st' := fetch_loop type_repr value_str sink_raises fetch_raises fuel
               using_parquet structure description true None
               batch_fetch_size fetched cursor st in
  (∃ rest, handed st ++ kept_records cursor = handed st' ++ rest)
  ∧ (batch_error st' = false →
     handed st' = handed st ++ kept_records cursor
     ∧ chunk_buffer st' = []
     ∧ total_processed st'
       = total_processed st + Z.of_nat (length (kept_records cursor))).
Proof.
  intros Hsize. revert fetched cursor st.
  induction fuel as [|fuel IH]; intros fetched cursor st Hfuel Hempty Herr;
    [lia|].
  cbn [fetch_loop]. cbn zeta.
  destruct (fetch_raises fetched).
  { split; [by eexists|]. done. }
  destruct (take batch_fetch_size cursor) as [|row batch] eqn:Htake.
  - destruct cursor as [|row cursor]; [|destruct batch_fetch_size; [lia|done]].
    cbn. rewrite app_nil_r. split; [by exists []; rewrite app_nil_r|].
    intros _. repeat split; [done|lia].
  - cbn [limit_reached]. rewrite <- Htake.
    destruct (process_batch_unlimited true (take batch_fetch_size cursor) st)
      as (_ & Hbuf & Hsink & Herr1 & Hcount).
    set (st1 := process_batch _ _ _ _ _ _ _ _ _) in *.
    destruct (flush_handed st1) as (Hhand & Hflushed & Hclear).
    assert (Hhanded :
      handed (flush sink_raises true st1)
      = handed st ++ kept_records (take batch_fetch_size cursor)).
    { rewrite Hhand. unfold handed. by rewrite Hsink, Hbuf, Hempty. }
    destruct (batch_error (flush sink_raises true st1)) eqn:Hraised.
    { split;
        [|intros Hok; pose proof (eq_trans (eq_sym Hok) Hraised);
          discriminate].
      exists (kept_records (drop batch_fetch_size cursor)).
      by rewrite Hhanded, <- app_assoc, <- accepted_records_split. }
    assert (Hshort : (length (drop batch_fetch_size cursor) < fuel)%nat).
    { rewrite length_drop.
      destruct cursor as [|r c]; [by destruct batch_fetch_size|].
      cbn [length] in *. lia. }
    assert (Hcleared : chunk_buffer (flush sink_raises true st1) = []).
    { apply Hclear; [by rewrite Herr1|done]. }
    destruct (IH (S fetched) (drop batch_fetch_size cursor)
                (flush sink_raises true st1) Hshort Hcleared Hraised)
      as ([rest Hrest] & Hdone).
    split.
    + exists rest. rewrite <- Hrest, Hhanded, <- app_assoc.
      by rewrite <- accepted_records_split.
    + intros Hok. destruct (Hdone Hok) as (Hall & Hbuffer & Htotal).
      rewrite Hall, Hbuffer, Htotal, Hhanded, Hflushed, Hcount.
      rewrite (accepted_records_split batch_fetch_size cursor).
      rewrite length_app, <- app_assoc. repeat split; lia.
Qed.

Lemma fetch_loop_streaming_quiet fuel batch_fetch_size fetched cursor st :
  (∀ n, fetch_raises n = false) →
  (∀ calls chunk count, sink_raises calls chunk count = false) →
  batch_error st = false →
  batch_error
    (fetch_loop type_repr value_str sink_raises fetch_raises fuel
       using_parquet structure description true None batch_fetch_size
       fetched cursor st)
  = false.
Proof.
  intros Hfetch Hquiet. revert fetched cursor st.
  induction fuel as [|fuel IH]; intros fetched cursor st Herr;
    cbn [fetch_loop]; [done|].
  rewrite Hfetch.
  destruct (take batch_fetch_size cursor) as [|row batch] eqn:Htake; [done|].
  destruct (process_batch_unlimited true (row :: batch) st)
    as (_ & _ & _ & Herr1 & _).
  set (st1 := process_batch _ _ _ _ _ _ _ _ _) in *.
  assert (Hflush : batch_error (flush sink_raises true st1) = false).
  { apply flush_quiet; [done|]. by rewrite Herr1. }
  rewrite Hflush. cbn [limit_reached]. by apply IH.
Qed.

Lemma fetch_loop_collect_unlimited fuel batch_fetch_size fetched cursor st :
  (∀ n, fetch_raises n = false) →
  (0 < batch_fetch_size)%nat → (length cursor < fuel)%nat →
  batch_error st = false →
  let st' := fetch_loop type_repr value_str sink_raises fetch_raises fuel
               using_parquet structure description false None
               batch_fetch_size fetched cursor st in
  results st' = results st ++ kept_records cursor
  ∧ total_processed st'
    = total_processed st + Z.of_nat (length (kept_records cursor)).
Proof.
  intros Hfetch Hsize. revert fetched cursor st.
  induction fuel as [|fuel IH]; intros fetched cursor st Hfuel Herr; [lia|].
  cbn [fetch_loop]. rewrite Hfetch.
  destruct (take batch_fetch_size cursor) as [|row batch] eqn:Htake.
  - destruct cursor as [|row cursor]; [|destruct batch_fetch_size; [lia|done]].
    cbn. rewrite app_nil_r. split; [done|lia].
  - cbn [limit_reached flush]. rewrite <- Htake.
    destruct (process_batch_unlimited false (take batch_fetch_size cursor) st)
      as (Hres & _ & _ & Herr1 & Hcount).
    set (st1 := process_batch _ _ _ _ _ _ _ _ _) in *.
    rewrite Herr1, Herr.
    assert (Hshort : (length (drop batch_fetch_size cursor) < fuel)%nat).
    { rewrite length_drop.
      destruct cursor as [|r c]; [by destruct batch_fetch_size|].
      cbn [length] in *. lia. }
    destruct (IH (S fetched) (drop batch_fetch_size cursor) st1 Hshort)
      as (Hrest & Htotal); [by rewrite Herr1|].
    rewrite Hrest, Htotal, Hres, Hcount.
    rewrite (accepted_records_split batch_fetch_size cursor).
    rewrite length_app, <- app_assoc.
    split; [done|lia].
Qed.

End Rows.

(** X1. Without a limit, with a positive chunk size and fetches that do
    not raise, the chunks handed to the sink are, put together, the
    first rows a collecting run returns, in order, whatever the sink
    does; when the sink never raises they are all of them, and both runs
    count as many processed rows. *)
Theorem streamed_rows_are_collected_rows (type_repr value_str : value → string)
    (fetch_raises : nat → bool) (sink_raises : callback)
    (src : source) (chunk_size : nat) (description : list string)
    (rows : list (list value)) :
  (0 < chunk_size)%nat →
  (∀ n, fetch_raises n = false) →
  let streamed := run_rows type_repr value_str fetch_raises sink_raises src
                    true None chunk_size description rows in
  let collected := run_rows type_repr value_str fetch_raises sink_raises src
                     false None chunk_size description rows in
  (∃ rest, results collected = concat (List.map fst (sink streamed)) ++ rest)
  ∧ total_processed collected = Z.of_nat (length (results collected))
  ∧ ((∀ calls chunk count, sink_raises calls chunk count = false) →
     concat (List.map fst (sink streamed)) = results collected
     ∧ total_processed streamed = total_processed collected).
Proof.
  intros Hsize Hfetch streamed collected. subst streamed collected.
  unfold run_rows.
  set (row_structure := if using_parquet src then parquet else structure src).
  destruct (fetch_loop_streaming_unlimited type_repr value_str sink_raises
              fetch_raises (using_parquet src) row_structure description
              (S (length rows)) chunk_size 0 rows loop_init Hsize)
    as ([rest Hprefix] & Hdone); [lia|done|done|].
  destruct (fetch_loop_collect_unlimited type_repr value_str sink_raises
              fetch_raises (using_parquet src) row_structure description
              (S (length rows)) 1000 0 rows loop_init Hfetch)
    as (Hres & Hcount); [lia|lia|done|].
  set (st := fetch_loop _ _ _ _ _ _ _ _ true _ _ _ _ _) in *.
  set (st' := fetch_loop _ _ _ _ _ _ _ _ false _ _ _ _ _) in *.
  change (flush sink_raises false st') with st'.
  assert (Hcollected : (if batch_error st' then st' else st') = st')
    by by destruct (batch_error st').
  rewrite Hcollected, Hres, Hcount. cbn [loop_init results total_processed app].
  cbn [handed loop_init sink List.map concat app] in Hprefix, Hdone.
  fold (handed st) in Hprefix.
  split; [|split; [lia|]].
  - destruct (batch_error st) eqn:Herr; [by exists rest|].
    destruct (Hdone eq_refl) as (Hall & Hbuf & _).
    assert (Hflush : flush sink_raises true st = st)
      by (unfold flush; by rewrite Hbuf).
    rewrite Hflush. exists []. by rewrite app_nil_r.
  - intros Hquiet.
    assert (Herr : batch_error st = false).
    { by apply fetch_loop_streaming_quiet. }
    rewrite Herr. destruct (Hdone Herr) as (Hall & Hbuf & Htotal).
    assert (Hflush : flush sink_raises true st = st)
      by (unfold flush; by rewrite Hbuf).
    rewrite Hflush. split; [done|]. rewrite Htotal. cbn. lia.
Qed.

Lemma streamed_rows_are_collected_rows_witness :
  (0 < 1)%nat
  ∧ concat
      (List.map fst
         (sink (run_rows (fun _ => EmptyString) (fun _ => EmptyString)
                  fetch_ok quiet one_table_source true None 1
                  ["company_name"; "total_count"]
                  [[VStr "Acme"; VInt 2]; [VStr "Acme Labs"; VInt 2]])))
    = [[("company_name", VStr "Acme")]; [("company_name", VStr "Acme Labs")]].
Proof.
  split; [lia|].
  destruct (streamed_rows_are_collected_rows (fun _ => EmptyString)
              (fun _ => EmptyString) fetch_ok quiet one_table_source 1
              ["company_name"; "total_count"]
              [[VStr "Acme"; VInt 2]; [VStr "Acme Labs"; VInt 2]])
    as (_ & _ & Hrows); [lia|done|].
  destruct Hrows as [Hrows _]; [done|].
  rewrite Hrows. reflexivity.
Defined.

(** * Further properties of the engine *)

(** ** The fetch loop *)

Section LoopInvariants.

Variable type_repr : value → string.
Variable value_str : value → string.
Variable sink_raises : callback.
Variable fetch_raises : nat → bool.
Variable using_parquet : bool.
Variable structure : json_structure.
Variable description : list string.

Lemma process_batch_collect_inv effective_limit batch st :
  collect_inv st →
  collect_inv (process_batch type_repr value_str using_parquet structure
                 description false effective_limit batch st).
Proof.
  revert st. induction batch as [|row batch IH]; intros st Hinv; [done|].
  cbn [process_batch].
  destruct (row_record _ _ _ _ _ row) as [[|kv rec]|]; [by apply IH| |by apply IH].
  assert (Hnext : collect_inv (take_record false (kv :: rec) st)).
  { rewrite take_record_kept. destruct Hinv as (Hcount & Hbuf & Hsink).
    unfold collect_inv. cbn [results total_processed chunk_buffer sink].
    rewrite length_app. cbn [length]. repeat split; [lia|done|done]. }
  destruct (limit_reached _ _); [done|]. by apply IH.
Qed.

Lemma fetch_loop_collect_inv fuel effective_limit batch_fetch_size fetched
    cursor st :
  collect_inv st →
  collect_inv (fetch_loop type_repr value_str sink_raises fetch_raises fuel
                 using_parquet structure description false effective_limit
                 batch_fetch_size fetched cursor st).
Proof.
  revert fetched cursor st.
  induction fuel as [|fuel IH]; intros fetched cursor st Hinv;
    cbn [fetch_loop]; [done|].
  destruct (fetch_raises fetched); [done|].
  destruct (take batch_fetch_size cursor) as [|row batch]; [done|].
  cbn [flush].
  pose proof (process_batch_collect_inv effective_limit (row :: batch) st Hinv).
  destruct (batch_error _); [done|].
  destruct (limit_reached _ _); [done|]. by apply IH.
Qed.

Lemma process_batch_within_limit streaming_mode l batch st :
  total_processed st < l →
  total_processed
    (process_batch type_repr value_str using_parquet structure description
       streaming_mode (Some l) batch st) <= l.
Proof.
  revert st. induction batch as [|row batch IH]; intros st Hbelow;
    cbn [process_batch]; [lia|].
  destruct (row_record _ _ _ _ _ row) as [[|kv rec]|];
    [by apply IH| |by apply IH].
  assert (Hstep : total_processed (take_record streaming_mode (kv :: rec) st)
                  = total_processed st + 1)
    by by rewrite take_record_kept.
  cbn [limit_reached].
  destruct (Z.leb_spec l
              (total_processed (take_record streaming_mode (kv :: rec) st)));
    [lia|]. by apply IH.
Qed.

Lemma flush_total_processed streaming_mode st :
  total_processed (flush sink_raises streaming_mode st) = total_processed st.
Proof.
  unfold flush. destruct streaming_mode; [|done]. by destruct (chunk_buffer st).
Qed.

Lemma fetch_loop_within_limit fuel streaming_mode l batch_fetch_size fetched
    cursor st :
  total_processed st < l →
  total_processed
    (fetch_loop type_repr value_str sink_raises fetch_raises fuel
       using_parquet structure description streaming_mode (Some l)
       batch_fetch_size fetched cursor st) <= l.
Proof.
  revert fetched cursor st.
  induction fuel as [|fuel IH]; intros fetched cursor st Hbelow;
    cbn [fetch_loop]; [lia|].
  destruct (fetch_raises fetched); [cbn; lia|].
  destruct (take batch_fetch_size cursor) as [|row batch]; [lia|].
  pose proof (process_batch_within_limit streaming_mode l (row :: batch) st
                Hbelow) as Hbatch.
  destruct (batch_error _); [by rewrite flush_total_processed|].
  cbn [limit_reached]. rewrite flush_total_processed.
  destruct (Z.leb_spec l
              (total_processed
                 (process_batch type_repr value_str using_parquet structure
                    description streaming_mode (Some l) (row :: batch) st)));
    [by rewrite flush_total_processed|].
  apply IH. by rewrite flush_total_processed.
Qed.

Lemma total_handed_cons call calls :
  total_handed (call :: calls)
  = Z.of_nat (length (fst call)) + total_handed calls.
Proof. reflexivity. Qed.

Lemma total_handed_app calls chunk count :
  total_handed (calls ++ [(chunk, count)])
  = total_handed calls + Z.of_nat (length chunk).
Proof.
  induction calls as [|call calls IH].
  - cbn [app]. rewrite total_handed_cons. cbn [fst total_handed fold_right].
    lia.
  - cbn [app]. rewrite !total_handed_cons, IH. lia.
Qed.

Lemma running_counts_app start calls chunk :
  running_counts start calls →
  running_counts start
    (calls ++ [(chunk, start + total_handed calls + Z.of_nat (length chunk))]).
Proof.
  revert start. induction calls as [|[c n] calls IH]; intros start Hrun.
  - cbn. split; [lia|done].
  - destruct Hrun as [-> Hrest]. cbn [app running_counts]. split; [done|].
    specialize (IH _ Hrest).
    replace (start + total_handed ((c, start + Z.of_nat (length c)) :: calls)
             + Z.of_nat (length chunk))
      with (start + Z.of_nat (length c) + total_handed calls
            + Z.of_nat (length chunk)); [done|].
    rewrite total_handed_cons. cbn [fst]. lia.
Qed.

Lemma process_batch_streaming_buffer effective_limit batch st :
  let st' := process_batch type_repr value_str using_parquet structure
               description true effective_limit batch st in
  sink st' = sink st
  ∧ batch_error st' = batch_error st
  ∧ total_processed st' - Z.of_nat (length (chunk_buffer st'))
    = total_processed st - Z.of_nat (length (chunk_buffer st))
  ∧ (length (chunk_buffer st')
     <= length (chunk_buffer st) + length batch)%nat.
Proof.
  revert st. induction batch as [|row batch IH]; intros st; cbn [process_batch].
  - cbn. repeat split; lia.
  - destruct (row_record _ _ _ _ _ row) as [[|kv rec]|].
    + destruct (IH st) as (? & ? & ? & ?). cbn [length].
      repeat split; try done; lia.
    + assert (Hstep :
        sink (take_record true (kv :: rec) st) = sink st
        ∧ batch_error (take_record true (kv :: rec) st) = batch_error st
        ∧ total_processed (take_record true (kv :: rec) st)
          = total_processed st + 1
        ∧ length (chunk_buffer (take_record true (kv :: rec) st))
          = S (length (chunk_buffer st))).
      { rewrite take_record_kept.
        cbn [sink total_processed chunk_buffer batch_error].
        rewrite length_app. cbn. repeat split; lia. }
      destruct Hstep as (Hsink & Herr & Hcount & Hlen).
      destruct (limit_reached _ _).
      * cbn [length]. repeat split; try done; lia.
      * destruct (IH (take_record true (kv :: rec) st))
          as (Hs & He & Hc & Hl).
        cbn [length]. rewrite Hs, Hsink, He, Herr.
        repeat split; try done; lia.
    + destruct (IH st) as (? & ? & ? & ?). cbn [length].
      repeat split; try done; lia.
Qed.

Lemma flush_streaming_inv size st :
  running_counts 0 (sink st) →
  Forall (chunk_within size) (sink st) →
  total_processed st
  = total_handed (sink st) + Z.of_nat (length (chunk_buffer st)) →
  (length (chunk_buffer st) <= size)%nat →
  batch_error st = false →
  streaming_inv size (flush sink_raises true st)
  ∧ (batch_error (flush sink_raises true st) = false →
     chunk_buffer (flush sink_raises true st) = []).
Proof.
  intros Hrun Hall Hcount Hlen Herr. unfold flush, streaming_inv.
  destruct (chunk_buffer st) as [|rec buffer] eqn:Hbuf.
  - rewrite Hbuf, Herr. repeat split; done.
  - cbn [sink chunk_buffer total_processed batch_error]. repeat split.
    + rewrite Hcount.
      replace (total_handed (sink st) + Z.of_nat (length (rec :: buffer)))
        with (0 + total_handed (sink st) + Z.of_nat (length (rec :: buffer)))
        by lia.
      by apply running_counts_app.
    + apply Forall_app. split; [done|]. apply Forall_singleton.
      split; [done|]. done.
    + rewrite total_handed_app.
      destruct (sink_raises _ _ _); cbn [length] in *; lia.
    + by intros ->.
Qed.

Lemma interrupt_streaming_inv size st :
  streaming_inv size st → chunk_buffer st = [] →
  streaming_inv size (interrupt st).
Proof.
  intros (Hrun & Hall & Hcount) Hempty. unfold streaming_inv, interrupt.
  cbn [sink total_processed batch_error chunk_buffer].
  rewrite Hempty in Hcount. split; [done|]. split; [done|].
  by destruct (batch_error st).
Qed.

Lemma fetch_loop_streaming_inv fuel effective_limit size fetched cursor st :
  streaming_inv size st → chunk_buffer st = [] → batch_error st = false →
  let st' := fetch_loop type_repr value_str sink_raises fetch_raises fuel
               using_parquet structure description true effective_limit size
               fetched cursor st in
  streaming_inv size st'
  ∧ (batch_error st' = false → chunk_buffer st' = []).
Proof.
  revert fetched cursor st.
  induction fuel as [|fuel IH]; intros fetched cursor st Hinv Hempty Herr;
    cbn [fetch_loop]; cbn zeta; [done|].
  destruct (fetch_raises fetched).
  { split; [by apply interrupt_streaming_inv|done]. }
  destruct (take size cursor) as [|row batch] eqn:Htake; [done|].
  destruct Hinv as (Hrun & Hall & Hcount).
  destruct (process_batch_streaming_buffer effective_limit (row :: batch) st)
    as (Hsink & Herr1 & Hdiff & Hlen).
  set (st1 := process_batch _ _ _ _ _ _ _ _ _) in *.
  assert (Hbatch : (length (row :: batch) <= size)%nat).
  { rewrite <- Htake, length_take. lia. }
  rewrite Herr, Hempty in Hcount. rewrite Hempty in Hdiff, Hlen.
  change (length (@nil record)) with 0%nat in *.
  destruct (flush_streaming_inv size st1) as [Hinv1 Hempty1].
  - by rewrite Hsink.
  - by rewrite Hsink.
  - rewrite Hsink. lia.
  - lia.
  - by rewrite Herr1.
  - destruct (batch_error (flush sink_raises true st1)) eqn:Hraised;
      [split; [done|]; intros Hok;
       pose proof (eq_trans (eq_sym Hok) Hraised); discriminate|].
    destruct (limit_reached _ _);
      [split; [exact Hinv1|intros _; by apply Hempty1]|].
    apply IH; [exact Hinv1|by apply Hempty1|done].
Qed.

End LoopInvariants.

(** What a returned page was built from: the loop state of the run over
    the rows the engine gave. *)
Lemma search_streaming_page str_lower case_config type_repr value_str
    engine_execute fetch_raises size_text fs self src keyword search_field
    limit page filters collect_results chunk_callback chunk_size r :
  search_streaming str_lower case_config type_repr value_str engine_execute
    fetch_raises size_text fs self src keyword search_field limit page
    filters collect_results chunk_callback chunk_size = Page r →
  ∃ description rows,
    let streaming_mode := negb collect_results && callback_given chunk_callback in
    let st := run_rows type_repr value_str fetch_raises
                (default quiet chunk_callback) src streaming_mode
                (effective_limit_of limit) chunk_size description rows in
    page_results r = (if streaming_mode then [] else results st)
    ∧ processed_records r = total_processed st
    ∧ sink_calls r = sink st
    ∧ pagination_of
        (final_total_count (results st) (total_count_window st)
           (total_processed st)) page (effective_limit_of limit)
      = inr (page_pagination r).
Proof.
  unfold search_streaming.
  destruct (_get_file_size_mb fs self) as [e|size]; [done|].
  destruct (base_query src) as [e|base];
    [unfold failure; by destruct (_ || _)|].
  destruct (engine_execute _ _) as [e|[description rows]];
    [unfold failure; by destruct (_ || _)|].
  destruct (pagination_of _ _ _) as [e|pagination] eqn:Hpagination;
    [unfold failure; by destruct (_ || _)|].
  intros [= <-]. exists description, rows. cbn. by rewrite Hpagination.
Qed.

(** A row whose window count is null: the count of the page falls back
    to the number of processed rows. *)
Example null_window_count_falls_back :
  ∃ r,
    search_streaming Py.lower fallback_case_config (fun _ => EmptyString)
      (fun _ => EmptyString)
      (fun _ _ => inr (["company_name"; "total_count"],
                       [[VStr "Acme"; VNone]]))
      fetch_ok remote_size_text missing_everywhere
      (remote_processor "https://host/data.parquet") one_table_source
      (Some "Acme") "company_name" (Some 20) 1 None true None 1000 = Page r
    ∧ page_results r = [[("company_name", VStr "Acme")]]
    ∧ total_count (page_pagination r) = VInt 1.
Proof. eexists. split; [vm_compute; reflexivity|]. by split. Qed.

(** X2. A collecting run never returns more rows than a positive limit
    allows, reports as processed exactly the rows it returns, and calls
    no sink, whether a callback is given or not and whatever the fetches
    do. *)
Theorem collect_page_within_limit (str_lower : string → string)
    (case_config : CaseConfig) (type_repr value_str : value → string)
    (engine_execute :
       string → list value → error + (list string * list (list value)))
    (fetch_raises : nat → bool) (size_text : Q → string)
    (fs : filesystem) (self : DuckDBProcessor) (src : source)
    (keyword : option string) (search_field : string) (limit : option Z)
    (page : Z) (filters : option Filters) (chunk_callback : option callback)
    (chunk_size : nat) (r : page_result) :
  search_streaming str_lower case_config type_repr value_str engine_execute
    fetch_raises size_text fs self src keyword search_field limit page
    filters true chunk_callback chunk_size = Page r →
  processed_records r = Z.of_nat (length (page_results r))
  ∧ sink_calls r = []
  ∧ match limit with
    | Some l => 0 < l → Z.of_nat (length (page_results r)) <= l
    | None => True
    end.
Proof.
  intros Hpage.
  apply search_streaming_page in Hpage as (description & rows & Hr).
  cbn [negb andb] in Hr. destruct Hr as (Hres & Hcount & Hsink & _).
  unfold run_rows in *. cbn [flush] in *.
  set (row_structure := if using_parquet src then parquet else structure src)
    in *.
  assert (Hinv : collect_inv loop_init) by done.
  set (st := fetch_loop _ _ _ _ _ _ _ _ _ _ _ _ _ _) in *.
  assert (Hrun : (if batch_error st then st else st) = st)
    by by destruct (batch_error st).
  rewrite Hrun in *.
  pose proof (fetch_loop_collect_inv type_repr value_str
                (default quiet chunk_callback) fetch_raises (using_parquet src)
                row_structure description (S (length rows))
                (effective_limit_of limit) 1000 0 rows loop_init Hinv)
    as (Hprocessed & _ & Hnosink).
  fold st in Hprocessed, Hnosink.
  rewrite Hres, Hcount, Hsink. split; [done|]. split; [done|].
  destruct limit as [l|]; [|done]. intros Hl. rewrite <- Hprocessed.
  unfold effective_limit_of in *. destruct (Z.leb_spec l 0); [lia|].
  apply fetch_loop_within_limit. cbn. lia.
Qed.

Lemma collect_page_within_limit_witness :
  ∃ r,
    search_streaming Py.lower fallback_case_config (fun _ => EmptyString)
      (fun _ => EmptyString) two_row_engine fetch_ok remote_size_text
      missing_everywhere
      (remote_processor "https://host/data.parquet") one_table_source
      (Some "Acme") "company_name" (Some 1) 1 None true None 1000 = Page r
    ∧ processed_records r = 1 ∧ length (page_results r) = 1%nat.
Proof.
  eexists. split; [vm_compute; reflexivity|].
  match goal with
  | |- processed_records ?r = _ ∧ _ =>
      destruct (collect_page_within_limit Py.lower fallback_case_config
                  (fun _ => EmptyString) (fun _ => EmptyString)
                  two_row_engine fetch_ok remote_size_text missing_everywhere
                  (remote_processor "https://host/data.parquet")
                  one_table_source (Some "Acme") "company_name" (Some 1) 1
                  None None 1000 r) as (Hcount & _ & _);
        [vm_compute; reflexivity|]
  end.
  split; [rewrite Hcount|]; vm_compute; reflexivity.
Defined.

(** The sink calls of a streaming run that returned a page. *)
Lemma streaming_page_calls (str_lower : string → string)
    (case_config : CaseConfig) (type_repr value_str : value → string)
    (engine_execute :
       string → list value → error + (list string * list (list value)))
    (fetch_raises : nat → bool) (size_text : Q → string)
    (fs : filesystem) (self : DuckDBProcessor) (src : source)
    (keyword : option string) (search_field : string) (limit : option Z)
    (page : Z) (filters : option Filters) (sink_raises : callback)
    (chunk_size : nat) (r : page_result) :
  search_streaming str_lower case_config type_repr value_str engine_execute
    fetch_raises size_text fs self src keyword search_field limit page
    filters false (Some sink_raises) chunk_size
  = Page r →
  page_results r = []
  ∧ Forall (chunk_within chunk_size) (sink_calls r)
  ∧ running_counts 0 (sink_calls r)
  ∧ processed_records r = total_handed (sink_calls r).
Proof.
  intros Hpage.
  apply search_streaming_page in Hpage as (description & rows & Hr).
  cbn [negb andb callback_given default id] in Hr.
  destruct Hr as (Hres & Hcount & Hsink & _).
  unfold run_rows in *.
  set (row_structure := if using_parquet src then parquet else structure src)
    in *.
  assert (Hinit : streaming_inv chunk_size loop_init).
  { unfold streaming_inv. cbn. split; [done|]. split; [constructor|done]. }
  destruct (fetch_loop_streaming_inv type_repr value_str sink_raises
              fetch_raises (using_parquet src) row_structure description
              (S (length rows)) (effective_limit_of limit) chunk_size 0 rows
              loop_init Hinit eq_refl eq_refl)
    as [(Hrun & Hall & Hprocessed) Hempty].
  set (st := fetch_loop _ _ _ _ _ _ _ _ _ _ _ _ _ _) in *.
  assert (Hfinal :
    ∀ st', st' = (if batch_error st then st
                  else flush sink_raises true st) →
      sink st' = sink st ∧ total_processed st' = total_processed st
      ∧ total_processed st = total_handed (sink st)).
  { intros st' ->. destruct (batch_error st) eqn:Herr.
    - split; [done|]. split; [done|]. rewrite Hprocessed. cbn. lia.
    - assert (Hflush : flush sink_raises true st = st)
        by (unfold flush; by rewrite Hempty).
      rewrite Hflush. split; [done|]. split; [done|].
      rewrite Hprocessed, Hempty by done. cbn. lia. }
  destruct (Hfinal _ eq_refl) as (Hs & Hp & Ht).
  rewrite Hres, Hcount, Hsink, Hs, Hp.
  repeat split; done.
Qed.

(** X3. In a streaming run every sink call receives a chunk that is not
    empty and holds at most [chunk_size] records, together with the
    running number of records handed over so far; when the run ends
    every processed record has been handed over, and the page itself
    carries no rows. This holds whatever the sink does with its chunks,
    a call that raises included. *)
Theorem streaming_chunks_well_formed (str_lower : string → string)
    (case_config : CaseConfig) (type_repr value_str : value → string)
    (engine_execute :
       string → list value → error + (list string * list (list value)))
    (fetch_raises : nat → bool) (size_text : Q → string)
    (fs : filesystem) (self : DuckDBProcessor) (src : source)
    (keyword : option string) (search_field : string) (limit : option Z)
    (page : Z) (filters : option Filters) (sink_raises : callback)
    (chunk_size : nat) (r : page_result) :
  search_streaming str_lower case_config type_repr value_str engine_execute
    fetch_raises size_text fs self src keyword search_field limit page
    filters false (Some sink_raises) chunk_size
  = Page r →
  page_results r = []
  ∧ Forall (chunk_within chunk_size) (sink_calls r)
  ∧ running_counts 0 (sink_calls r)
  ∧ processed_records r = total_handed (sink_calls r).
Proof.
  apply streaming_page_calls.
Qed.

Lemma streaming_chunks_well_formed_witness :
  ∃ r,
    export_run false = Page r
    ∧ running_counts 0 (sink_calls r)
    ∧ processed_records r = total_handed (sink_calls r).
Proof.
  eexists. split; [vm_compute; reflexivity|].
  match goal with
  | |- running_counts 0 (sink_calls ?r) ∧ _ =>
      destruct (streaming_chunks_well_formed Py.lower fallback_case_config
                  (fun _ => EmptyString) (fun _ => EmptyString)
                  two_row_engine fetch_ok remote_size_text missing_everywhere
                  (remote_processor "https://host/data.parquet")
                  one_table_source (Some "Acme") "company_name" None 1 None
                  quiet 1000 r) as (_ & _ & Hrun & Hcount);
        [vm_compute; reflexivity|]
  end.
  split; [exact Hrun | exact Hcount].
Defined.

(** ** Pages against the rows of a query *)

Lemma page_window_limited {A : Type} (rows : list A) (l : Z) (page : nat) :
  0 < l →
  page_window rows (Some l) (Z.of_nat (S page))
  = take (Z.to_nat l) (drop (page * Z.to_nat l) rows).
Proof.
  intros Hl. unfold page_window, sql_window, effective_limit_of, offset_of.
  destruct (Z.leb_spec l 0); [lia|]. destruct (Z.eqb_spec l 0); [lia|].
  do 2 f_equal. lia.
Qed.

Lemma pages_concat {A : Type} (rows : list A) (l : Z) (k : nat) :
  0 < l →
  concat (List.map (fun page => page_window rows (Some l) (Z.of_nat page))
            (seq 1 k))
  = take (k * Z.to_nat l) rows.
Proof.
  intros Hl. induction k as [|k IH]; [done|].
  rewrite seq_S, map_app, concat_app, IH. cbn [List.map concat].
  change (1 + k)%nat with (S k).
  rewrite app_nil_r, (page_window_limited rows l k Hl), take_take_drop.
  f_equal. lia.
Qed.

Lemma total_pages_of_limited (count l : Z) :
  0 < l → total_pages_of count (Some l) = (count + l - 1) / l.
Proof.
  intros Hl. unfold total_pages_of, pagination_of, effective_limit_of.
  destruct (Z.leb_spec l 0); [lia|]. destruct (Z.eqb_spec l 0); [lia|].
  cbn. by destruct (Z.ltb_spec 0 l); [|lia].
Qed.

(** X4. Paging through a query with a positive limit loses and repeats
    nothing: the windows of pages 1 .. total_pages, put one after the
    other, are the matching rows in order; and on every page from 1 on
    the [has_next] flag is set exactly when the window of the following
    page is not empty. *)
Theorem pages_partition_rows {A : Type} (rows : list A) (l : Z) :
  0 < l →
  let count := Z.of_nat (length rows) in
  concat
    (List.map (fun page => page_window rows (Some l) (Z.of_nat page))
       (seq 1 (Z.to_nat (total_pages_of count (Some l)))))
  = rows
  ∧ ∀ page, 1 <= page →
      has_next_at count (Some l) page = true
      ↔ page_window rows (Some l) (page + 1) ≠ [].
Proof.
  intros Hl count. subst count. split.
  - rewrite pages_concat by done. apply take_ge.
    rewrite total_pages_of_limited by done.
    pose proof (Z.mul_succ_div_gt (Z.of_nat (length rows) + l - 1) l).
    pose proof (Z.div_pos (Z.of_nat (length rows) + l - 1) l).
    nia.
  - intros page Hpage.
    replace (page + 1) with (Z.of_nat (S (Z.to_nat page))) by lia.
    rewrite page_window_limited by done.
    unfold has_next_at, pagination_of, effective_limit_of.
    destruct (Z.leb_spec l 0); [lia|]. destruct (Z.eqb_spec l 0); [lia|].
    cbn [has_next]. destruct (Z.ltb_spec 0 l); [|lia].
    rewrite Z.ltb_lt.
    pose proof (Z.mul_succ_div_gt (Z.of_nat (length rows) + l - 1) l).
    pose proof (Z.mul_div_le (Z.of_nat (length rows) + l - 1) l).
    set (pages := (Z.of_nat (length rows) + l - 1) / l) in *.
    split.
    + intros Hnext Hnil.
      apply (f_equal length) in Hnil.
      rewrite length_take, length_drop in Hnil. cbn [length] in Hnil. nia.
    + intros Hrows.
      destruct (Z.lt_ge_cases page pages) as [|Hlast]; [done|].
      exfalso. apply Hrows. rewrite drop_ge; [by destruct (Z.to_nat l)|]. nia.
Qed.

Lemma pages_partition_rows_witness :
  0 < 2
  ∧ concat
      (List.map (fun page => page_window [10; 20; 30; 40; 50] (Some 2)
                               (Z.of_nat page))
         (seq 1 3))
    = [10; 20; 30; 40; 50]
  ∧ has_next_at 5 (Some 2) 3 = false.
Proof.
  split; [lia|].
  destruct (pages_partition_rows [10; 20; 30; 40; 50] 2) as [Hall Hnext];
    [lia|].
  split; [exact Hall|].
  destruct (has_next_at 5 (Some 2) 3) eqn:Hflag; [|done].
  exfalso. apply (Hnext 3); [lia|exact Hflag|reflexivity].
Defined.

(** ** Engine errors on a remote locator *)

(** X5. For a remote locator whose query the engine refuses, the search
    returns an error result instead of raising; unless the engine
    message mentions [maximum_object_size], the result is
    [query_execution_failed] with the engine message, also when the
    message says [Could not read]: the fixed 100 MB estimate is below the
    500 MB the large-file rule asks for. *)
Theorem remote_engine_error_is_reported (str_lower : string → string)
    (case_config : CaseConfig) (type_repr value_str : value → string)
    (engine_execute :
       string → list value → error + (list string * list (list value)))
    (fetch_raises : nat → bool) (size_text : Q → string)
    (fs : filesystem) (self : DuckDBProcessor) (src : source)
    (base : string) (keyword : option string) (search_field : string)
    (limit : option Z) (page : Z) (filters : option Filters)
    (collect_results : bool) (chunk_callback : option callback)
    (chunk_size : nat) (e : error) :
  is_url self = true →
  base_query src = inr base →
  (let q := compile_query str_lower case_config self src base keyword
              search_field limit page filters in
   engine_execute (filtered_query q) (combined_parameters q) = inl e) →
  Py.contains "maximum_object_size" (error_message e) = false →
  search_streaming str_lower case_config type_repr value_str engine_execute
    fetch_raises size_text fs self src keyword search_field limit page
    filters collect_results chunk_callback chunk_size
  = ErrorResult "query_execution_failed" (error_message e).
Proof.
  intros Hurl Hbase Hengine Hmessage. unfold search_streaming.
  rewrite (remote_size_fixed fs self Hurl), Hbase. cbn zeta in Hengine.
  rewrite Hengine. unfold failure. rewrite Hmessage. done.
Qed.

Lemma remote_engine_error_is_reported_witness :
  search_streaming Py.lower fallback_case_config (fun _ => EmptyString)
    (fun _ => EmptyString)
    (fun _ _ => inl (EngineError "IO Error: Could not read file"))
    fetch_ok remote_size_text
    missing_everywhere (remote_processor "https://host/data.parquet")
    one_table_source (Some "Acme") "company_name" (Some 20) 1 None true None
    1000
  = ErrorResult "query_execution_failed" "IO Error: Could not read file".
Proof.
  apply (remote_engine_error_is_reported Py.lower fallback_case_config
           (fun _ => EmptyString) (fun _ => EmptyString)
           (fun _ _ => inl (EngineError "IO Error: Could not read file"))
           fetch_ok remote_size_text
           missing_everywhere (remote_processor "https://host/data.parquet")
           one_table_source
           "SELECT * FROM read_parquet('https://host/data.parquet')"
           (Some "Acme") "company_name" (Some 20) 1 None true None 1000
           (EngineError "IO Error: Could not read file"));
    reflexivity.
Defined.

(** ** Placeholders and parameters *)

Lemma placeholders_app a b :
  placeholders (a +:+ b) = (placeholders a + placeholders b)%nat.
Proof.
  unfold placeholders. induction a as [|c a IH]; [done|].
  change (String c a +:+ b) with (String c (a +:+ b)).
  cbn [count_char]. rewrite IH. lia.
Qed.

Lemma placeholders_join sep parts :
  placeholders sep = 0%nat →
  placeholders (Py.join sep parts) = list_sum (List.map placeholders parts).
Proof.
  intros Hsep. unfold Py.join.
  induction parts as [|p [|p' parts] IH]; [done| |].
  - cbn [String.concat List.map list_sum fold_right]. lia.
  - change (String.concat sep (p :: p' :: parts))
      with (p +:+ sep +:+ String.concat sep (p' :: parts)).
    rewrite !placeholders_app, IH, Hsep. unfold list_sum.
    cbn [List.map fold_right]. lia.
Qed.

Lemma placeholders_quoted table_alias field :
  placeholders (quoted table_alias field)
  = (placeholders table_alias + placeholders field)%nat.
Proof.
  unfold quoted. rewrite !placeholders_app.
  change (placeholders dquote) with 0%nat. lia.
Qed.

Lemma placeholders_render_cond c :
  placeholders (render_cond c)
  = match c with
    | StrippedEq field => S (placeholders field)
    | CastCmp _ table_alias field _ =>
        S (placeholders table_alias + placeholders field)
    end.
Proof.
  destruct c as [field|[] table_alias field []]; cbn [render_cond];
    rewrite !placeholders_app, placeholders_quoted; cbn; lia.
Qed.

Lemma placeholders_conditions (conditions : list (search_cond * value)) :
  Forall (fun c => placeholders (render_cond (fst c)) = 1%nat) conditions →
  placeholders (render_where (AnyOf conditions)) = length conditions.
Proof.
  intros Hall. cbn [render_where]. rewrite placeholders_join by done.
  induction Hall as [|c cs Hc _ IH]; [done|].
  cbn [List.map length]. unfold list_sum in *. cbn [fold_right].
  rewrite Hc, IH. done.
Qed.

Lemma where_clause_bound (str_lower : string → string)
    (case_config : CaseConfig) (self : DuckDBProcessor)
    (using_parquet : bool) (structure : json_structure)
    (available : list string) (keyword : option string)
    (search_field : string) :
  Forall plain_name available →
  let w := _build_where_clause str_lower case_config self using_parquet
             structure available keyword search_field in
  placeholders (where_clause w) = length (where_parameters w).
Proof.
  intros Hplain w. subst w. unfold where_clause, where_parameters.
  rewrite Forall_forall in Hplain.
  destruct (keyword_missing keyword) eqn:Hmissing.
  { unfold _build_where_clause. by rewrite Hmissing. }
  destruct keyword as [kw|]; [|done].
  assert (Hkw : Py.truthy kw = true).
  { unfold keyword_missing in Hmissing. by destruct (Py.truthy kw). }
  destruct (Py.mem search_field exact_match_fields) eqn:Hexact.
  - rewrite build_where_business by done.
    set (fields := List.filter (fun f => Py.mem f available)
                     (business_aliases search_field)).
    assert (Hfields : ∀ f, f ∈ fields → f ∈ available).
    { intros f Hf. by apply filter_mem_elem in Hf as [_ ?]. }
    destruct (List.map _ fields) as [|c cs] eqn:Hmap; [done|].
    rewrite <- Hmap. cbn [where_form_parameters].
    rewrite placeholders_conditions; [by rewrite !length_map|].
    apply Forall_forall. intros [c' p] Hin.
    apply list_elem_of_In, in_map_iff in Hin as (f & [= <- <-] & Hf).
    cbn [fst]. rewrite placeholders_render_cond.
    apply list_elem_of_In, Hfields, Hplain in Hf. unfold plain_name in Hf.
    by rewrite Hf.
  - rewrite build_where_general by done.
    set (table_alias := if using_parquet then EmptyString
                        else if is_nested structure then "item."
                             else EmptyString).
    assert (Halias : placeholders table_alias = 0%nat).
    { subst table_alias. by destruct using_parquet, (is_nested structure). }
    destruct (List.map _ (existing_search_fields _ _)) as [|c cs] eqn:Hmap;
      [done|].
    rewrite <- Hmap. cbn [where_form_parameters].
    rewrite placeholders_conditions; [by rewrite !length_map|].
    apply Forall_forall. intros [c' p] Hin.
    apply list_elem_of_In, in_map_iff in Hin as (f & Hcond & Hf).
    apply list_elem_of_In, existing_search_fields_available, Hplain in Hf.
    unfold plain_name in Hf.
    assert (Hc : c' = fst (general_cond str_lower case_config table_alias kw f))
      by by rewrite Hcond.
    cbn [fst]. rewrite Hc, placeholders_render_cond.
    pose proof (general_cond_field str_lower case_config table_alias kw f)
      as Hfield.
    destruct (fst (general_cond _ _ _ _ _)) as [field|lowered alias field op]
      eqn:Hshape.
    + cbn in Hfield. subst field. by rewrite Hf.
    + cbn in Hfield. subst field.
      assert (alias = table_alias) as ->.
      { unfold general_cond, _get_search_pattern_and_operator in Hshape.
        destruct (Py.mem f cert_number_fields);
          [|destruct (_is_field_case_insensitive case_config f)];
          cbn in Hshape; congruence. }
      by rewrite Halias, Hf.
Qed.

(** X6. The search predicate carries exactly one placeholder per bound
    parameter, whatever the keyword and the search field, as long as no
    column name of the schema holds a question mark. *)
Theorem where_placeholders_match_parameters (str_lower : string → string)
    (case_config : CaseConfig) (self : DuckDBProcessor)
    (using_parquet : bool) (structure : json_structure)
    (available : list string) (keyword : option string)
    (search_field : string) :
  Forall plain_name available →
  let w := _build_where_clause str_lower case_config self using_parquet
             structure available keyword search_field in
  placeholders (where_clause w) = length (where_parameters w).
Proof.
  apply where_clause_bound.
Qed.

Lemma where_placeholders_match_parameters_witness :
  let w := _build_where_clause Py.lower fallback_case_config
             (local_processor "data.parquet") true parquet
             ["업체명"; "maker_name"; "cert_date"] (Some "Acme")
             "company_name" in
  Forall plain_name ["업체명"; "maker_name"; "cert_date"]
  ∧ placeholders (where_clause w) = 2%nat
  ∧ length (where_parameters w) = 2%nat.
Proof.
  intros w.
  assert (Hplain : Forall plain_name ["업체명"; "maker_name"; "cert_date"])
    by (repeat constructor).
  split; [exact Hplain|].
  pose proof (where_placeholders_match_parameters Py.lower
                fallback_case_config (local_processor "data.parquet") true
                parquet ["업체명"; "maker_name"; "cert_date"] (Some "Acme")
                "company_name" Hplain) as Hmatch.
  cbn zeta in Hmatch. fold w in Hmatch.
  assert (Hlen : length (where_parameters w) = 2%nat) by reflexivity.
  split; [by rewrite Hmatch|exact Hlen].
Defined.

Lemma clauses_bound_none : clauses_bound no_clauses.
Proof. done. Qed.

Lemma list_sum_app_nat (a b : list nat) :
  list_sum (a ++ b) = (list_sum a + list_sum b)%nat.
Proof.
  unfold list_sum. induction a as [|x a IH]; [done|].
  cbn [app fold_right]. rewrite IH. lia.
Qed.

Lemma add_clauses_bound a b :
  clauses_bound a → clauses_bound b → clauses_bound (add_clauses a b).
Proof.
  unfold clauses_bound, add_clauses. cbn [fst snd]. intros Ha Hb.
  rewrite map_app, list_sum_app_nat, length_app. lia.
Qed.

Lemma when_some_bound {A : Type} (o : option A) (f : A → clauses) :
  (∀ a, clauses_bound (f a)) → clauses_bound (when_some o f).
Proof. intros Hf. destruct o; [apply Hf|apply clauses_bound_none]. Qed.

Section FilterPlaceholders.

Variable str_lower : string → string.
Variable table_alias : string.
Variable available : list string.
Hypothesis alias_plain : plain_name table_alias.
Hypothesis available_plain : Forall plain_name available.

Lemma usable_column_plain candidates col :
  usable_column candidates available = Some col → placeholders col = 0%nat.
Proof.
  intros Hcol. apply usable_column_elem in Hcol as (_ & Hav & _).
  rewrite Forall_forall in available_plain. by apply available_plain.
Qed.

Lemma placeholders_quoted_plain col :
  placeholders col = 0%nat → placeholders (quoted table_alias col) = 0%nat.
Proof.
  intros Hcol. rewrite placeholders_quoted, Hcol. unfold plain_name in *. lia.
Qed.

Lemma date_range_bound dr :
  clauses_bound (date_range_clauses table_alias available dr).
Proof.
  unfold date_range_clauses.
  destruct (usable_column date_columns available) as [col|] eqn:Hcol;
    [|apply clauses_bound_none].
  pose proof (placeholders_quoted_plain col (usable_column_plain _ _ Hcol))
    as Hq.
  apply add_clauses_bound; apply when_some_bound; intros v;
    unfold clauses_bound; cbn [fst snd List.map list_sum fold_right length];
    rewrite !placeholders_app, Hq; done.
Qed.

Lemma placeholders_marks {A : Type} (items : list A) :
  placeholders (Py.join "," (List.map (fun _ => "?") items)) = length items.
Proof.
  rewrite placeholders_join by done. rewrite map_map.
  unfold list_sum. induction items as [|x items IH]; [done|].
  cbn [List.map fold_right length]. rewrite IH. done.
Qed.

Lemma certification_type_bound cert_types :
  clauses_bound (certification_type_clauses table_alias available cert_types).
Proof.
  unfold certification_type_clauses.
  destruct cert_types as [|t ts]; [apply clauses_bound_none|].
  destruct (usable_column cert_columns available) as [col|] eqn:Hcol;
    [|apply clauses_bound_none].
  pose proof (placeholders_quoted_plain col (usable_column_plain _ _ Hcol))
    as Hq.
  remember (t :: ts) as items eqn:Hitems.
  unfold clauses_bound. cbn [fst snd]. rewrite length_map.
  change (list_sum (List.map placeholders [?x])) with (placeholders x + 0)%nat.
  rewrite !placeholders_app, Hq, (placeholders_marks items).
  cbn. lia.
Qed.

Lemma company_type_bound company_types :
  clauses_bound (company_type_clauses table_alias available company_types).
Proof.
  unfold company_type_clauses.
  destruct (usable_column importer_columns available) as [col|] eqn:Hcol;
    [|apply clauses_bound_none].
  pose proof (placeholders_quoted_plain col (usable_column_plain _ _ Hcol))
    as Hq.
  destruct (Py.mem "manufacturer" company_types),
           (Py.mem "importer" company_types);
    cbn [app]; try apply clauses_bound_none;
    unfold clauses_bound; cbn [fst snd length]; unfold list_sum;
    cbn [List.map fold_right];
    rewrite !placeholders_app, placeholders_join by done;
    unfold list_sum; cbn [List.map fold_right];
    rewrite !placeholders_app, !Hq; done.
Qed.

Lemma exclude_one_bound product company keyword :
  (∀ col, product = Some col → placeholders col = 0%nat) →
  (∀ col, company = Some col → placeholders col = 0%nat) →
  clauses_bound (exclude_one str_lower table_alias product company keyword).
Proof.
  intros Hproduct Hcompany. unfold exclude_one.
  destruct product as [p|], company as [c|];
    cbn [when_some add_clauses no_clauses fst snd app];
    try apply clauses_bound_none;
    unfold clauses_bound; cbn [fst snd length]; unfold list_sum;
    cbn [List.map fold_right];
    rewrite !placeholders_app, placeholders_join by done;
    unfold list_sum; cbn [List.map fold_right];
    rewrite !placeholders_app, ?(placeholders_quoted_plain p),
      ?(placeholders_quoted_plain c) by auto; done.
Qed.

Lemma exclude_keywords_bound keywords :
  clauses_bound (exclude_keywords_clauses str_lower table_alias available
                   keywords).
Proof.
  unfold exclude_keywords_clauses.
  set (product := usable_column product_columns available).
  set (company := usable_column company_columns available).
  assert (Hproduct : ∀ col, product = Some col → placeholders col = 0%nat)
    by (intros col; apply usable_column_plain).
  assert (Hcompany : ∀ col, company = Some col → placeholders col = 0%nat)
    by (intros col; apply usable_column_plain).
  assert (Hfold : ∀ acc, clauses_bound acc →
            clauses_bound
              (fold_left
                 (fun acc kw =>
                    add_clauses acc
                      (exclude_one str_lower table_alias product company kw))
                 keywords acc)).
  { induction keywords as [|kw kws IH]; intros acc Hacc; [done|].
    cbn [fold_left]. apply IH, add_clauses_bound; [done|].
    by apply exclude_one_bound. }
  apply Hfold, clauses_bound_none.
Qed.

Lemma numeric_range_bound nr :
  plain_name (default "price" (nr_field nr)) →
  clauses_bound (numeric_range_clauses table_alias nr).
Proof.
  intros Hfield. unfold numeric_range_clauses.
  pose proof (placeholders_quoted_plain _ Hfield) as Hq.
  apply add_clauses_bound; apply when_some_bound; intros v;
    unfold clauses_bound; cbn [fst snd length]; unfold list_sum;
    cbn [List.map fold_right]; rewrite !placeholders_app, Hq; done.
Qed.

Lemma filter_clause_bound (filters : option Filters) :
  numeric_column_plain filters →
  placeholders
    (fst (_build_filter_conditions str_lower filters table_alias available))
  = length
      (snd (_build_filter_conditions str_lower filters table_alias available)).
Proof.
  intros Hnumeric. unfold _build_filter_conditions.
  destruct filters as [f|]; [|done].
  destruct (filters_empty f); [done|].
  assert (Hbound : clauses_bound (filter_clauses str_lower table_alias
                                    available f)).
  { unfold filter_clauses.
    repeat apply add_clauses_bound.
    - apply when_some_bound, date_range_bound.
    - apply when_some_bound, certification_type_bound.
    - apply when_some_bound, company_type_bound.
    - apply when_some_bound, exclude_keywords_bound.
    - cbn [numeric_column_plain] in Hnumeric.
      destruct (numeric_range f) as [nr|]; [|apply clauses_bound_none].
      by apply numeric_range_bound. }
  destruct (filter_clauses _ _ _ f) as [conditions parameters].
  destruct conditions as [|c cs]; [done|].
  cbn [fst snd]. rewrite placeholders_join by done. exact Hbound.
Qed.

(** X7. The filter predicate carries exactly one placeholder per bound
    parameter, for every filter dictionary, as long as no column name of
    the schema, nor the column a numeric-range filter names, holds a
    question mark. *)
Theorem filter_placeholders_match_parameters (filters : option Filters) :
  numeric_column_plain filters →
  placeholders
    (fst (_build_filter_conditions str_lower filters table_alias available))
  = length
      (snd (_build_filter_conditions str_lower filters table_alias available)).
Proof.
  apply filter_clause_bound.
Qed.

End FilterPlaceholders.

Lemma filter_placeholders_match_parameters_witness :
  let compiled :=
    _build_filter_conditions Py.lower (dated_filters "2024-01-01" "test")
      EmptyString ["업체명"; "제품명"; "cert_date"] in
  plain_name EmptyString
  ∧ Forall plain_name ["업체명"; "제품명"; "cert_date"]
  ∧ numeric_column_plain (dated_filters "2024-01-01" "test")
  ∧ placeholders (fst compiled) = 3%nat
  ∧ length (snd compiled) = 3%nat.
Proof.
  intros compiled.
  assert (Hplain : Forall plain_name ["업체명"; "제품명"; "cert_date"])
    by (repeat constructor).
  split; [reflexivity|]. split; [exact Hplain|]. split; [exact I|].
  pose proof (filter_placeholders_match_parameters Py.lower EmptyString
                ["업체명"; "제품명"; "cert_date"] eq_refl Hplain
                (dated_filters "2024-01-01" "test") I) as Hmatch.
  fold compiled in Hmatch.
  assert (Hlen : length (snd compiled) = 3%nat) by reflexivity.
  split; [by rewrite Hmatch|exact Hlen].
Defined.

(** ** Values and placeholders of a compiled query (C9) *)

Lemma where_parameters_bindings str_lower case_config self using_parquet
    structure available keyword search_field :
  Py.truthy keyword = true →
  where_parameters
    (_build_where_clause str_lower case_config self using_parquet structure
       available (Some keyword) search_field)
  = keyword_bindings str_lower case_config available keyword search_field.
Proof.
  intros Hkw. unfold where_parameters, keyword_bindings.
  destruct (Py.mem search_field exact_match_fields) eqn:Hexact.
  - rewrite build_where_business by done.
    destruct (List.filter _ _) as [|f fs]; [done|].
    cbn [List.map where_form_parameters snd]. by rewrite map_map.
  - rewrite build_where_general by done.
    destruct (existing_search_fields _ _) as [|f fs]; [done|].
    assert (Hbound : ∀ alias column,
      snd (general_cond str_lower case_config alias keyword column)
      = VStr (keyword_pattern str_lower case_config keyword column)).
    { intros alias column.
      unfold general_cond, _get_search_pattern_and_operator, keyword_pattern.
      destruct (Py.mem column cert_number_fields); [done|].
      by destruct (_is_field_case_insensitive case_config column). }
    cbn [List.map where_form_parameters]. rewrite map_map, !Hbound.
    f_equal. apply map_ext. intros column. apply Hbound.
Qed.

Lemma add_clauses_paired a b :
  clauses_paired a → clauses_paired b → clauses_paired (add_clauses a b).
Proof.
  unfold clauses_paired, add_clauses. cbn [fst snd].
  intros Ha Hb [Hfa Hfb]%app_eq_nil. by rewrite Ha, Hb.
Qed.

Lemma when_some_paired {A : Type} (o : option A) (f : A → clauses) :
  (∀ a, clauses_paired (f a)) → clauses_paired (when_some o f).
Proof. intros Hf. by destruct o; [apply Hf|]. Qed.

Section FilterValues.

Variable str_lower : string → string.
Variable table_alias : string.
Variable available : list string.

Lemma exclude_one_values product company kw :
  snd (exclude_one str_lower table_alias product company kw)
  = List.map (fun _ => VStr ("%" +:+ str_lower kw +:+ "%"))
      (option_list product ++ option_list company)
  ∧ clauses_paired (exclude_one str_lower table_alias product company kw).
Proof.
  unfold exclude_one, clauses_paired. by destruct product, company.
Qed.

Lemma exclude_fold_values product company keywords acc :
  clauses_paired acc →
  let folded :=
    fold_left
      (fun acc kw =>
         add_clauses acc
           (exclude_one str_lower table_alias product company kw))
      keywords acc in
  snd folded
  = snd acc
    ++ concat
         (List.map
            (fun kw =>
               List.map (fun _ => VStr ("%" +:+ str_lower kw +:+ "%"))
                 (option_list product ++ option_list company))
            keywords)
  ∧ clauses_paired folded.
Proof.
  revert acc. induction keywords as [|kw keywords IH]; intros acc Hacc.
  - cbn. by rewrite app_nil_r.
  - cbn [fold_left List.map concat].
    destruct (exclude_one_values product company kw) as [Hone Hpaired].
    destruct (IH (add_clauses acc
                    (exclude_one str_lower table_alias product company kw)))
      as [Hvalues Hfolded]; [by apply add_clauses_paired|].
    split; [|done]. rewrite Hvalues. cbn [add_clauses snd].
    by rewrite Hone, <- app_assoc.
Qed.

Lemma filter_clauses_values (f : Filters) :
  snd (filter_clauses str_lower table_alias available f)
  = filter_bindings str_lower available (Some f)
  ∧ clauses_paired (filter_clauses str_lower table_alias available f).
Proof.
  assert (Hdate :
    snd (when_some (date_range f)
           (date_range_clauses table_alias available))
    = from_option
        (fun dr =>
           when_column date_columns available
             (option_list (dr_start dr) ++ option_list (dr_end dr)))
        [] (date_range f)
    ∧ clauses_paired
        (when_some (date_range f)
           (date_range_clauses table_alias available))).
  { destruct (date_range f) as [dr|]; [|done].
    cbn [when_some from_option]. unfold date_range_clauses, when_column.
    destruct (usable_column date_columns available); [|done].
    unfold clauses_paired. by destruct (dr_start dr), (dr_end dr). }
  assert (Hcert :
    snd (when_some (certification_type f)
           (certification_type_clauses table_alias available))
    = from_option
        (fun types =>
           when_column cert_columns available
             (List.map (fun t => VStr (".*" +:+ t +:+ ".*")) types))
        [] (certification_type f)
    ∧ clauses_paired
        (when_some (certification_type f)
           (certification_type_clauses table_alias available))).
  { destruct (certification_type f) as [types|]; [|done].
    cbn [when_some from_option].
    unfold certification_type_clauses, when_column, clauses_paired.
    by destruct types, (usable_column cert_columns available). }
  assert (Hcompany :
    snd (when_some (company_type f)
           (company_type_clauses table_alias available)) = []).
  { destruct (company_type f) as [types|]; [|done].
    cbn [when_some]. unfold company_type_clauses.
    destruct (usable_column importer_columns available); [|done].
    by destruct (_ ++ _). }
  assert (Hexclude :
    snd (when_some (exclude_keywords f)
           (exclude_keywords_clauses str_lower table_alias available))
    = from_option
        (fun keywords =>
           concat
             (List.map
                (fun kw =>
                   List.map
                     (fun _ => VStr ("%" +:+ str_lower kw +:+ "%"))
                     (option_list (usable_column product_columns available)
                      ++ option_list
                           (usable_column company_columns available)))
                keywords))
        [] (exclude_keywords f)
    ∧ clauses_paired
        (when_some (exclude_keywords f)
           (exclude_keywords_clauses str_lower table_alias available))).
  { destruct (exclude_keywords f) as [keywords|]; [|done].
    cbn [when_some from_option]. unfold exclude_keywords_clauses.
    by apply (exclude_fold_values _ _ keywords no_clauses). }
  assert (Hnumeric :
    snd (when_some (numeric_range f) (numeric_range_clauses table_alias))
    = from_option
        (fun nr => option_list (nr_min nr) ++ option_list (nr_max nr))
        [] (numeric_range f)
    ∧ clauses_paired
        (when_some (numeric_range f) (numeric_range_clauses table_alias))).
  { destruct (numeric_range f) as [nr|]; [|done].
    cbn [when_some from_option].
    unfold numeric_range_clauses, clauses_paired.
    by destruct (nr_min nr), (nr_max nr). }
  destruct Hdate as [Hdate Hdate'], Hcert as [Hcert Hcert'],
    Hexclude as [Hexclude Hexclude'], Hnumeric as [Hnumeric Hnumeric'].
  split.
  - unfold filter_clauses, filter_bindings. cbn [add_clauses snd].
    by rewrite Hdate, Hcert, Hcompany, Hexclude, Hnumeric.
  - unfold filter_clauses.
    repeat apply add_clauses_paired; try done.
    unfold clauses_paired. by rewrite Hcompany.
Qed.

Lemma filter_parameters_bindings (filters : option Filters) :
  snd (_build_filter_conditions str_lower filters table_alias available)
  = filter_bindings str_lower available filters.
Proof.
  unfold _build_filter_conditions. destruct filters as [f|]; [|done].
  destruct (filter_clauses_values f) as [Hvalues Hpaired].
  destruct (filters_empty f) eqn:Hempty.
  - unfold filters_empty in Hempty. unfold filter_bindings.
    destruct (date_range f), (certification_type f), (company_type f),
      (exclude_keywords f), (numeric_range f); done.
  - rewrite <- Hvalues. unfold clauses_paired in Hpaired.
    destruct (filter_clauses _ _ _ f) as [conditions parameters].
    cbn [fst snd] in *. destruct conditions; [by rewrite Hpaired|done].
Qed.

End FilterValues.

(** Numbers are written without a question mark. *)
Lemma placeholders_pretty_N_go (x : N) (text : string) :
  placeholders (pretty_N_go x text) = placeholders text.
Proof.
  revert text. induction (N.lt_wf_0 x) as [x _ IH]; intros text.
  destruct (decide (x = 0)%N) as [->|Hx]; [by rewrite pretty_N_go_0|].
  rewrite pretty_N_go_step by lia.
  rewrite IH by (apply N.div_lt; lia).
  unfold placeholders. cbn [count_char].
  unfold pretty_N_char. generalize (x `mod` 10)%N. intros digit.
  destruct digit as [|d]; [done|].
  do 4 (try destruct d as [d|d|]); done.
Qed.

Lemma placeholders_pretty_Z (z : Z) : placeholders (pretty z) = 0%nat.
Proof.
  assert (Hpos : ∀ n : N, placeholders (pretty n) = 0%nat).
  { intros n. unfold pretty, pretty_N.
    destruct (decide (n = 0)%N); [done|]. by rewrite placeholders_pretty_N_go. }
  destruct z as [|q|q]; [done|apply Hpos|].
  change (pretty (Z.neg q)) with ("-" +:+ pretty (N.pos q)).
  by rewrite placeholders_app, Hpos.
Qed.

Lemma placeholders_line text : placeholders (line text) = placeholders text.
Proof. unfold line. by rewrite !placeholders_app. Qed.

(** The query text holds the placeholders of its projection, of its
    base query, of its predicate and of its ORDER BY, and no other. *)
Lemma placeholders_assemble select base conditions order effective_limit
    offset :
  placeholders
    (assemble_query select base conditions order effective_limit offset)
  = (placeholders select + placeholders base
     + list_sum (List.map placeholders conditions)
     + placeholders (order_clause_of order))%nat.
Proof.
  unfold assemble_query.
  rewrite !placeholders_app, !placeholders_line, !placeholders_app.
  rewrite placeholders_pretty_Z.
  assert (Hlimit : placeholders (limit_clause_of effective_limit) = 0%nat).
  { destruct effective_limit as [l|]; [|done]. cbn [limit_clause_of].
    by rewrite placeholders_app, placeholders_pretty_Z. }
  rewrite Hlimit.
  destruct conditions as [|c cs].
  - cbn. lia.
  - rewrite placeholders_line, placeholders_app, placeholders_join by done.
    cbn. lia.
Qed.

Section QueryPlaceholders.

Variable available : list string.
Hypothesis available_plain : Forall plain_name available.

Lemma available_column_plain col : col ∈ available → placeholders col = 0%nat.
Proof. rewrite Forall_forall in available_plain. apply available_plain. Qed.

Lemma usable_column_in_schema candidates col :
  usable_column candidates available = Some col → placeholders col = 0%nat.
Proof.
  intros Hcol. apply usable_column_elem in Hcol as (_ & Hav & _).
  by apply available_column_plain.
Qed.

Lemma quoted_columns_plain (cols : list string) :
  (∀ x, x ∈ cols → placeholders x = 0%nat) →
  list_sum (List.map placeholders
              (List.map (fun col => quoted EmptyString col) cols)) = 0%nat.
Proof.
  induction cols as [|col cols IH]; intros Hall; [done|].
  cbn [List.map]. unfold list_sum in *. cbn [fold_right].
  rewrite placeholders_quoted, (Hall col) by left.
  rewrite IH; [done|]. intros x Hx. apply Hall. by right.
Qed.

Lemma essential_columns_plain self search display :
  placeholders (_get_essential_columns self search display available)
  = 0%nat.
Proof.
  pose proof available_column_plain as Hplain.
  unfold _get_essential_columns.
  destruct (_ || _); [done|].
  assert (Hkept : ∀ wanted,
    placeholders
      match List.filter (fun col => Py.mem col available) wanted with
      | [] => "*"
      | _ :: _ =>
          Py.join ", "
            (List.map (fun col => quoted EmptyString col)
               (List.filter (fun col => Py.mem col available) wanted))
      end = 0%nat).
  { intros wanted.
    destruct (List.filter _ wanted) as [|c cs] eqn:Hfilter; [done|].
    rewrite placeholders_join by done. apply quoted_columns_plain.
    intros x Hx. rewrite <- Hfilter in Hx.
    apply list_filter_elem in Hx as [_ Hx]. apply Hplain. by apply mem_true. }
  specialize (Hkept (essential_candidates self search display available)).
  by destruct available.
Qed.

Lemma date_order_expression_plain col alias :
  placeholders col = 0%nat → placeholders alias = 0%nat →
  placeholders (_build_date_order_expression col alias) = 0%nat.
Proof.
  intros Hcol Halias. unfold _build_date_order_expression.
  rewrite !placeholders_app, !placeholders_quoted, Hcol, Halias. done.
Qed.

Lemma order_clause_plain self using_parquet structure essential_cols :
  placeholders
    (order_clause_of
       (order_by (choose_order self using_parquet structure essential_cols
                    available)))
  = 0%nat.
Proof.
  pose proof available_column_plain as Hplain.
  pose proof usable_column_in_schema as Husable.
  assert (Hclause : ∀ o, placeholders o = 0%nat →
                         placeholders (order_clause_of (Some o)) = 0%nat).
  { intros o Ho. cbn [order_clause_of]. destruct (Py.truthy o); [|done].
    by rewrite placeholders_app, Ho. }
  unfold choose_order. destruct using_parquet; [done|].
  destruct (is_nested structure).
  - cbn [order_by]. apply Hclause.
    destruct (usable_column nested_sort_candidates available) as [f|] eqn:Hf;
      [|done].
    by rewrite placeholders_quoted, (Husable _ _ Hf).
  - destruct (usable_column date_candidates available) as [d|] eqn:Hd;
      destruct (usable_column product_candidates available) as [q|] eqn:Hq;
      cbn [app order_by]; apply Hclause.
    + rewrite placeholders_join by done. cbn [List.map].
      unfold list_sum. cbn [fold_right].
      rewrite !placeholders_app, placeholders_quoted,
        (Husable _ _ Hq),
        (date_order_expression_plain d EmptyString
           (Husable _ _ Hd) eq_refl).
      done.
    + rewrite placeholders_join by done. cbn [List.map].
      unfold list_sum. cbn [fold_right].
      rewrite !placeholders_app,
        (date_order_expression_plain d EmptyString
           (Husable _ _ Hd) eq_refl).
      done.
    + rewrite placeholders_join by done. cbn [List.map].
      unfold list_sum. cbn [fold_right].
      rewrite !placeholders_app, placeholders_quoted,
        (Husable _ _ Hq).
      done.
    + destruct available as [|a av] eqn:Hav; [done|].
      destruct (String.eqb a "1"); [done|].
      rewrite placeholders_quoted.
      assert (Ha : placeholders a = 0%nat) by (apply Hplain; left).
      by rewrite Ha.
Qed.

Lemma select_clause_plain self using_parquet structure search display :
  placeholders
    (select_clause
       (choose_order self using_parquet structure
          (_get_essential_columns self search display available) available))
  = 0%nat.
Proof.
  unfold choose_order. destruct using_parquet;
    [apply essential_columns_plain|].
  destruct (is_nested structure); [done|].
  by destruct (_ ++ _).
Qed.

End QueryPlaceholders.

Lemma combined_conditions_bound where_text filter_text
    (wp fp : list value) :
  placeholders where_text = length wp →
  placeholders filter_text = length fp →
  let combined := combine_conditions where_text wp filter_text fp in
  list_sum (List.map placeholders (fst combined)) = length (snd combined)
  ∧ snd combined = wp ++ fp.
Proof.
  intros Hw Hf. unfold combine_conditions.
  assert (Hwrap : ∀ text,
    placeholders ("(" +:+ text +:+ ")") = placeholders text).
  { intros text. rewrite !placeholders_app. cbn. lia. }
  destruct (String.eqb_spec where_text "1=1") as [->|_];
    destruct (String.eqb_spec filter_text "1=1") as [->|_];
    cbn [fst snd app List.map]; unfold list_sum; cbn [fold_right].
  - cbn in Hw, Hf. destruct wp, fp; done.
  - cbn in Hw. destruct wp; [|done]. rewrite Hwrap, Hf. split; [lia|done].
  - cbn in Hf. destruct fp; [|done].
    rewrite Hwrap, Hw, !app_nil_r. split; [lia|done].
  - rewrite !Hwrap, Hw, Hf, length_app. split; [lia|done].
Qed.

(** C9, amended. Over one schema and one dataset, two compilations that
    differ only in a non-empty keyword and in the values of filter
    dictionaries of the same shape produce the same SQL text and as many
    bound parameters. The parameter list holds the values: one pattern
    of the keyword per searched column, then the filter values in the
    order of their predicates (date start and end, certification types,
    exclude keywords per product and company column, numeric minimum and
    maximum), the parameters of a predicate that came out as [1=1] being
    dropped. When neither the base query nor a column name holds a
    question mark, the text carries exactly one placeholder per
    parameter, and no predicate with parameters is dropped. *)
Theorem compiled_text_independent_of_values (str_lower : string → string)
    (case_config : CaseConfig) (self : DuckDBProcessor) (src : source)
    (base : string) (keyword keyword' search_field : string)
    (limit : option Z) (page : Z) (filters filters' : option Filters) :
  Py.truthy keyword = true → Py.truthy keyword' = true →
  option_rel same_shape filters filters' →
  let q := compile_query str_lower case_config self src base (Some keyword)
             search_field limit page filters in
  let q' := compile_query str_lower case_config self src base (Some keyword')
              search_field limit page filters' in
  let w := _build_where_clause str_lower case_config self (using_parquet src)
             (structure src) (available_fields src) (Some keyword)
             search_field in
  let f := _build_filter_conditions str_lower filters EmptyString
             (available_fields src) in
  let searched :=
    keyword_bindings str_lower case_config (available_fields src) keyword
      search_field in
  let filtered := filter_bindings str_lower (available_fields src) filters in
  filtered_query q = filtered_query q'
  ∧ length (combined_parameters q) = length (combined_parameters q')
  ∧ combined_parameters q
    = (if String.eqb (where_clause w) "1=1" then [] else searched)
      ++ (if String.eqb (fst f) "1=1" then [] else filtered)
  ∧ (plain_name base →
     Forall plain_name (available_fields src) →
     numeric_column_plain filters →
     placeholders (filtered_query q) = length (combined_parameters q)
     ∧ combined_parameters q = searched ++ filtered).
Proof.
  intros Hkw Hkw' Hshape q q' w f searched filtered.
  subst q q' w f searched filtered. unfold compile_query.
  cbn [filtered_query combined_parameters].
  destruct (where_form_alike str_lower case_config self (using_parquet src)
              (structure src) (available_fields src) keyword keyword'
              search_field Hkw Hkw') as (Hwtext & Hwlen & Hwdyn).
  destruct (filter_conditions_alike str_lower EmptyString
              (available_fields src) filters filters' Hshape)
    as [Hftext Hflen].
  rewrite <- Hwtext, <- Hftext, <- Hwdyn.
  destruct (combine_conditions_alike
              (where_clause
                 (_build_where_clause str_lower case_config self
                    (using_parquet src) (structure src) (available_fields src)
                    (Some keyword) search_field))
              (fst (_build_filter_conditions str_lower filters EmptyString
                      (available_fields src)))
              _ _ _ _ Hwlen Hflen) as [Hctext Hclen].
  pose proof (where_parameters_bindings str_lower case_config self
                (using_parquet src) (structure src) (available_fields src)
                keyword search_field Hkw) as Hsearched.
  pose proof (filter_parameters_bindings str_lower EmptyString
                (available_fields src) filters) as Hfiltered.
  split; [by rewrite Hctext|]. split; [done|]. split.
  { rewrite combine_conditions_order. by rewrite Hsearched, Hfiltered. }
  intros Hbase Hplain Hnumeric.
  pose proof (where_clause_bound str_lower case_config self
                (using_parquet src) (structure src) (available_fields src)
                (Some keyword) search_field Hplain) as Hwbound.
  pose proof (filter_clause_bound str_lower EmptyString
                (available_fields src) eq_refl Hplain filters Hnumeric)
    as Hfbound.
  cbn zeta in Hwbound.
  destruct (combined_conditions_bound _ _ _ _ Hwbound Hfbound)
    as [Hbound Hall].
  rewrite placeholders_assemble.
  rewrite (select_clause_plain _ Hplain), (order_clause_plain _ Hplain).
  unfold plain_name in Hbase. rewrite Hbase, Hbound.
  split; [lia|]. by rewrite Hall, Hsearched, Hfiltered.
Qed.

Lemma compiled_text_independent_of_values_witness :
  let compile kw f :=
    compile_query Py.lower fallback_case_config
      (remote_processor "https://host/data.parquet") dated_source
      "SELECT * FROM read_parquet('https://host/data.parquet')"
      (Some kw) "company_name" (Some 20) 2 f in
  filtered_query (compile "Acme" (dated_filters "2024-01-01" "test"))
  = filtered_query
      (compile "x' OR 1=1 --" (dated_filters "1999-12-31" "'; DROP"))
  ∧ combined_parameters
      (compile "x' OR 1=1 --" (dated_filters "1999-12-31" "'; DROP"))
    = [VStr "%x' or 1=1 --%"; VStr "1999-12-31"; VStr "%'; drop%";
       VStr "%'; drop%"]
  ∧ placeholders
      (filtered_query (compile "Acme" (dated_filters "2024-01-01" "test")))
    = 4%nat.
Proof.
  intros compile.
  destruct (compiled_text_independent_of_values Py.lower fallback_case_config
              (remote_processor "https://host/data.parquet") dated_source
              "SELECT * FROM read_parquet('https://host/data.parquet')"
              "Acme" "x' OR 1=1 --" "company_name" (Some 20) 2
              (dated_filters "2024-01-01" "test")
              (dated_filters "1999-12-31" "'; DROP"))
    as (Htext & _ & _ & Hbound); [reflexivity|reflexivity|repeat split|].
  split; [exact Htext|]. split; [vm_compute; reflexivity|].
  destruct Hbound as [Hcount _];
    [reflexivity|repeat constructor|exact I|].
  subst compile. cbn beta. rewrite Hcount. vm_compute. reflexivity.
Defined.

(** ** Case policy of the search predicate *)

(** X8. Two non-empty keywords that differ only in letter case compile to
    the same search predicate with the same parameters, when every column
    searched is case-insensitive by the configuration and is no
    certification-number column. *)
Theorem case_insensitive_search (str_lower : string → string)
    (case_config : CaseConfig) (self : DuckDBProcessor)
    (using_parquet : bool) (structure : json_structure)
    (available : list string) (keyword keyword' search_field : string) :
  Py.truthy keyword = true → Py.truthy keyword' = true →
  str_lower keyword = str_lower keyword' →
  search_field ∉ exact_match_fields →
  (∀ f, f ∈ existing_search_fields search_field available →
        _is_field_case_insensitive case_config f = true
        ∧ f ∉ cert_number_fields) →
  where_form_of
    (_build_where_clause str_lower case_config self using_parquet structure
       available (Some keyword) search_field)
  = where_form_of
      (_build_where_clause str_lower case_config self using_parquet structure
         available (Some keyword') search_field).
Proof.
  intros Hkw Hkw' Hlower Hexact%mem_false Hfields.
  rewrite !build_where_general by done.
  assert (Hmap : ∀ table_alias,
    List.map (general_cond str_lower case_config table_alias keyword)
      (existing_search_fields search_field available)
    = List.map (general_cond str_lower case_config table_alias keyword')
        (existing_search_fields search_field available)).
  { intros table_alias. apply map_ext_in. intros f Hf.
    apply list_elem_of_In, Hfields in Hf as [Hci Hcert%mem_false].
    unfold general_cond, _get_search_pattern_and_operator.
    by rewrite Hci, Hcert, Hlower. }
  by rewrite Hmap.
Qed.

Lemma case_insensitive_search_witness :
  let build kw :=
    where_form_of
      (_build_where_clause Py.lower fallback_case_config
         (local_processor "data.parquet") true parquet ["업체명"; "cert_date"]
         (Some kw) "company_name") in
  build "ACME" = build "acme"
  ∧ where_form_parameters (build "ACME") = [VStr "%acme%"].
Proof.
  intros build. split; [|reflexivity].
  apply (case_insensitive_search Py.lower fallback_case_config
           (local_processor "data.parquet") true parquet
           ["업체명"; "cert_date"] "ACME" "acme" "company_name");
    [reflexivity | reflexivity | reflexivity | by apply mem_false |].
  intros f Hf. vm_compute in Hf. each_member Hf.
  split; [reflexivity | by apply mem_false].
Defined.

(** ** Filters over a schema without their columns *)




(** ** One schema for one file name *)

Section SharedSchema.

Variable str_lower : string → string.
Variable url_path : string → string.
Variable path_name : string → string.
Variable engine_schema : nat → string → option (list string).
Variable resolves_tabular : DuckDBProcessor → bool.
Variable detected_structure : DuckDBProcessor → json_structure.

Lemma extracted_name_truthy path_like name :
  _extract_file_name url_path path_name path_like = Some name →
  Py.truthy path_like = true.
Proof.
  unfold _extract_file_name. by destruct (Py.truthy path_like).
Qed.

(** X10. A schema discovered for one locator serves every other locator
    with the same file name: after a successful discovery for [self], a
    lookup for [other], a different locator that is not cached by locator
    and neither is a dynamic-schema target, is answered from the
    by-file-name cache without any discovery. *)
Theorem schema_shared_by_file_name (frames : nat)
    (self other : DuckDBProcessor)
    (st : schema_state) (cols : list string) (name : string) :
  let get := _get_available_fields str_lower url_path path_name
               engine_schema resolves_tabular detected_structure frames in
  let file_name key := _extract_file_name url_path path_name key in
  _should_use_dynamic_schema (cache_key_of self)
    (file_name (cache_key_of self)) = false →
  _should_use_dynamic_schema (cache_key_of other)
    (file_name (cache_key_of other)) = false →
  file_name (cache_key_of self) = Some name →
  file_name (cache_key_of other) = Some name →
  Py.truthy name = true →
  cache_key_of self ≠ cache_key_of other →
  SCHEMA_CACHE_BY_URL st !! cache_key_of other = None →
  fst (cached_schema str_lower (cache_key_of self)
         (file_name (cache_key_of self)) st) = None →
  introspection_yields engine_schema self st cols →
  get other (snd (get self st)) = (cols, snd (get self st)).
Proof.
  intros get file_name Hdyn Hdyn' Hname Hname' Htruthy Hkeys Hother Hmiss
    Hyields.
  subst get file_name. cbn beta in *.
  destruct (missed_discovery str_lower url_path path_name engine_schema
              resolves_tabular detected_structure self frames st Hdyn
              (extracted_name_truthy _ _ Hname) Hmiss)
    as [[_ Hothers] Hcols].
  destruct (Hcols cols Hyields) as (_ & _ & Hnamed).
  set (st1 := snd (_get_available_fields str_lower url_path path_name
                     engine_schema resolves_tabular detected_structure
                     frames self st)) in *.
  assert (Hurl : SCHEMA_CACHE_BY_URL st1 !! cache_key_of other = None).
  { subst st1. rewrite Hothers; [done|]. intros Heq. by apply Hkeys. }
  assert (Hfile : SCHEMA_CACHE_BY_FILENAME st1 !! name = Some cols)
    by by apply Hnamed.
  rewrite get_available_fields_body. unfold lookup_or_discover.
  rewrite Hdyn'. unfold cached_schema.
  rewrite Hurl, Hname'. cbn [name_truthy mbind option_bind].
  by rewrite Htruthy, Hfile.
Qed.

End SharedSchema.

Lemma schema_shared_by_file_name_witness :
  let engine : nat → string → option (list string) :=
    fun _ _ => Some ["업체명"; "제품명"] in
  let get :=
    _get_available_fields Py.lower Py.url_path Py.path_name engine
      (fun _ => true) (fun _ => parquet) 0 in
  let old := remote_processor "https://old.host/data/6_approval_flattened.parquet" in
  let new := remote_processor "https://new.host/r2/6_approval_flattened.parquet" in
  get new (snd (get old empty_schema_state))
  = (["업체명"; "제품명"], snd (get old empty_schema_state)).
Proof.
  intros engine get old new.
  apply (schema_shared_by_file_name Py.lower Py.url_path Py.path_name engine
           (fun _ => true) (fun _ => parquet) 0
           old new empty_schema_state ["업체명"; "제품명"]
           "6_approval_flattened.parquet");
    try reflexivity.
  discriminate.
Defined.

(** ** The dataset a blob file name is matched to *)

Lemma string_app_assoc (a b c : string) : (a +:+ b) +:+ c = a +:+ (b +:+ c).
Proof.
  induction a as [|x a IH]; [done|].
  change (String x a +:+ b) with (String x (a +:+ b)).
  change (String x (a +:+ b) +:+ c) with (String x ((a +:+ b) +:+ c)).
  by rewrite IH.
Qed.

Lemma prefix_split (p s : string) :
  String.prefix p s = true ↔ ∃ t, s = p +:+ t.
Proof.
  revert s. induction p as [|a p IH]; intros s.
  - split; [intros _; by exists s|]. intros _. by destruct s.
  - destruct s as [|b s]; cbn [String.prefix].
    + split; [done|]. intros [t Ht]. discriminate.
    + destruct (ascii_dec a b) as [->|Hne].
      * rewrite IH. split; intros [t Ht]; exists t.
        -- by rewrite Ht.
        -- by injection Ht.
      * split; [done|]. intros [t Ht]. injection Ht as -> _. done.
Qed.

Lemma contains_cons (p : string) (c : ascii) (s : string) :
  Py.contains p (String c s)
  = String.prefix p (String c s) || Py.contains p s.
Proof.
  unfold Py.contains. cbn [String.index].
  destruct (String.prefix p (String c s)); [done|].
  by destruct (String.index 0 p s).
Qed.

Lemma contains_occurs (p s : string) :
  Py.contains p s = true ↔ ∃ a b, s = a +:+ (p +:+ b).
Proof.
  induction s as [|c s IH].
  - unfold Py.contains. cbn [String.index]. destruct p as [|x p].
    + split; [|done]. intros _. by exists EmptyString, EmptyString.
    + split; [done|]. intros (a & b & Hs). by destruct a.
  - rewrite contains_cons, orb_true_iff, prefix_split, IH. split.
    + intros [[t Ht]|(a & b & Hs)].
      * by exists EmptyString, t.
      * exists (String c a), b. by rewrite Hs.
    + intros (a & b & Hs). destruct a as [|x a].
      * left. by exists b.
      * right. exists a, b. by injection Hs.
Qed.

Lemma contains_right_part (x y s : string) :
  Py.contains (x +:+ y) s = true → Py.contains y s = true.
Proof.
  rewrite !contains_occurs. intros (a & b & ->).
  exists (a +:+ x), b. by rewrite !string_app_assoc.
Qed.

Lemma contains_left_part (x y s : string) :
  Py.contains (x +:+ y) s = true → Py.contains x s = true.
Proof.
  rewrite !contains_occurs. intros (a & b & ->).
  exists a, (y +:+ b). by rewrite !string_app_assoc.
Qed.

(** X11. The pattern table is scanned in order and earlier patterns are
    parts of later ones: a file name that holds [safetykoreachild] or
    [safetykoreahome] is matched to the dataset [safetykorea], and one
    that holds [high_efficiency] to one of the three datasets listed
    before [high_efficiency], never to it. *)
Theorem shadowed_dataset_patterns (file_name_lower : string) :
  (Py.contains "safetykoreachild" file_name_lower = true
   ∨ Py.contains "safetykoreahome" file_name_lower = true →
   matched_dataset_of file_name_lower = Some "safetykorea")
  ∧ (Py.contains "high_efficiency" file_name_lower = true →
     matched_dataset_of file_name_lower
     ∈ [Some "safetykorea"; Some "wadiz"; Some "efficiency"]).
Proof.
  split.
  - intros Hname.
    assert (Hfirst : Py.contains "safetykorea" file_name_lower = true).
    { destruct Hname as [Hchild|Hhome].
      - by apply (contains_left_part "safetykorea" "child").
      - by apply (contains_left_part "safetykorea" "home"). }
    unfold matched_dataset_of, dataset_patterns.
    cbn [List.find existsb snd]. by rewrite Hfirst.
  - intros Hname.
    assert (Hthird : Py.contains "efficiency" file_name_lower = true)
      by by apply (contains_right_part "high_" "efficiency").
    unfold matched_dataset_of, dataset_patterns.
    cbn [List.find existsb snd].
    destruct (Py.contains "safetykorea" file_name_lower
              || (Py.contains "safety_korea" file_name_lower || false));
      [cbn; set_solver|].
    destruct (Py.contains "wadiz" file_name_lower
              || (Py.contains "makers" file_name_lower || false));
      [cbn; set_solver|].
    rewrite Hthird. cbn. set_solver.
Qed.

Lemma shadowed_dataset_patterns_witness :
  matched_dataset_of "10_safetykoreachild_enhanced.duckdb" = Some "safetykorea"
  ∧ matched_dataset_of "4_high_efficiency.duckdb" = Some "efficiency".
Proof.
  destruct (shadowed_dataset_patterns "10_safetykoreachild_enhanced.duckdb")
    as [Hchild _].
  split; [apply Hchild; left; reflexivity | reflexivity].
Defined.

(** ** The projection and the dynamically required fields *)

(** X12. The projection is the wildcard or the comma-separated quoted list
    of the kept columns; the kept columns are non-empty names of the
    schema, and no column is listed twice when the dynamically required
    fields hold no duplicate. *)
Theorem projection_lists_schema_columns (self : DuckDBProcessor)
    (search display available : list string) :
  NoDup (dynamic_required_fields self) →
  let kept := existing_cols self search display available in
  (_get_essential_columns self search display available = "*"
   ∨ kept ≠ []
     ∧ _get_essential_columns self search display available
       = Py.join ", " (List.map (fun col => quoted EmptyString col) kept))
  ∧ NoDup kept
  ∧ ∀ col, col ∈ kept → col ∈ available ∧ Py.truthy col = true.
Proof.
  intros Hdyn kept. subst kept. unfold existing_cols. split; [|split].
  - unfold _get_essential_columns.
    destruct (_ || _); [by left|].
    destruct available as [|a av]; [by left|].
    destruct (List.filter _ _) as [|c cs] eqn:Hkept; [by left|].
    right. split; done.
  - by apply list_filter_NoDup, essential_candidates_NoDup.
  - intros col Hcol. apply list_filter_elem in Hcol as [Hcand Hav].
    split; [by apply mem_true|].
    by eapply essential_candidates_truthy.
Qed.

Lemma projection_lists_schema_columns_witness :
  let self :=
    {| file_path_str := "data.parquet"; is_url := false;
       file_path := "data.parquet"; category := Some "dataA";
       subcategory := Some "approval"; result_type := None;
       required_fields := ["제품명"; "missing"];
       dynamic_required_fields := ["업체명"] |} in
  NoDup ["업체명"]
  ∧ _get_essential_columns self ["제품명"; "업체명"] ["제품명"]
      ["업체명"; "제품명"; "cert_date"]
    = Py.join ", "
        (List.map (fun col => quoted EmptyString col)
           ["제품명"; "업체명"; "cert_date"]).
Proof.
  intros self.
  assert (Hdyn : NoDup ["업체명"]) by (repeat constructor; set_solver).
  split; [exact Hdyn|].
  destruct (projection_lists_schema_columns self ["제품명"; "업체명"]
              ["제품명"] ["업체명"; "제품명"; "cert_date"] Hdyn)
    as ([Hstar|[_ Hlist]] & _ & _).
  - discriminate Hstar.
  - rewrite Hlist. reflexivity.
Defined.

Lemma add_required_grows acc cols :
  NoDup acc →
  let grown := add_required acc cols in
  NoDup grown
  ∧ acc `prefix_of` grown
  ∧ ∀ x, x ∈ grown → x ∈ acc ∨ x ∈ cols.
Proof.
  unfold add_required. revert acc.
  induction cols as [|col cols IH]; intros acc Hacc; cbn [fold_left].
  - repeat split; [done|done|]. intros x Hx. by left.
  - destruct (Py.truthy col && negb (Py.mem col acc)) eqn:Hadd.
    + apply andb_true_iff in Hadd as [_ Hnew%negb_true_iff%mem_false].
      destruct (IH (acc ++ [col])) as (Hnodup & Hprefix & Helem).
      { apply NoDup_app. split; [done|]. split; [|apply NoDup_singleton].
        intros x Hx ->%list_elem_of_singleton. done. }
      split; [done|]. split.
      * etrans; [|exact Hprefix]. by apply prefix_app_r.
      * intros x Hx. apply Helem in Hx as [[?| ->%list_elem_of_singleton]%elem_of_app|?].
        -- by left.
        -- right. left.
        -- right. by right.
    + destruct (IH acc Hacc) as (Hnodup & Hprefix & Helem).
      split; [done|]. split; [done|].
      intros x Hx. apply Helem in Hx as [?|?]; [by left|right; by right].
Qed.

(** X13. Compiling a query only appends to the dynamically required
    fields: the fields present before stay first and in order, every
    field added is a column of the schema, and a list without duplicates
    stays without duplicates. *)
Theorem compile_grows_dynamic_fields (str_lower : string → string)
    (case_config : CaseConfig) (self : DuckDBProcessor) (src : source)
    (base : string) (keyword : option string) (search_field : string)
    (limit : option Z) (page : Z) (filters : option Filters) :
  NoDup (dynamic_required_fields self) →
  let after :=
    dynamic_required_fields
      (compiled_self
         (compile_query str_lower case_config self src base keyword
            search_field limit page filters)) in
  NoDup after
  ∧ dynamic_required_fields self `prefix_of` after
  ∧ ∀ x, x ∈ after →
         x ∈ dynamic_required_fields self ∨ x ∈ available_fields src.
Proof.
  intros Hdyn after. subst after. unfold compile_query.
  cbn [compiled_self with_dynamic_required dynamic_required_fields].
  set (w := _build_where_clause _ _ _ _ _ _ _ _).
  assert (Hwhere :
    NoDup (where_dynamic_required w)
    ∧ dynamic_required_fields self `prefix_of` where_dynamic_required w
    ∧ ∀ x, x ∈ where_dynamic_required w →
           x ∈ dynamic_required_fields self ∨ x ∈ available_fields src).
  { subst w. unfold _build_where_clause.
    destruct (keyword_missing keyword); [by repeat split; auto|].
    destruct (Py.mem search_field exact_match_fields);
      [by repeat split; auto|].
    cbn [where_dynamic_required].
    destruct (add_required_grows (dynamic_required_fields self)
                (existing_search_fields search_field (available_fields src))
                Hdyn) as (Hnodup & Hprefix & Helem).
    split; [done|]. split; [done|].
    intros x Hx. apply Helem in Hx as [?|Hx]; [by left|right].
    by eapply existing_search_fields_available. }
  destruct Hwhere as (Hnodup & Hprefix & Helem).
  set (self1 := with_dynamic_required self (where_dynamic_required w)).
  assert (Horder : ∀ essential,
    let chosen := order_dynamic_required
                    (choose_order self1 (using_parquet src) (structure src)
                       essential (available_fields src)) in
    NoDup chosen
    ∧ where_dynamic_required w `prefix_of` chosen
    ∧ ∀ x, x ∈ chosen →
           x ∈ where_dynamic_required w ∨ x ∈ available_fields src).
  { intros essential. unfold choose_order.
    destruct (using_parquet src); [by repeat split; auto|].
    destruct (is_nested (structure src)); [by repeat split; auto|].
    destruct (usable_column date_candidates (available_fields src))
      as [d|] eqn:Hd;
    destruct (usable_column product_candidates (available_fields src))
      as [p|] eqn:Hp;
      cbn [app order_dynamic_required option_list];
      try (by repeat split; auto).
    all: cbn [dynamic_required_fields self1 with_dynamic_required].
    all: match goal with
         | |- context [add_required ?acc ?cols] =>
             destruct (add_required_grows acc cols Hnodup)
               as (Hn & Hpre & Hel)
         end.
    all: split; [done|]; split; [done|].
    all: intros x Hx; apply Hel in Hx as [?|Hx]; [by left|right].
    all: try apply usable_column_elem in Hd as (_ & Hd & _).
    all: try apply usable_column_elem in Hp as (_ & Hp & _).
    all: cbn [app option_list] in Hx; each_member Hx; done. }
  destruct (Horder (_get_essential_columns self1 (search_columns src)
                      (display_columns src) (available_fields src)))
    as (Hn & Hpre & Hel).
  split; [done|]. split; [by etrans|].
  intros x Hx. apply Hel in Hx as [Hx|?]; [by apply Helem|by right].
Qed.

Lemma compile_grows_dynamic_fields_witness :
  NoDup (dynamic_required_fields (local_processor "data.json"))
  ∧ dynamic_required_fields
      (compiled_self
         (compile_query Py.lower fallback_case_config
            (local_processor "data.json")
            {| using_parquet := false; structure := array;
               available_fields := ["id"; "업체명"; "cert_date"];
               search_columns := []; display_columns := [];
               base_query := inr "SELECT * FROM read_json_auto('data.json')" |}
            "SELECT * FROM read_json_auto('data.json')" (Some "Acme")
            "company_name" (Some 20) 1 None))
    = ["업체명"; "cert_date"].
Proof.
  assert (Hdyn : NoDup (dynamic_required_fields (local_processor "data.json")))
    by constructor.
  split; [exact Hdyn|].
  pose proof (compile_grows_dynamic_fields Py.lower fallback_case_config
                (local_processor "data.json")
                {| using_parquet := false; structure := array;
                   available_fields := ["id"; "업체명"; "cert_date"];
                   search_columns := []; display_columns := [];
                   base_query :=
                     inr "SELECT * FROM read_json_auto('data.json')" |}
                "SELECT * FROM read_json_auto('data.json')" (Some "Acme")
                "company_name" (Some 20) 1 None Hdyn) as (_ & _ & _).
  reflexivity.
Defined.

(** ** Paths inside SQL text *)

Lemma read_literal_escaped (path rest : string) :
  no_leading_quote rest →
  read_literal (_escape_path path +:+ String squote rest) = Some (path, rest).
Proof.
  intros Hrest. induction path as [|a path IH].
  - cbn [_escape_path]. change (EmptyString +:+ ?s) with s.
    cbn [read_literal]. rewrite Ascii.eqb_refl.
    destruct rest as [|b rest]; [done|]. cbn in Hrest. by rewrite Hrest.
  - cbn [_escape_path]. destruct (Ascii.eqb a squote) eqn:Ha.
    + apply Ascii.eqb_eq in Ha as ->.
      change (String squote (String squote ?s) +:+ ?t)
        with (String squote (String squote (s +:+ t))).
      cbn [read_literal]. rewrite Ascii.eqb_refl, IH. done.
    + change (String a ?s +:+ ?t) with (String a (s +:+ t)).
      cbn [read_literal]. rewrite Ha, IH. done.
Qed.

(** X14. A path cannot leave the quoted literal it is written into: read
    back by the engine, the literal of the table expression built for a
    path is that path, whatever quotes it holds, and what follows is the
    closing parenthesis; the same holds for the ATTACH statement. *)
Theorem escaped_path_reads_back (path alias : string) :
  (∃ literal,
     parquet_table_expression path = "read_parquet('" +:+ literal
     ∧ read_literal literal = Some (path, ")"))
  ∧ (∃ literal,
       attach_statement path alias = "ATTACH '" +:+ literal
       ∧ read_literal literal
         = Some (path, " AS " +:+ alias +:+ " (READ_ONLY)")).
Proof.
  split.
  - exists (_escape_path path +:+ String squote ")"). split; [done|].
    by apply read_literal_escaped.
  - exists (_escape_path path
            +:+ String squote (" AS " +:+ alias +:+ " (READ_ONLY)")).
    split; [done|]. by apply read_literal_escaped.
Qed.

(** ** One connection for one locator *)

Lemma pool_lookup_insert (m : gmap string nat) (key key' : string) (v : nat) :
  is_Some (<[key := v]> m !! key') ↔ key = key' ∨ is_Some (m !! key').
Proof.
  destruct (decide (key = key')) as [->|Hne].
  - rewrite lookup_insert_eq. split; [by left|by eexists].
  - rewrite lookup_insert_ne by done. split; [by right|]. by intros [?|?].
Qed.

(** X15. On a well-formed pool the lock lookup cannot fail: a call either
    reports that the connection could not be created, leaving the pool
    untouched by its failure, or returns a connection with its lock and
    a pool that is still well formed, in which that key keeps the same
    connection and lock on every later call and every other key keeps
    what it had. *)
Theorem connection_pool_reuse (can_connect : nat → bool) (key : string)
    (st : pool_state) :
  pool_wf st →
  match _get_or_create_connection can_connect key st with
  | inl e =>
      e = ConnectFailed ∧ CONNECTION_CACHE st !! key = None
  | inr (conn, conn_lock, st') =>
      pool_wf st'
      ∧ _get_or_create_connection can_connect key st'
        = inr (conn, conn_lock, st')
      ∧ (∀ other, other ≠ key →
           CONNECTION_CACHE st' !! other = CONNECTION_CACHE st !! other
           ∧ CONNECTION_LOCKS st' !! other = CONNECTION_LOCKS st !! other)
      ∧ (∀ other conn', other ≠ key →
           CONNECTION_CACHE st' !! other = Some conn' → conn' ≠ conn)
  end.
Proof.
  intros (Hlocks & Hbelow & Hinj). unfold _get_or_create_connection.
  destruct (CONNECTION_CACHE st !! key) as [conn|] eqn:Hcache.
  - destruct (Hlocks key) as [Hlock _].
    destruct Hlock as [conn_lock Hlock]; [by eexists|].
    rewrite Hlock. split; [done|]. split; [by rewrite Hcache, Hlock|].
    split; [done|]. intros other conn' Hne Hother ->.
    by apply Hne, (Hinj other key conn).
  - destruct (can_connect (created st)); [|done].
    cbn [CONNECTION_LOCKS CONNECTION_CACHE]. rewrite lookup_insert_eq.
    split; [|split; [|split]].
    + split; [|split]; cbn [CONNECTION_CACHE CONNECTION_LOCKS created].
      * intros k. rewrite !pool_lookup_insert. by rewrite Hlocks.
      * intros k c. destruct (decide (key = k)) as [->|Hne].
        -- rewrite lookup_insert_eq. intros [= <-]. lia.
        -- rewrite lookup_insert_ne by done. intros Hk%Hbelow. lia.
      * intros k k' c.
        destruct (decide (key = k)) as [Hk|Hk],
                 (decide (key = k')) as [Hk'|Hk'];
          rewrite <- ?Hk, <- ?Hk';
          rewrite ?lookup_insert_eq, ?lookup_insert_ne by done.
        -- congruence.
        -- intros [= <-] Hc%Hbelow. lia.
        -- intros Hc%Hbelow [= <-]. lia.
        -- apply Hinj.
    + cbn [CONNECTION_CACHE CONNECTION_LOCKS]. by rewrite !lookup_insert_eq.
    + intros other Hne. cbn [CONNECTION_CACHE CONNECTION_LOCKS].
      by rewrite !lookup_insert_ne.
    + intros other conn' Hne. cbn [CONNECTION_CACHE].
      rewrite lookup_insert_ne by done. intros Hother%Hbelow. lia.
Qed.

Lemma connection_pool_reuse_witness :
  let empty := {| CONNECTION_CACHE := ∅; CONNECTION_LOCKS := ∅;
                  created := 0 |} in
  pool_wf empty
  ∧ ∃ st, _get_or_create_connection (fun _ => true) "a.parquet" empty
          = inr (0%nat, 0%nat, st)
          ∧ _get_or_create_connection (fun _ => true) "a.parquet" st
            = inr (0%nat, 0%nat, st).
Proof.
  intros empty.
  assert (Hwf : pool_wf empty).
  { split; [|split].
    - intros key. cbn. by rewrite !lookup_empty.
    - intros key conn. cbn. by rewrite lookup_empty.
    - intros key key' conn. cbn. by rewrite lookup_empty. }
  split; [exact Hwf|].
  pose proof (connection_pool_reuse (fun _ => true) "a.parquet" empty Hwf)
    as Hreuse.
  destruct (_get_or_create_connection (fun _ => true) "a.parquet" empty)
    as [e|[[conn conn_lock] st]] eqn:Hget.
  - exfalso. vm_compute in Hget. discriminate Hget.
  - assert (conn = 0%nat ∧ conn_lock = 0%nat) as [-> ->].
    { vm_compute in Hget. by injection Hget as <- <- _. }
    exists st. split; [reflexivity|]. by destruct Hreuse as (_ & Hagain & _).
Defined.

(** ** Remote database files are downloaded once *)

Section LocalCopyProperties.

Variable url_path : string → string.
Variable path_name : string → string.
Variable md5_hex : string → string.
Variable download_suffix : string → string.
Variable fetch : nat → string → option string.

Local Abbreviation ensure :=
  (_ensure_local_duckdb_copy url_path path_name md5_hex download_suffix fetch).
Local Abbreviation resolve :=
  (resolve_tabular_url url_path path_name md5_hex download_suffix fetch).

Lemma ensure_cached (source_url cached : string) (st : download_state) :
  DUCKDB_REMOTE_CACHE st !! source_url = Some cached →
  cached ∈ files st →
  ensure source_url st = (inr cached, st).
Proof.
  intros Hcache Hfile. unfold _ensure_local_duckdb_copy.
  by rewrite Hcache, bool_decide_eq_true_2.
Qed.

Lemma ensure_outcomes (source_url : string) (st : download_state) :
  match ensure source_url st with
  | (inr local_path, st') =>
      DUCKDB_REMOTE_CACHE st' !! source_url = Some local_path
      ∧ local_path ∈ files st'
      ∧ (st' = st ∨ (downloads st' = S (downloads st)
                     ∧ fetch (downloads st) source_url = None))
  | (inl _, st') =>
      DUCKDB_REMOTE_CACHE st' = DUCKDB_REMOTE_CACHE st
      ∧ downloads st' = S (downloads st)
      ∧ is_Some (fetch (downloads st) source_url)
  end.
Proof.
  unfold _ensure_local_duckdb_copy.
  assert (Hdownload :
    match
      match fetch (downloads st) source_url with
      | None =>
          (inr (local_copy_path url_path path_name md5_hex source_url),
           {| DUCKDB_REMOTE_CACHE :=
                <[source_url :=
                    local_copy_path url_path path_name md5_hex source_url]>
                  (DUCKDB_REMOTE_CACHE st);
              files :=
                (files st
                 ∖ {[download_suffix
                       (local_copy_path url_path path_name md5_hex
                          source_url)]})
                ∪ {[local_copy_path url_path path_name md5_hex source_url]};
              downloads := S (downloads st) |})
      | Some download_error =>
          (inl (EngineError ("DuckDB 파일 다운로드 실패: " +:+ source_url
                             +:+ " (" +:+ download_error +:+ ")")),
           {| DUCKDB_REMOTE_CACHE := DUCKDB_REMOTE_CACHE st;
              files :=
                files st
                ∖ {[download_suffix
                      (local_copy_path url_path path_name md5_hex
                         source_url)]};
              downloads := S (downloads st) |})
      end
    with
    | (inr local_path, st') =>
        DUCKDB_REMOTE_CACHE st' !! source_url = Some local_path
        ∧ local_path ∈ files st'
        ∧ (st' = st ∨ (downloads st' = S (downloads st)
                       ∧ fetch (downloads st) source_url = None))
    | (inl _, st') =>
        DUCKDB_REMOTE_CACHE st' = DUCKDB_REMOTE_CACHE st
        ∧ downloads st' = S (downloads st)
        ∧ is_Some (fetch (downloads st) source_url)
    end).
  { destruct (fetch (downloads st) source_url) eqn:Hfetch;
      cbn [DUCKDB_REMOTE_CACHE files downloads].
    - split; [done|]. split; [done|]. by eexists.
    - rewrite lookup_insert_eq. split; [done|]. split; [set_solver|].
      by right. }
  destruct (DUCKDB_REMOTE_CACHE st !! source_url) as [cached|] eqn:Hcache;
    [|exact Hdownload].
  destruct (bool_decide (cached ∈ files st)) eqn:Hfile; [|exact Hdownload].
  apply bool_decide_eq_true_1 in Hfile. split; [done|]. split; [done|].
  by left.
Qed.

(** X16. A remote database file is downloaded at most once while its copy
    stays on disk: a call that returns a local path leaves that path on
    disk and recorded for the URL, and the next call returns the same
    path without a download and without touching the state. A call that
    fails has tried exactly one download, leaves the recorded copies as
    they were, and makes the tabular-path resolution of a [.duckdb] URL
    answer that there is none instead of raising. *)
Theorem local_copy_downloaded_once (source_url : string)
    (st : download_state) :
  match ensure source_url st with
  | (inr local_path, st') =>
      DUCKDB_REMOTE_CACHE st' !! source_url = Some local_path
      ∧ local_path ∈ files st'
      ∧ (downloads st' ≤ S (downloads st))%nat
      ∧ ensure source_url st' = (inr local_path, st')
  | (inl _, st') =>
      DUCKDB_REMOTE_CACHE st' = DUCKDB_REMOTE_CACHE st
      ∧ downloads st' = S (downloads st)
      ∧ (Py.endswith source_url ".duckdb" = true →
         resolve source_url st = (None, st'))
  end.
Proof.
  pose proof (ensure_outcomes source_url st) as Hout.
  destruct (ensure source_url st) as [[e|local_path] st'] eqn:Hensure.
  - destruct Hout as (Hcache & Hdown & _). repeat split; try done.
    intros Hsuffix. unfold resolve_tabular_url. by rewrite Hsuffix, Hensure.
  - destruct Hout as (Hcache & Hfile & Hdown). repeat split; try done.
    + destruct Hdown as [->|[-> _]]; lia.
    + by apply ensure_cached.
Qed.

(** X17. A tabular path resolved for a URL is either the URL itself, for
    a URL ending in [.parquet] and without touching the download state,
    or a file that is on disk and recorded as the copy of that URL, for
    a URL ending in [.duckdb]; both suffix tests are case sensitive. *)
Theorem resolved_url_is_usable (file_path_str tabular : string)
    (st st' : download_state) :
  resolve file_path_str st = (Some tabular, st') →
  (Py.endswith file_path_str ".parquet" = true
   ∧ tabular = file_path_str ∧ st' = st)
  ∨ (Py.endswith file_path_str ".duckdb" = true
     ∧ tabular ∈ files st'
     ∧ DUCKDB_REMOTE_CACHE st' !! file_path_str = Some tabular).
Proof.
  unfold resolve_tabular_url.
  destruct (Py.endswith file_path_str ".duckdb") eqn:Hduck.
  - pose proof (ensure_outcomes file_path_str st) as Hout.
    destruct (ensure file_path_str st) as [[e|local_path] st1]; [done|].
    intros [= <- <-]. right. by destruct Hout as (? & ? & _).
  - destruct (Py.endswith file_path_str ".parquet") eqn:Hparquet; [|done].
    intros [= <- <-]. by left.
Qed.

End LocalCopyProperties.

Lemma resolved_url_is_usable_witness :
  let st := {| DUCKDB_REMOTE_CACHE := ∅; files := ∅; downloads := 0 |} in
  let url := "https://r2.example/data/kc.duckdb" in
  let copy := "/tmp/datapage_duckdb_cache/kc.duckdb" in
  ∃ st',
    resolve_tabular_url Py.url_path Py.path_name (fun _ => "0")
      (fun _ => "/tmp/datapage_duckdb_cache/kc.download") (fun _ _ => None)
      url st = (Some copy, st')
    ∧ copy ∈ files st'.
Proof.
  intros st url copy.
  destruct (resolve_tabular_url Py.url_path Py.path_name (fun _ => "0")
              (fun _ => "/tmp/datapage_duckdb_cache/kc.download")
              (fun _ _ => None) url st) as [tabular st'] eqn:Hresolve.
  assert (tabular = Some copy) as ->.
  { vm_compute in Hresolve. by injection Hresolve as <- _. }
  exists st'. split; [reflexivity|].
  destruct (resolved_url_is_usable Py.url_path Py.path_name (fun _ => "0")
              (fun _ => "/tmp/datapage_duckdb_cache/kc.download")
              (fun _ _ => None) url copy st st' Hresolve)
    as [(Hparquet & _)|(_ & Hfile & _)].
  - exfalso. vm_compute in Hparquet. discriminate Hparquet.
  - exact Hfile.
Defined.

(** ** The exported sheet *)

Section ExportProperties.

Variable json_dumps : record → string.
Variable value_str : value → string.
Variable download_fields : list string.
Variable korean_field_mapping : list (string * string).
Variable append_raises : list (list value) → list value → bool.

(** The sheet refuses no row. *)
Hypothesis sheet_takes_all : ∀ sheet row, append_raises sheet row = false.

Local Abbreviation callbacks :=
  (run_callbacks json_dumps value_str download_fields korean_field_mapping
     append_raises).
Local Abbreviation row_of := (excel_row json_dumps value_str).
Local Abbreviation handle :=
  (handle_chunk json_dumps value_str download_fields korean_field_mapping
     append_raises).

Lemma append_rows_all columns chunk sheet :
  append_rows json_dumps value_str append_raises columns chunk sheet
  = (sheet ++ List.map (row_of columns) chunk, false).
Proof.
  revert sheet. induction chunk as [|rec chunk IH]; intros sheet.
  - cbn. by rewrite app_nil_r.
  - cbn [append_rows List.map]. rewrite sheet_takes_all, IH.
    by rewrite <- app_assoc.
Qed.

Lemma handle_chunk_all first chunk count st :
  handle (first :: chunk) count st
  = (let st1 :=
       if header_written st then st
       else
         {| header_written := true;
            selected_columns := columns_for download_fields first;
            total_records := total_records st;
            worksheet :=
              worksheet st
              ++ [header_labels korean_field_mapping
                    (columns_for download_fields first)] |} in
     {| header_written := header_written st1;
        selected_columns := selected_columns st1;
        total_records := count;
        worksheet :=
          worksheet st1
          ++ List.map (row_of (selected_columns st1)) (first :: chunk) |},
     false).
Proof.
  unfold handle_chunk.
  destruct (header_written st); [|rewrite sheet_takes_all];
    by rewrite append_rows_all.
Qed.

Lemma export_callback_quiet calls chunk count :
  export_callback json_dumps value_str download_fields korean_field_mapping
    append_raises calls chunk count = false.
Proof.
  unfold export_callback. destruct chunk as [|first chunk]; [done|].
  by rewrite handle_chunk_all.
Qed.

Lemma run_callbacks_written (calls : list (list record * Z))
    (st : export_state) :
  header_written st = true →
  running_counts (total_records st) calls →
  let st' := callbacks calls st in
  header_written st' = true
  ∧ selected_columns st' = selected_columns st
  ∧ worksheet st'
    = worksheet st
      ++ List.map (row_of (selected_columns st))
           (concat (List.map fst calls))
  ∧ total_records st' = total_records st + total_handed calls.
Proof.
  revert st. induction calls as [|[chunk count] calls IH];
    intros st Hwritten Hrun.
  - cbn. rewrite app_nil_r. repeat split; try done. lia.
  - cbn [running_counts] in Hrun. destruct Hrun as [Hcount Hrun].
    cbn [run_callbacks fold_left fst snd].
    fold (callbacks calls (fst (handle chunk count st))).
    rewrite total_handed_cons. cbn [List.map concat fst].
    destruct chunk as [|first chunk].
    + cbn [handle_chunk fst]. cbn [length] in Hcount.
      assert (count = total_records st) as -> by lia.
      destruct (IH st Hwritten Hrun) as (H1 & H2 & H3 & H4).
      cbn [app length]. repeat split; try done; lia.
    + rewrite handle_chunk_all. cbn zeta. rewrite Hwritten. cbn [fst].
      set (st1 := Build_export_state _ _ _ _).
      destruct (IH st1 Hwritten Hrun) as (H1 & H2 & H3 & H4).
      split; [done|]. split; [done|]. split.
      * rewrite H3. subst st1. cbn [worksheet selected_columns].
        by rewrite <- app_assoc, <- map_app.
      * rewrite H4. subst st1. cbn [total_records]. lia.
Qed.

Lemma run_callbacks_init (calls : list (list record * Z)) :
  running_counts 0 calls →
  let st := callbacks calls export_init in
  match concat (List.map fst calls) with
  | [] => st = export_init
  | first :: records =>
      let columns := columns_for download_fields first in
      header_written st = true
      ∧ worksheet st
        = header_labels korean_field_mapping columns
          :: List.map (row_of columns) (first :: records)
      ∧ total_records st = total_handed calls
  end.
Proof.
  induction calls as [|[chunk count] calls IH]; intros Hrun; [done|].
  cbn [running_counts] in Hrun. destruct Hrun as [Hcount Hrun].
  cbn [run_callbacks fold_left fst snd List.map concat].
  fold (callbacks calls (fst (handle chunk count export_init))).
  destruct chunk as [|first chunk].
  - cbn [handle_chunk app fst]. cbn [length] in Hcount.
    assert (count = 0) as -> by lia. rewrite total_handed_cons.
    specialize (IH Hrun). cbn [fst length]. cbn zeta in IH.
    destruct (concat (List.map fst calls)); [done|].
    destruct IH as (H1 & H2 & H3). split; [done|]. split; [done|]. lia.
  - rewrite handle_chunk_all. cbn zeta. cbn [header_written export_init fst].
    set (st1 := Build_export_state _ _ _ _).
    destruct (run_callbacks_written calls st1 eq_refl Hrun)
      as (H1 & H2 & H3 & H4).
    cbn [app]. split; [done|]. split.
    + rewrite H3. subst st1. cbn [worksheet selected_columns export_init app].
      by rewrite <- map_app.
    + rewrite H4, total_handed_cons. subst st1. cbn [total_records fst]. lia.
Qed.

Lemma total_handed_length (calls : list (list record * Z)) :
  total_handed calls = Z.of_nat (length (concat (List.map fst calls))).
Proof.
  induction calls as [|call calls IH]; [done|].
  rewrite total_handed_cons. cbn [List.map concat].
  rewrite length_app, IH. lia.
Qed.

(** X18. When the sheet refuses no row, the export of a search that
    returns a page is either an HTTP 404, when no record was processed,
    or a sheet made of one header row followed by one row per record
    handed to the closure, in the order handed over, laid out on the
    download columns (the keys of the first record when there are none).
    The sheet then holds as many data rows as records were processed,
    while the [X-Total-Count] header reports 0. *)
Theorem export_sheet_rows (str_lower : string → string)
    (case_config : CaseConfig) (type_repr : value → string)
    (record_str : value → string)
    (engine_execute :
       string → list value → error + (list string * list (list value)))
    (fetch_raises : nat → bool) (size_text : Q → string)
    (fs : filesystem) (self : DuckDBProcessor) (src : source)
    (keyword : option string) (search_field : string)
    (filters : option Filters) (r : page_result) :
  let duckdb_search_large_file chunk_callback :=
    search_streaming str_lower case_config type_repr record_str
      engine_execute fetch_raises size_text fs self src keyword search_field
      None 1 filters false (Some chunk_callback) 1000 in
  duckdb_search_large_file
    (export_callback json_dumps value_str download_fields
       korean_field_mapping append_raises)
  = Page r →
  match _stream_excel_from_query json_dumps value_str download_fields
          korean_field_mapping append_raises duckdb_search_large_file with
  | HTTPException status_code _ =>
      status_code = 404 ∧ processed_records r = 0
  | Workbook rows x_total_count =>
      (∃ first records,
         concat (List.map fst (sink_calls r)) = first :: records
         ∧ rows
           = header_labels korean_field_mapping
               (columns_for download_fields first)
             :: List.map (row_of (columns_for download_fields first))
                  (first :: records))
      ∧ Z.of_nat (length rows) = 1 + processed_records r
      ∧ x_total_count = VInt 0
  | Propagated _ => False
  end.
Proof.
  intros search Hpage. subst search. cbn beta in *.
  destruct (streaming_page_calls str_lower case_config type_repr
              record_str engine_execute fetch_raises size_text fs self src
              keyword search_field None 1 filters _ 1000 r Hpage)
    as (_ & _ & Hrun & Hprocessed).
  pose proof (streaming_reports_zero_total str_lower case_config type_repr
                record_str engine_execute fetch_raises size_text fs self src
                keyword search_field None 1 filters _ 1000 r Hpage) as Hzero.
  pose proof (run_callbacks_init (sink_calls r) Hrun) as Hsheet.
  cbn zeta in Hsheet. unfold _stream_excel_from_query. rewrite Hpage.
  rewrite total_handed_length in Hprocessed.
  destruct (concat (List.map fst (sink_calls r))) as [|first records].
  - rewrite Hsheet. cbn [header_written export_init]. by split.
  - destruct Hsheet as (-> & Hrows & _). split; [|split; [|done]].
    + by exists first, records.
    + rewrite Hrows, Hprocessed. cbn [length List.map].
      rewrite !length_map. lia.
Qed.

End ExportProperties.

Lemma export_sheet_rows_witness :
  ∃ r,
    export_search
      (export_callback (fun _ => EmptyString) (fun _ => EmptyString) []
         [("company_name", "업체명")] sheet_accepts)
    = Page r
    ∧ processed_records r = 2
    ∧ _stream_excel_from_query (fun _ => EmptyString) (fun _ => EmptyString)
        [] [("company_name", "업체명")] sheet_accepts export_search
      = Workbook
          [[VStr "업체명"; VStr "cert_date"];
           [VStr "Acme"; VStr "20240101"];
           [VStr "Acme Labs"; VStr "20230101"]]
          (VInt 0).
Proof.
  eexists. split; [vm_compute; reflexivity|]. split; [reflexivity|].
  match goal with
  | |- _ = Workbook ?rows _ =>
      pose proof (export_sheet_rows (fun _ => EmptyString)
                    (fun _ => EmptyString) []
                    [("company_name", "업체명")] sheet_accepts
                    (fun _ _ => eq_refl) Py.lower
                    fallback_case_config (fun _ => EmptyString)
                    (fun _ => EmptyString) two_row_engine fetch_ok
                    remote_size_text missing_everywhere
                    (remote_processor "https://host/data.parquet")
                    one_table_source (Some "Acme") "company_name" None)
        as Hsheet
  end.
  cbn zeta in Hsheet. fold export_search in Hsheet.
  destruct (export_search _) as [e|kind message|r] eqn:Hsearch;
    [vm_compute in Hsearch; discriminate Hsearch..|].
  specialize (Hsheet r eq_refl).
  destruct (_stream_excel_from_query _ _ _ _ _ _) as [e|code detail|rows total]
    eqn:Hexport; [done| |].
  - exfalso. vm_compute in Hexport. discriminate Hexport.
  - destruct Hsheet as (_ & _ & ->). vm_compute in Hexport.
    injection Hexport as <-. reflexivity.
Defined.

(** A sheet that refuses a row: the closure raises, the search swallows
    it, and the export holds one data row although two records were
    processed. *)
Example refused_row_truncates_export :
  ∃ r,
    export_search
      (export_callback (fun _ => EmptyString) (fun _ => EmptyString) []
         [("company_name", "업체명")] sheet_refuses_labs)
    = Page r
    ∧ processed_records r = 2
    ∧ _stream_excel_from_query (fun _ => EmptyString) (fun _ => EmptyString)
        [] [("company_name", "업체명")] sheet_refuses_labs export_search
      = Workbook
          [[VStr "업체명"; VStr "cert_date"]; [VStr "Acme"; VStr "20240101"]]
          (VInt 0).
Proof.
  eexists. split; [vm_compute; reflexivity|]. split; reflexivity.
Qed.

(** ** The path inside the base query *)

Lemma read_literal_plain (path rest : string) :
  quote_free path = true →
  no_leading_quote rest →
  read_literal (path +:+ String squote rest) = Some (path, rest).
Proof.
  intros Hfree Hrest. induction path as [|a path IH].
  - change (EmptyString +:+ ?s) with s. cbn [read_literal].
    rewrite Ascii.eqb_refl. destruct rest as [|b rest]; [done|].
    cbn in Hrest. by rewrite Hrest.
  - cbn [quote_free] in Hfree. apply andb_true_iff in Hfree as [Ha Hfree].
    apply negb_true_iff in Ha.
    change (String a ?s +:+ ?t) with (String a (s +:+ t)).
    cbn [read_literal]. rewrite Ha, (IH Hfree). done.
Qed.

Lemma json_query_from (essential_cols : string) (detected : json_structure)
    (abs_file_path : string) (file_size_mb : Q) :
  ∃ select read_options,
    json_query essential_cols detected abs_file_path file_size_mb
    = select +:+ " FROM read_json_auto('"
      +:+ (abs_file_path +:+ String squote (read_options +:+ ")"))
    ∧ no_leading_quote (read_options +:+ ")").
Proof.
  unfold json_query.
  set (read_options := if Qle_bool _ _ then _ else _).
  assert (Hopts : no_leading_quote (read_options +:+ ")"))
    by (subst read_options; by destruct (Qle_bool _ _)).
  destruct detected.
  all: try (exists ("SELECT " +:+ essential_cols), read_options;
            split; [reflexivity | exact Hopts]).
  - exists ("SELECT UNNEST(" +:+ quoted EmptyString "LED램프_details"
            +:+ ") as item"), read_options.
    split; [|exact Hopts]. rewrite !string_app_assoc. reflexivity.
  - exists ("SELECT UNNEST(" +:+ quoted EmptyString "data" +:+ ") as item"),
      read_options.
    split; [|exact Hopts]. rewrite !string_app_assoc. reflexivity.
Qed.

Lemma string_length_app (a b : string) :
  String.length (a +:+ b) = (String.length a + String.length b)%nat.
Proof.
  induction a as [|x a IH]; [done|].
  change (String x a +:+ b) with (String x (a +:+ b)).
  cbn [String.length]. by rewrite IH.
Qed.

Lemma quote_free_count (s : string) :
  quote_free s = true ↔ count_char squote s = 0%nat.
Proof.
  induction s as [|a s IH]; [done|].
  cbn [quote_free count_char].
  destruct (Ascii.eqb a squote); cbn; [split; [done|lia]|done].
Qed.

(** A literal that is read back takes one character per character of
    its text, one more per quote of it, and its closing quote. *)
Lemma read_literal_length (n : nat) (s t r : string) :
  (String.length s <= n)%nat →
  read_literal s = Some (t, r) →
  String.length s
  = (String.length t + count_char squote t + 1 + String.length r)%nat.
Proof.
  revert s t r. induction n as [|n IH]; intros s t r Hn Hread.
  - destruct s; [done|]. cbn in Hn. lia.
  - destruct s as [|a s]; [done|]. cbn [read_literal] in Hread.
    cbn [String.length] in Hn.
    destruct (Ascii.eqb a squote) eqn:Ha.
    + destruct s as [|b s'].
      * by injection Hread as <- <-.
      * destruct (Ascii.eqb b squote) eqn:Hb.
        -- destruct (read_literal s') as [[t' r']|] eqn:Hrest; [|done].
           cbn in Hread. injection Hread as <- <-.
           apply IH in Hrest; [|cbn [String.length] in Hn; lia].
           cbn [String.length count_char]. rewrite Ascii.eqb_refl. lia.
        -- injection Hread as <- <-. cbn. lia.
    + destruct (read_literal s) as [[t' r']|] eqn:Hrest; [|done].
      cbn in Hread. injection Hread as <- <-.
      apply IH in Hrest; [|lia].
      cbn [String.length count_char]. rewrite Ha. lia.
Qed.

(** A text written between quotes as it is reads back as itself exactly
    when it holds no quote. *)
Lemma read_literal_verbatim (path rest : string) :
  no_leading_quote rest →
  read_literal (path +:+ String squote rest) = Some (path, rest)
  ↔ quote_free path = true.
Proof.
  intros Hrest. split; [|intros Hfree; by apply read_literal_plain].
  intros Hread.
  apply (read_literal_length _ _ _ _ (le_n _)) in Hread.
  rewrite string_length_app in Hread. cbn [String.length] in Hread.
  apply quote_free_count. lia.
Qed.

(** X19. For a local file, a Parquet path is written into the base query
    escaped, so the engine reads the whole path back from the literal
    whatever quotes it holds. The path of the JSON fallback is written
    as it is: the engine reads it back from the literal exactly when it
    holds no quote. A path with one quote, followed by a character that
    is no quote, is cut at it: the engine takes the text before the quote
    for the path and reads on after it, outside the literal. *)
Theorem base_query_path_literal (str_lower : string → string)
    (duckdb_view : string → error + string) (essential_cols : string)
    (detected : json_structure) (self : DuckDBProcessor)
    (file_size_mb : Q) :
  is_url self = false →
  (∀ resolved path,
     Py.truthy path = true →
     Py.endswith (str_lower path) ".duckdb" = false →
     ∃ literal,
       _build_base_query str_lower duckdb_view essential_cols detected self
         resolved (Some path) file_size_mb
       = inr ("SELECT " +:+ essential_cols +:+ " FROM read_parquet('"
              +:+ literal)
       ∧ read_literal literal = Some (path, ")"))
  ∧ (∀ resolved,
       ∃ select read_options,
         _build_base_query str_lower duckdb_view essential_cols detected self
           resolved None file_size_mb
         = inr (select +:+ " FROM read_json_auto('"
                +:+ (resolved +:+ String squote (read_options +:+ ")")))
         ∧ (read_literal (resolved +:+ String squote (read_options +:+ ")"))
            = Some (resolved, read_options +:+ ")")
            ↔ quote_free resolved = true))
  ∧ (∀ before after,
       quote_free before = true →
       Py.truthy after = true →
       no_leading_quote after →
       ∃ select literal rest,
         _build_base_query str_lower duckdb_view essential_cols detected self
           (before +:+ String squote after) None file_size_mb
         = inr (select +:+ " FROM read_json_auto('" +:+ literal)
         ∧ read_literal literal = Some (before, after +:+ rest)).
Proof.
  intros Hlocal. split; [|split].
  - intros resolved path Htruthy Hsuffix.
    exists (_escape_path path +:+ String squote ")").
    unfold _build_base_query, tabular_query, _get_table_expression.
    rewrite Hlocal, Htruthy, Hsuffix. split.
    + reflexivity.
    + by apply read_literal_escaped.
  - intros resolved. unfold _build_base_query. rewrite Hlocal.
    destruct (json_query_from essential_cols detected resolved file_size_mb)
      as (select & read_options & -> & Hopts).
    exists select, read_options. split; [done|].
    by apply read_literal_verbatim.
  - intros before after Hfree Hsome Hafter.
    unfold _build_base_query. rewrite Hlocal.
    destruct (json_query_from essential_cols detected
                (before +:+ String squote after) file_size_mb)
      as (select & read_options & -> & Hopts).
    exists select,
      ((before +:+ String squote after)
       +:+ String squote (read_options +:+ ")")),
      (String squote (read_options +:+ ")")).
    split; [done|].
    rewrite string_app_assoc.
    change (String squote after +:+ ?s) with (String squote (after +:+ s)).
    apply read_literal_plain; [done|]. by destruct after.
Qed.

Lemma base_query_path_literal_witness :
  (∃ select literal rest,
     _build_base_query Py.lower (fun _ => inl OSError) "*" array
       (local_processor "/data/o'brien.json") "/data/o'brien.json" None (1 # 1)
     = inr (select +:+ " FROM read_json_auto('" +:+ literal)
     ∧ read_literal literal = Some ("/data/o", "brien.json" +:+ rest))
  ∧ read_literal "/d/a''b.json')" = Some ("/d/a'b.json", ")").
Proof.
  destruct (base_query_path_literal Py.lower (fun _ => inl OSError) "*" array
              (local_processor "/data/o'brien.json") (1 # 1) eq_refl)
    as (_ & _ & Hjson).
  split; [|reflexivity].
  apply (Hjson "/data/o" "brien.json"); vm_compute; reflexivity.
Defined.
